(** * Quote ingestion, caching and fan-out engine of the market-data backend

    A shallow embedding of three backend services and of the routes in
    front of them:

    - [CacheService] (backend/src/services/CacheService.ts): the TTL
      key/value store, in its in-process configuration (no [REDIS_URL], so
      [this.redis] is undefined and every method takes its [else] branch on
      [memoryCache]), with its typed stores and its periodic sweep;
    - [MarketDataService]: the rate limiter, the upstream fetch with its
      simulated-data fallback, the initial load, the tiered poller, the
      broadcast interval, the provider stream messages, chart data and the
      sample bars;
    - [WebSocketService]: the subscription registry, the price broadcast
      and the statistics;
    - the market-data routes [GET /quote/:symbol] and [GET /status].

    Conventions.  [Date.now()] is an explicit argument [now] (epoch
    milliseconds, [Z]).  JavaScript numbers that carry prices are modelled as
    rationals [Q]: the properties proved here are about control flow, state
    and bounds, not about rounding.  [Math.random()] is an explicit input.  An
    [async] method runs synchronously up to its first [await]; in the
    in-process configuration the cache methods contain no [await] at all, so
    their effect on [memoryCache] is immediate and only their result is
    wrapped in a Promise. *)

From Stdlib Require Import ZArith QArith Qround Qminmax Qabs Lqa String List Lia.
From stdpp Require Import gmap strings list fin_maps.

Set Warnings "-register-all,-clear-no-such-hyp".

Local Open Scope string_scope.
Local Open Scope Z_scope.

(** ** JSON text, represented by its parse tree *)

Inductive Json :=
| JNull
| JNum (q : Q)
| JStr (s : string)
| JIso (ms : Z)   (* the ISO-8601 string that [Date.prototype.toJSON] gives for epoch [ms] *)
| JObj (props : list (string * Json)).

Fixpoint prop_lookup (k : string) (ps : list (string * Json)) : option Json :=
  match ps with
  | [] => None
  | (k', v) :: rest => if String.eqb k k' then Some v else prop_lookup k rest
  end.

Definition num_prop (k : string) (ps : list (string * Json)) : option Q :=
  match prop_lookup k ps with Some (JNum q) => Some q | _ => None end.

Definition str_prop (k : string) (ps : list (string * Json)) : option string :=
  match prop_lookup k ps with Some (JStr s) => Some s | _ => None end.

(** [new Date(parsed.timestamp)] on the ISO string written by [JSON.stringify]. *)
Definition date_prop (k : string) (ps : list (string * Json)) : option Z :=
  match prop_lookup k ps with Some (JIso ms) => Some ms | _ => None end.

(** ** interface MarketData *)

Module MD.

Record MarketData := mkMarketData {
  symbol : string;
  price : Q;
  change : Q;
  changePercent : Q;
  volume : Q;
  high : Q;
  low : Q;
  open : Q;
  previousClose : Q;
  marketCap : option Q;
  timestamp : Z
}.

End MD.
Export MD.

(** [JSON.stringify(data)] for a [MarketData] object: own properties in
    creation order, [undefined] properties dropped, the [Date] as ISO text. *)
Definition stringify_MarketData (d : MarketData) : Json :=
  JObj ([("symbol", JStr (symbol d));
         ("price", JNum (price d));
         ("change", JNum (change d));
         ("changePercent", JNum (changePercent d));
         ("volume", JNum (volume d));
         ("high", JNum (high d));
         ("low", JNum (low d));
         ("open", JNum (open d));
         ("previousClose", JNum (previousClose d))]
        ++ match marketCap d with Some m => [("marketCap", JNum m)] | None => [] end
        ++ [("timestamp", JIso (timestamp d))]).

(** [JSON.parse(cached.value)] followed by the revival of [timestamp] into a
    [Date], read back at the declared type [MarketData].  A stored text that
    is not the image of a [MarketData] object has no typed reading; the only
    writer of [market:] keys is [setMarketData], so that case does not arise
    (see [market_wf] below). *)
Definition parse_MarketData (j : Json) : option MarketData :=
  match j with
  | JObj ps =>
      s ← str_prop "symbol" ps;
      p ← num_prop "price" ps;
      c ← num_prop "change" ps;
      cp ← num_prop "changePercent" ps;
      v ← num_prop "volume" ps;
      h ← num_prop "high" ps;
      l ← num_prop "low" ps;
      o ← num_prop "open" ps;
      pc ← num_prop "previousClose" ps;
      ts ← date_prop "timestamp" ps;
      Some (mkMarketData s p c cp v h l o pc (num_prop "marketCap" ps) ts)
  | _ => None
  end.

(** ** CacheService (in-process backing map) *)

Module Cache.

Record CacheEntry := mkEntry { value : Json; expiry : Z }.

Record CacheService := mkCache { memoryCache : gmap string CacheEntry }.

Definition empty : CacheService := mkCache ∅.

Definition marketKey (sym : string) : string := "market:" +:+ sym.

(** [setMarketData(symbol, data)]: unconditional [memoryCache.set] with a
    60 s expiry. *)
Definition setMarketData (sym : string) (data : MarketData) (now : Z)
    (c : CacheService) : CacheService :=
  let key := marketKey sym in
  let v := stringify_MarketData data in
  mkCache (<[key := mkEntry v (now + 60000)]> (memoryCache c)).

(** [getMarketData(symbol)]: the parsed entry while [expiry > Date.now()];
    otherwise the slot, if any, is deleted and [null] is returned. *)
Definition getMarketData (sym : string) (now : Z) (c : CacheService)
    : option MarketData * CacheService :=
  let key := marketKey sym in
  match memoryCache c !! key with
  | Some cached =>
      if (now <? expiry cached)%Z
      then (parse_MarketData (value cached), c)
      else (None, mkCache (delete key (memoryCache c)))
  | None => (None, c)
  end.

(** [set(key, value, ttlSeconds = 300)]. *)
Definition set (key : string) (v : Json) (ttlSeconds : Z) (now : Z)
    (c : CacheService) : CacheService :=
  mkCache (<[key := mkEntry v (now + ttlSeconds * 1000)]> (memoryCache c)).

(** [get(key)]: [None] is JavaScript's [null]. *)
Definition get (key : string) (now : Z) (c : CacheService)
    : option Json * CacheService :=
  match memoryCache c !! key with
  | Some cached =>
      if (now <? expiry cached)%Z
      then (Some (value cached), c)
      else (None, mkCache (delete key (memoryCache c)))
  | None => (None, c)
  end.

(** [del(key)]. *)
Definition del (key : string) (c : CacheService) : CacheService :=
  mkCache (delete key (memoryCache c)).

(** Every [market:] slot holds the text of a [MarketData] object for the
    symbol of its key. *)
Definition market_wf (c : CacheService) : Prop :=
  ∀ s e, memoryCache c !! marketKey s = Some e →
         ∃ d, parse_MarketData (value e) = Some d ∧ symbol d = s.

(** An entry as a read at [now] treats it. *)
Definition liveOnly (now : Z) (o : option CacheEntry) : option CacheEntry :=
  match o with
  | Some e => if (now <? expiry e)%Z then Some e else None
  | None => None
  end.


End Cache.

(** ** JavaScript values seen by [generateSimulatedData] *)

Module Js.

(** The values the local [cached] can hold: [null], a value produced by
    [JSON.parse], or the Promise object that a call of an [async] method
    evaluates to when it is not awaited ([settled] is what awaiting it would
    give). *)
Inductive Value :=
| Null
| Parsed (j : Json)
| PromiseOf (settled : option Json).

(** ToBoolean. *)
Definition truthy (v : Value) : bool :=
  match v with
  | Null => false
  | Parsed JNull => false
  | Parsed (JNum q) => negb (Qeq_bool q 0)
  | Parsed (JStr s) => negb (String.eqb s "")
  | Parsed (JIso _) => true
  | Parsed (JObj _) => true
  | PromiseOf _ => true
  end.

(** [typeof v === 'object']. *)
Definition typeof_object (v : Value) : bool :=
  match v with
  | Null => true
  | Parsed JNull => true
  | Parsed (JObj _) => true
  | PromiseOf _ => true
  | Parsed _ => false
  end.

Definition Object_prototype : list string :=
  ["constructor"; "hasOwnProperty"; "isPrototypeOf"; "propertyIsEnumerable";
   "toLocaleString"; "toString"; "valueOf"; "__proto__";
   "__defineGetter__"; "__defineSetter__"; "__lookupGetter__"; "__lookupSetter__"].

Definition Promise_prototype : list string := ["then"; "catch"; "finally"].

(** [k in v], for [v] an object: own properties, then the prototype chain. *)
Definition has_property (k : string) (v : Value) : bool :=
  match v with
  | Parsed (JObj ps) =>
      bool_decide (is_Some (prop_lookup k ps)) || bool_decide (k ∈ Object_prototype)
  | PromiseOf _ =>
      bool_decide (k ∈ Promise_prototype) || bool_decide (k ∈ Object_prototype)
  | _ => false
  end.

(** [v.price as number]: the cast converts nothing; a property that is not a
    number is read as 0 here. *)
Definition price_of (v : Value) : Q :=
  match v with
  | Parsed (JObj ps) => default 0%Q (num_prop "price" ps)
  | _ => 0%Q
  end.

(** [String.prototype.includes]. *)
Fixpoint includes (sub s : string) : bool :=
  String.prefix sub s ||
  match s with
  | EmptyString => false
  | String _ s' => includes sub s'
  end.

End Js.

(** ** MarketDataService *)

Module Market.

(** *** Static symbol tables ([startPeriodicDataFetch]) *)

Definition STOCKS : list (list string) :=
  [ ["AAPL"; "GOOGL"; "MSFT"; "META"; "NVDA"; "AMD"];
    ["TSLA"; "AMZN"; "NFLX"; "DIS"; "PYPL"; "ADBE"];
    ["CRM"; "ORCL"; "INTC"; "IBM"];
    ["JPM"; "BAC"; "GS"; "MS"; "WFC"; "V"; "MA"] ].

Definition INDICES : list (list string) :=
  [ ["SPY"; "QQQ"; "IWM"]; ["VTI"; "VOO"; "VEA"; "VWO"] ].

Definition CRYPTO : list (list string) :=
  [ ["BTC/USD"; "ETH/USD"];
    ["LTC/USD"; "BCH/USD"; "LINK/USD"; "UNI/USD"];
    ["AAVE/USD"; "ALGO/USD"; "DOT/USD"; "DOGE/USD"] ].

Definition FOREX : list (list string) :=
  [ ["EUR/USD"; "GBP/USD"; "USD/JPY"; "USD/CHF"];
    ["AUD/USD"; "USD/CAD"; "NZD/USD"];
    ["EUR/GBP"; "EUR/JPY"; "GBP/JPY"] ].

Definition symbolCategories : list (list (list string)) :=
  [STOCKS; INDICES; CRYPTO; FOREX].

(** [Object.values(symbolCategories).flatMap(c => Object.values(c)).flat()]. *)
Definition allSymbols : list string := concat (concat symbolCategories).

Definition highPrioritySymbols : list string :=
  ["SPY"; "QQQ"; "BTC/USD"; "ETH/USD"; "AAPL"; "GOOGL"; "MSFT"; "TSLA"; "NVDA"].

Definition mediumPrioritySymbols : list string :=
  ["META"; "AMZN"; "NFLX"; "AMD"; "JPM"; "V"; "LTC/USD"; "BCH/USD"].

Definition lowPrioritySymbols : list string :=
  filter (λ s, ¬ (s ∈ highPrioritySymbols) ∧ ¬ (s ∈ mediumPrioritySymbols)) allSymbols.

Inductive Priority := HIGH_PRIORITY | MEDIUM_PRIORITY | LOW_PRIORITY.

(** The three [setInterval] pollers: the symbol list each one passes to
    [updateSymbolBatch], its period and its cache threshold (ms). *)
Definition tierSymbols (p : Priority) : list string :=
  match p with
  | HIGH_PRIORITY => highPrioritySymbols
  | MEDIUM_PRIORITY => mediumPrioritySymbols
  | LOW_PRIORITY => lowPrioritySymbols
  end.

Definition tierInterval (p : Priority) : Z :=
  match p with HIGH_PRIORITY => 5000 | MEDIUM_PRIORITY => 10000 | LOW_PRIORITY => 20000 end.

Definition tierCacheThreshold (p : Priority) : Z :=
  match p with HIGH_PRIORITY => 15000 | MEDIUM_PRIORITY => 25000 | LOW_PRIORITY => 45000 end.

Definition batchSize (p : Priority) : nat :=
  match p with HIGH_PRIORITY => 6%nat | MEDIUM_PRIORITY => 8%nat | LOW_PRIORITY => 10%nat end.


(** *** Service state *)

Record MarketDataService := mkService {
  cacheService : Cache.CacheService;
  subscribedSymbols : gset string;
  requestQueue : list string;
  lastRequestTime : Z;
  requestCount : Z
}.

Definition rateLimitWindow : Z := 60000.
Definition maxRequestsPerWindow : Z := 300.

(** The state right after the constructor. *)
Definition initial : MarketDataService :=
  mkService Cache.empty ∅ [] 0 0.

Definition with_cache (c : Cache.CacheService) (m : MarketDataService) : MarketDataService :=
  mkService c (subscribedSymbols m) (requestQueue m) (lastRequestTime m) (requestCount m).

(** *** Upstream provider *)

Inductive Request :=
| LatestCryptoTrades (sym : string)
| StockSnapshot (sym : string)
| CryptoBars (sym : string)
| StockBars (sym : string).

(** The requests made by [fetchAlpacaData] itself (latest trade, snapshot),
    as opposed to the bars lookup of [getMinuteComparisonPrice]. *)
Definition isFetch (r : Request) : bool :=
  match r with
  | LatestCryptoTrades _ | StockSnapshot _ => true
  | CryptoBars _ | StockBars _ => false
  end.

Definition fetchRequest (symbol : string) : Request :=
  if Js.includes "/" symbol then LatestCryptoTrades symbol else StockSnapshot symbol.

(** What an awaited [axios.get] does: resolve with the response body or
    reject with an [Error] carrying [message] (network failure, timeout,
    non-2xx status). *)
Inductive Axios (A : Type) :=
| Resolved (data : A)
| Rejected (message : string).
Arguments Resolved {A} data.
Arguments Rejected {A} message.

Record Trade := mkTrade { trade_p : option Q; trade_s : option Q; trade_t : option Z }.

Record Bar := mkBar { bar_o : Q; bar_h : Q; bar_l : Q; bar_c : Q; bar_v : Q }.

(** [response.data] of the latest-trades endpoint; [trades = None] is a body
    without a [trades] property. *)
Record CryptoTrades := mkCryptoTrades { trades : option (gmap string Trade) }.

(** [response.data] of the snapshot endpoint: [latestTrade?.p],
    [latestQuote?.ap], [dailyBar]. *)
Record Snapshot := mkSnapshot {
  latestTrade_p : option Q;
  latestQuote_ap : option Q;
  dailyBar : option Bar
}.

Record Draws := mkDraws { rBase : Q; rChange : Q; rVolume : Q; rHigh : Q; rLow : Q }.

(** Everything one call of [fetchAlpacaData] reads from outside the service:
    the clock at the rate-limit check, the clock after the awaits, the
    provider's answers and the values of [Math.random()]. *)
Record FetchEnv := mkEnv {
  now : Z;
  nowLater : Z;
  cryptoReply : Axios CryptoTrades;
  stockReply : Axios Snapshot;
  barsReply : Axios (option (list Bar));
  draws : Draws
}.

(** *** A state-and-exception monad over the service and the request log *)

(** A request as it went out: what was asked, the clock of the fetch that
    asked, and the value of [lastRequestTime] (the start of the counting
    window) at that moment. *)
Record Sent := mkSent { request : Request; issuedAt : Z; windowStart : Z }.

Record World := mkWorld {
  svc : MarketDataService;
  sent : list Sent;               (* upstream requests issued so far, oldest first *)
  notified : list MarketData      (* arguments the price-update callbacks were called with *)
}.

Inductive Outcome (A : Type) :=
| Returned (a : A)
| Thrown (message : string).
Arguments Returned {A} a.
Arguments Thrown {A} message.

Definition M (A : Type) : Type := World → Outcome A * World.

Definition ret {A} (a : A) : M A := λ w, (Returned a, w).

Definition throw {A} (msg : string) : M A := λ w, (Thrown msg, w).

Definition bind {A B} (m : M A) (k : A → M B) : M B :=
  λ w, match m w with
       | (Returned a, w') => k a w'
       | (Thrown e, w') => (Thrown e, w')
       end.

(** [try { body } catch (error) { handler(error.message) }]. *)
Definition tryCatch {A} (body : M A) (handler : string → M A) : M A :=
  λ w, match body w with
       | (Returned a, w') => (Returned a, w')
       | (Thrown e, w') => handler e w'
       end.

#[global] Instance M_ret : MRet M := @ret.
#[global] Instance M_bind : MBind M := λ A B k m, bind m k.

Definition getService : M MarketDataService := λ w, (Returned (svc w), w).

Definition modifyService (f : MarketDataService → MarketDataService) : M unit :=
  λ w, (Returned tt, mkWorld (f (svc w)) (sent w) (notified w)).

(** A call into [this.cacheService]. *)
Definition liftCache {A} (f : Cache.CacheService → A * Cache.CacheService) : M A :=
  λ w, let '(a, c') := f (cacheService (svc w)) in
       (Returned a, mkWorld (with_cache c' (svc w)) (sent w) (notified w)).

Definition liftCache_ (f : Cache.CacheService → Cache.CacheService) : M unit :=
  liftCache (λ c, (tt, f c)).

(** [await axios.get(...)]: the request goes out, then the reply decides. *)
Definition axios_get {A} (req : Request) (clock : Z) (reply : Axios A) : M A :=
  λ w, (match reply with
        | Resolved d => Returned d
        | Rejected msg => Thrown msg
        end,
        mkWorld (svc w)
                (sent w ++ [mkSent req clock (lastRequestTime (svc w))])
                (notified w)).

(** [this.priceUpdateCallbacks.forEach(callback => callback(data))]. *)
Definition notifyCallbacks (data : MarketData) : M unit :=
  λ w, (Returned tt, mkWorld (svc w) (sent w) (notified w ++ [data])).

(** *** Simulated data *)

Definition forexPairs : list string :=
  ["EUR/USD"; "GBP/USD"; "USD/JPY"; "USD/CHF";
   "AUD/USD"; "USD/CAD"; "NZD/USD";
   "EUR/GBP"; "EUR/JPY"; "GBP/JPY"].

Definition isForexSymbol (symbol : string) : bool :=
  bool_decide (symbol ∈ forexPairs).

Definition simulatedKey (symbol : string) : string := "simulated_" +:+ symbol.

(** The [else] branch of [generateSimulatedData]: base price by asset type,
    [r] being the value of [Math.random()]. *)
Definition defaultBasePrice (symbol : string) (r : Q) : Q :=
  (if Js.includes "BTC" symbol then 65000 + r * 10000
   else if Js.includes "ETH" symbol then 2500 + r * 1000
   else if Js.includes "/USD" symbol then r * 100 + 10
   else if isForexSymbol symbol then
     if String.eqb symbol "EUR/USD" then 1.05 + r * 0.1
     else if String.eqb symbol "GBP/USD" then 1.25 + r * 0.1
     else if String.eqb symbol "USD/JPY" then 140 + r * 20
     else 1.0 + r * 0.5
   else if Js.includes "SPY" symbol then 520 + r * 20
   else if Js.includes "QQQ" symbol then 380 + r * 20
   else 50 + r * 200)%Q.

(** The second half of [generateSimulatedData]: the random step applied to
    [basePrice] and the record built from it. *)
Definition simulatedQuote (symbol : string) (basePrice : Q) (clock : Z) (d : Draws)
    : MarketData :=
  let changePercent := ((rChange d - 0.5) * 4)%Q in
  let change := (basePrice * (changePercent / 100))%Q in
  let currentPrice := (basePrice + change)%Q in
  {| symbol := symbol;
     price := currentPrice;
     change := change;
     changePercent := changePercent;
     volume := (inject_Z (Qfloor (rVolume d * 1000000)) + 100000)%Q;
     high := (currentPrice * (1 + rHigh d * 0.02))%Q;
     low := (currentPrice * (1 - rLow d * 0.02))%Q;
     open := basePrice;
     previousClose := basePrice;
     marketCap := None;
     timestamp := clock |}.

(** [generateSimulatedData(symbol)].  The method is synchronous and
    [cacheService.get] is [async]: the call is not awaited, so [cached] is
    the Promise object itself.  The new price is stored before the record is
    returned. *)
Definition generateSimulatedData (symbol : string) (clock : Z) (d : Draws) : M MarketData :=
  settled ← liftCache (Cache.get (simulatedKey symbol) clock);
  let cached := Js.PromiseOf settled in
  let basePrice :=
    if Js.truthy cached && Js.typeof_object cached && Js.has_property "price" cached
    then Js.price_of cached
    else defaultBasePrice symbol (rBase d) in
  let simulatedData := simulatedQuote symbol basePrice clock d in
  liftCache_ (Cache.set (simulatedKey symbol)
                (JObj [("price", JNum (price simulatedData));
                       ("timestamp", JNum (inject_Z clock))])
                300 clock);;
  mret simulatedData.

(** How a call of [fetchAlpacaData] can leave the cache: untouched, or with
    the generator's read and write of the symbol's [simulated_] key. *)
Definition fetchCacheStep (symbol : string) (c c' : Cache.CacheService) : Prop :=
  c' = c ∨
  ∃ v t, c' = Cache.set (simulatedKey symbol) v 300 t (Cache.get (simulatedKey symbol) t c).2.

(** *** Upstream fetch *)

(** [a || b] on numbers: [a] unless it is missing or falsy (zero). *)
Definition orElse (a : option Q) (b : Q) : Q :=
  match a with
  | Some q => if Qeq_bool q 0 then b else q
  | None => b
  end.

(** [x && x > 0] for a number-or-null [x]. *)
Definition isPositive (x : option Q) : bool :=
  match x with
  | Some q => negb (Qle_bool q 0)
  | None => false
  end.

Definition isCrypto (symbol : string) : bool := Js.includes "/" symbol.

(** [getMinuteComparisonPrice(symbol)]: one bars request inside its own
    [try]/[catch]; the close of the last bar returned, else [null]. *)
Definition getMinuteComparisonPrice (symbol : string) (env : FetchEnv) : M (option Q) :=
  tryCatch
    (bars ← axios_get (if isCrypto symbol then CryptoBars symbol else StockBars symbol)
                      (now env) (barsReply env);
     match bars with
     | Some bs => mret (bar_c <$> last bs)
     | None => mret None
     end)
    (λ _, mret None).

(** The window check of [fetchAlpacaData]: reset the counter when more than
    [rateLimitWindow] ms have passed since [lastRequestTime]. *)
Definition resetIfWindowPassed (clock : Z) (m : MarketDataService) : MarketDataService :=
  if rateLimitWindow <? clock - lastRequestTime m
  then mkService (cacheService m) (subscribedSymbols m) (requestQueue m) clock 0
  else m.

(** [this.requestCount++]. *)
Definition countRequest (m : MarketDataService) : MarketDataService :=
  mkService (cacheService m) (subscribedSymbols m) (requestQueue m)
            (lastRequestTime m) (requestCount m + 1).

Definition fetchCrypto (symbol : string) (env : FetchEnv) : M (option MarketData) :=
  response ← axios_get (LatestCryptoTrades symbol) (now env) (cryptoReply env);
  by1 ← match trades response with
        | Some t => mret t
        | None => throw "Cannot read properties of undefined"
        end;
  match (by1 : gmap string Trade) !! symbol with
  | None =>
      d ← generateSimulatedData symbol (nowLater env) (draws env); mret (Some d)
  | Some tradeData =>
      let currentPrice := orElse (trade_p tradeData) 0 in
      minuteComparisonPrice ← getMinuteComparisonPrice symbol env;
      let minuteChange :=
        if isPositive minuteComparisonPrice
        then (currentPrice - default 0 minuteComparisonPrice)%Q else 0%Q in
      let minuteChangePercent :=
        if isPositive minuteComparisonPrice
        then (minuteChange / default 0 minuteComparisonPrice * 100)%Q else 0%Q in
      mret (Some {| symbol := symbol;
                    price := currentPrice;
                    change := minuteChange;
                    changePercent := minuteChangePercent;
                    volume := orElse (trade_s tradeData) 0;
                    high := 0; low := 0; open := 0;
                    previousClose := orElse minuteComparisonPrice 0;
                    marketCap := None;
                    timestamp := default (nowLater env) (trade_t tradeData) |})
  end.

Definition fetchStock (symbol : string) (env : FetchEnv) : M (option MarketData) :=
  data ← axios_get (StockSnapshot symbol) (now env) (stockReply env);
  let currentPrice := orElse (latestTrade_p data) (orElse (latestQuote_ap data) 0) in
  minuteComparisonPrice ← getMinuteComparisonPrice symbol env;
  let minuteChange :=
    if isPositive minuteComparisonPrice
    then (currentPrice - default 0 minuteComparisonPrice)%Q
    else match dailyBar data with
         | Some b => (currentPrice - bar_c b)%Q
         | None => 0%Q
         end in
  let minuteChangePercent :=
    if isPositive minuteComparisonPrice
    then (minuteChange / default 0 minuteComparisonPrice * 100)%Q
    else match dailyBar data with
         | Some b => ((currentPrice - bar_c b) / bar_c b * 100)%Q
         | None => 0%Q
         end in
  mret (Some {| symbol := symbol;
                price := currentPrice;
                change := minuteChange;
                changePercent := minuteChangePercent;
                volume := orElse (bar_v <$> dailyBar data) 0;
                high := orElse (bar_h <$> dailyBar data) 0;
                low := orElse (bar_l <$> dailyBar data) 0;
                open := orElse (bar_o <$> dailyBar data) 0;
                previousClose := orElse (bar_c <$> dailyBar data) 0;
                marketCap := None;
                timestamp := nowLater env |}).

(** The [catch] block: both of its branches return simulated data. *)
Definition fetchCatch (symbol : string) (env : FetchEnv) (errorMessage : string)
    : M (option MarketData) :=
  if Js.includes "404" errorMessage || Js.includes "not found" errorMessage
     || Js.includes "forbidden" errorMessage
  then d ← generateSimulatedData symbol (nowLater env) (draws env); mret (Some d)
  else d ← generateSimulatedData symbol (nowLater env) (draws env); mret (Some d).

(** [fetchAlpacaData(symbol)]; [None] is the [null] of "Rate limit reached,
    skipping". *)
Definition fetchAlpacaData (symbol : string) (env : FetchEnv) : M (option MarketData) :=
  if isForexSymbol symbol then
    d ← generateSimulatedData symbol (now env) (draws env); mret (Some d)
  else
    modifyService (resetIfWindowPassed (now env));;
    m ← getService;
    if maxRequestsPerWindow <=? requestCount m then mret None
    else
      modifyService countRequest;;
      tryCatch
        (if isCrypto symbol then fetchCrypto symbol env else fetchStock symbol env)
        (fetchCatch symbol env).

(** *** Cache writers and the pollers *)

(** [processMarketData(data)]: cache, then notify. *)
Definition processMarketData (data : MarketData) (clock : Z) : M unit :=
  liftCache_ (Cache.setMarketData (symbol data) data clock);;
  notifyCallbacks data.

(** The filter loop of [updateSymbolBatch]. *)
Definition needsUpdate (clock cacheThreshold : Z) (cached : option MarketData) : bool :=
  match cached with
  | None => true
  | Some d => cacheThreshold <? clock - timestamp d
  end.

Fixpoint symbolsNeedingUpdate (symbols : list string) (clock cacheThreshold : Z)
    : M (list string) :=
  match symbols with
  | [] => mret []
  | s :: rest =>
      cached ← liftCache (Cache.getMarketData s clock);
      more ← symbolsNeedingUpdate rest clock cacheThreshold;
      mret (if needsUpdate clock cacheThreshold cached then s :: more else more)
  end.

(** [symbolsNeedingUpdate.slice(i, i + batchSize)] for [i = 0, batchSize, ...]. *)
Fixpoint batchesOf (fuel : nat) (size : nat) (l : list string) : list (list string) :=
  match fuel, l with
  | O, _ => []
  | _, [] => []
  | S fuel', _ => take size l :: batchesOf fuel' size (drop size l)
  end.

(** One element of a batch: fetch; on data, cache it; failures become
    [success: false]. *)
Definition updateOne (envOf : string → FetchEnv) (symbol : string) : M bool :=
  tryCatch
    (data ← fetchAlpacaData symbol (envOf symbol);
     match data with
     | Some d =>
         liftCache_ (Cache.setMarketData symbol d (nowLater (envOf symbol)));;
         mret true
     | None => mret false
     end)
    (λ _, mret false).

Fixpoint forEachM {A B} (f : A → M B) (l : list A) : M (list B) :=
  match l with
  | [] => mret []
  | a :: rest => b ← f a; bs ← forEachM f rest; mret (b :: bs)
  end.

(** [updateSymbolBatch(symbols, priority, cacheThreshold)].  The members of a
    batch are started in list order by [Promise.all]; they are run to
    completion in that order here. *)
Definition updateSymbolBatch (symbols : list string) (priority : Priority)
    (cacheThreshold : Z) (clock : Z) (envOf : string → FetchEnv) : M (list (list bool)) :=
  needing ← symbolsNeedingUpdate symbols clock cacheThreshold;
  match needing with
  | [] => mret []
  | _ => forEachM (forEachM (updateOne envOf))
                  (batchesOf (length needing) (batchSize priority) needing)
  end.

(** One firing of a tier's [setInterval] poller. *)
Definition pollTier (p : Priority) (clock : Z) (envOf : string → FetchEnv) : M (list (list bool)) :=
  updateSymbolBatch (tierSymbols p) p (tierCacheThreshold p) clock envOf.

(** One firing of the 2-second broadcast interval.  In the in-process
    configuration every [await] of the loop resumes in a microtask, so the
    loop reads all symbols first and the [setImmediate] callbacks
    ([processMarketData(cached)]) run afterwards, in order. *)
Fixpoint readCached (symbols : list string) (clock : Z) : M (list MarketData) :=
  match symbols with
  | [] => mret []
  | s :: rest =>
      cached ← liftCache (Cache.getMarketData s clock);
      more ← readCached rest clock;
      mret (match cached with Some d => d :: more | None => more end)
  end.

Definition broadcastTick (clock : Z) : M unit :=
  found ← readCached allSymbols clock;
  forEachM (λ d, processMarketData d clock) found;;
  mret tt.

(** [getMarketData(symbol)], the on-demand read used by the REST routes and
    by [sendMarketDataToClient]: cache first, otherwise one upstream fetch
    whose result is returned but not cached. *)
Definition getMarketData (symbol : string) (clock : Z) (env : FetchEnv)
    : M (option MarketData) :=
  cachedData ← liftCache (Cache.getMarketData symbol clock);
  match cachedData with
  | Some d => mret (Some d)
  | None => tryCatch (fetchAlpacaData symbol env) (λ _, mret None)
  end.

(** The initial load of [startPeriodicDataFetch] (batches of 8) and its
    delayed retry of the symbols still missing from the cache. *)
Definition initialFetchOne (envOf : string → FetchEnv) (symbol : string) : M bool :=
  tryCatch
    (data ← fetchAlpacaData symbol (envOf symbol);
     match data with
     | Some d =>
         liftCache_ (Cache.setMarketData symbol d (nowLater (envOf symbol)));;
         processMarketData d (nowLater (envOf symbol));;
         mret true
     | None => mret false
     end)
    (λ _, mret false).

Definition initialFetch (envOf : string → FetchEnv) : M (list (list bool)) :=
  forEachM (forEachM (initialFetchOne envOf))
           (batchesOf (length allSymbols) 8 allSymbols).

Definition retryOne (clock : Z) (envOf : string → FetchEnv) (symbol : string) : M bool :=
  cached ← liftCache (Cache.getMarketData symbol clock);
  match cached with
  | Some _ => mret false
  | None => initialFetchOne envOf symbol
  end.

Definition retryMissing (clock : Z) (envOf : string → FetchEnv) : M (list bool) :=
  forEachM (retryOne clock envOf) allSymbols.

(** *** Executions of the service *)

(** What drives the service: the initial load and its retry, a firing of a
    tier's poller, a firing of the broadcast interval, a trade message from
    a provider stream, and an on-demand read. *)
Inductive Action :=
| InitialFetch (envOf : string → FetchEnv)
| RetryMissing (clock : Z) (envOf : string → FetchEnv)
| Poll (p : Priority) (clock : Z) (envOf : string → FetchEnv)
| Broadcast (clock : Z)
| StreamTrade (d : MarketData) (clock : Z)
| OnDemand (symbol : string) (clock : Z) (env : FetchEnv).

Definition perform (a : Action) : M unit :=
  match a with
  | InitialFetch envOf => initialFetch envOf;; mret tt
  | RetryMissing clock envOf => retryMissing clock envOf;; mret tt
  | Poll p clock envOf => pollTier p clock envOf;; mret tt
  | Broadcast clock => broadcastTick clock
  | StreamTrade d clock => processMarketData d clock
  | OnDemand symbol clock env => getMarketData symbol clock env;; mret tt
  end.

Definition execute (actions : list Action) (w : World) : World :=
  foldl (λ w a, (perform a w).2) w actions.

(** *** Counting requests *)

Fixpoint countIf {A} (p : A → bool) (l : list A) : Z :=
  match l with
  | [] => 0
  | a :: rest => (if p a then 1 else 0) + countIf p rest
  end.

(** Fetch requests issued while the counting window that began at [start]
    was the current one. *)
Definition fetchesOfWindow (start : Z) (log : list Sent) : Z :=
  countIf (λ e, isFetch (request e) && (windowStart e =? start)) log.

(** Fetch requests issued at a clock reading in [[from, from + rateLimitWindow)]. *)
Definition fetchesWithin (from : Z) (log : list Sent) : Z :=
  countIf (λ e, isFetch (request e) && (from <=? issuedAt e)
                && (issuedAt e <? from + rateLimitWindow)) log.


(** The relation between the counter, the window start and the request log
    that the rate limiter maintains. *)
Definition budgetInv (w : World) : Prop :=
  0 ≤ requestCount (svc w) ≤ maxRequestsPerWindow ∧
  fetchesOfWindow (lastRequestTime (svc w)) (sent w) = requestCount (svc w) ∧
  (∀ e, e ∈ sent w → isFetch (request e) = true →
        windowStart e ≤ lastRequestTime (svc w)) ∧
  (∀ start, fetchesOfWindow start (sent w) ≤ maxRequestsPerWindow) ∧
  requestQueue (svc w) = [].


(** A counting window never spans more than [rateLimitWindow] ms after its
    start. *)
Definition spanInv (w : World) : Prop :=
  ∀ e, e ∈ sent w → isFetch (request e) = true →
       issuedAt e ≤ windowStart e + rateLimitWindow.

(** Counting windows start more than [rateLimitWindow] ms apart: the window
    of a logged fetch is the current one or began more than a window length
    before it, and two logged fetches of different windows have window
    starts more than a window length apart. *)
Definition spacedInv (w : World) : Prop :=
  (∀ e, e ∈ sent w → isFetch (request e) = true →
        windowStart e = lastRequestTime (svc w) ∨
        windowStart e + rateLimitWindow < lastRequestTime (svc w)) ∧
  (∀ e1 e2, e1 ∈ sent w → e2 ∈ sent w →
        isFetch (request e1) = true → isFetch (request e2) = true →
        windowStart e1 < windowStart e2 →
        windowStart e1 + rateLimitWindow < windowStart e2).


(** *** Auxiliary notions for the proofs *)

(** [m] keeps [P], whether it returns or throws. *)
Definition preserves (P : World → Prop) {A} (m : M A) : Prop :=
  ∀ w, P w → P (m w).2.

(** The cache writes of the [setImmediate] callbacks of one broadcast. *)
Definition writeAll (clock : Z) (c : Cache.CacheService) (ds : list MarketData)
    : Cache.CacheService :=
  foldl (λ c d, Cache.setMarketData (symbol d) d clock c) c ds.


(** [m] keeps the cache well formed, and what it returns satisfies [Q]. *)
Definition cacheWf (w : World) : Prop := Cache.market_wf (cacheService (svc w)).

Definition ensures {A} (m : M A) (Q : A → Prop) : Prop :=
  ∀ w, cacheWf w → cacheWf (m w).2 ∧ ∀ a, (m w).1 = Returned a → Q a.


(** *** Stream subscriptions *)

(** [subscribeToSymbol] / [unsubscribeFromSymbol]: membership in
    [subscribedSymbols] (the messages to the provider's sockets are sent only
    on a change and carry no state of the service). *)
Definition subscribeToSymbol (symbol : string) (m : MarketDataService) : MarketDataService :=
  if bool_decide (symbol ∈ subscribedSymbols m) then m
  else mkService (cacheService m) ({[symbol]} ∪ subscribedSymbols m)
                 (requestQueue m) (lastRequestTime m) (requestCount m).

Definition unsubscribeFromSymbol (symbol : string) (m : MarketDataService) : MarketDataService :=
  if bool_decide (symbol ∈ subscribedSymbols m)
  then mkService (cacheService m) (subscribedSymbols m ∖ {[symbol]})
                 (requestQueue m) (lastRequestTime m) (requestCount m)
  else m.

End Market.

(** ** WebSocketService: the subscription registry *)

Module Registry.

Record SocketClient := mkClient {
  id : string;
  userId : option string;
  subscribedSymbols : gset string;
  rooms : gset string
}.

(** [marketDataService] is the one service object of the process: the
    registry and the server start-up code act on the same state. *)
Record WebSocketService := mkWs {
  clients : gmap string SocketClient;
  symbolSubscriptions : gmap string (gset string);   (* symbol -> set of client IDs *)
  marketDataService : Market.MarketDataService
}.

Definition initial : WebSocketService := mkWs ∅ ∅ Market.initial.

(** [this.symbolSubscriptions.get(symbol)], read as a set. *)
Definition subscribers (ws : WebSocketService) (symbol : string) : gset string :=
  default ∅ (symbolSubscriptions ws !! symbol).

Definition withSymbols (f : gset string → gset string) (c : SocketClient) : SocketClient :=
  mkClient (id c) (userId c) (f (subscribedSymbols c)) (rooms c).

(** [subscribeClientToSymbol(clientId, symbol)].  [client] is the object held
    by the [clients] map, so its mutation is an update of that map. *)
Definition subscribeClientToSymbol (clientId symbol : string) (ws : WebSocketService)
    : WebSocketService :=
  match clients ws !! clientId with
  | None => ws
  | Some client =>
      let clients' := <[clientId := withSymbols (λ X, {[symbol]} ∪ X) client]> (clients ws) in
      match symbolSubscriptions ws !! symbol with
      | None =>
          mkWs clients'
               (<[symbol := {[clientId]}]> (symbolSubscriptions ws))
               (Market.subscribeToSymbol symbol (marketDataService ws))
      | Some subs =>
          mkWs clients'
               (<[symbol := {[clientId]} ∪ subs]> (symbolSubscriptions ws))
               (marketDataService ws)
      end
  end.

(** [unsubscribeClientFromSymbol(clientId, symbol)]. *)
Definition unsubscribeClientFromSymbol (clientId symbol : string) (ws : WebSocketService)
    : WebSocketService :=
  match clients ws !! clientId with
  | None => ws
  | Some client =>
      let clients' := <[clientId := withSymbols (λ X, X ∖ {[symbol]}) client]> (clients ws) in
      match symbolSubscriptions ws !! symbol with
      | Some subs =>
          let subs' := subs ∖ {[clientId]} in
          if bool_decide (size subs' = 0%nat)
          then mkWs clients'
                    (delete symbol (symbolSubscriptions ws))
                    (Market.unsubscribeFromSymbol symbol (marketDataService ws))
          else mkWs clients'
                    (<[symbol := subs']> (symbolSubscriptions ws))
                    (marketDataService ws)
      | None => mkWs clients' (symbolSubscriptions ws) (marketDataService ws)
      end
  end.

(** The [forEach] of [handleClientDisconnection], for a given visiting
    order.  Each callback deletes only the element being visited, so the
    loop visits every member of the set as it was at the start. *)
Definition unsubscribeAll (clientId : string) (order : list string) (ws : WebSocketService)
    : WebSocketService :=
  foldl (λ acc symbol, unsubscribeClientFromSymbol clientId symbol acc) ws order.

(** [handleClientDisconnection(clientId)]. *)
Definition handleClientDisconnection (clientId : string) (ws : WebSocketService)
    : WebSocketService :=
  match clients ws !! clientId with
  | None => ws
  | Some client =>
      let ws' := unsubscribeAll clientId (elements (subscribedSymbols client)) ws in
      mkWs (delete clientId (clients ws')) (symbolSubscriptions ws') (marketDataService ws')
  end.

Definition popularSymbols : list string :=
  ["AAPL"; "GOOGL"; "MSFT"; "TSLA"; "BTC/USD"; "ETH/USD"].

(** The ['subscribe'] and ['unsubscribe'] socket handlers. *)
Definition onSubscribe (socketId : string) (symbols : list string) (ws : WebSocketService)
    : WebSocketService :=
  foldl (λ acc symbol, subscribeClientToSymbol socketId symbol acc) ws symbols.

Definition onUnsubscribe (socketId : string) (symbols : list string) (ws : WebSocketService)
    : WebSocketService :=
  foldl (λ acc symbol, unsubscribeClientFromSymbol socketId symbol acc) ws symbols.

(** The ['connection'] handler: register the client, then auto-subscribe it
    to [popularSymbols]. *)
Definition onConnection (socketId : string) (ws : WebSocketService) : WebSocketService :=
  onSubscribe socketId popularSymbols
    (mkWs (<[socketId := mkClient socketId None ∅ ∅]> (clients ws))
          (symbolSubscriptions ws) (marketDataService ws)).

(** Server start-up: after [startStreaming], the entry point subscribes the
    market service to its own list of popular symbols. *)
Definition serverPopularSymbols : list string :=
  ["AAPL"; "GOOGL"; "MSFT"; "TSLA"; "AMZN"; "META"; "NVDA"; "AMD";
   "BTC/USD"; "ETH/USD"; "SOL/USD"; "ADA/USD"; "MATIC/USD"].

Definition onServerStart (ws : WebSocketService) : WebSocketService :=
  mkWs (clients ws) (symbolSubscriptions ws)
       (foldl (λ m symbol, Market.subscribeToSymbol symbol m)
              (marketDataService ws) serverPopularSymbols).

(** Inbound events and the states they reach. *)
Inductive Event :=
| Connect (c : string)
| Subscribe (c : string) (symbols : list string)
| Unsubscribe (c : string) (symbols : list string)
| Disconnect (c : string)
| ServerStart.

Definition step (ws : WebSocketService) (e : Event) : WebSocketService :=
  match e with
  | Connect c => onConnection c ws
  | Subscribe c symbols => onSubscribe c symbols ws
  | Unsubscribe c symbols => onUnsubscribe c symbols ws
  | Disconnect c => handleClientDisconnection c ws
  | ServerStart => onServerStart ws
  end.

Definition run (events : list Event) : WebSocketService := foldl step initial events.

(** The registry's two directions agree for connected clients, and no
    symbol is mapped to an empty set. *)
Definition consistent (ws : WebSocketService) : Prop :=
  (∀ c client s, clients ws !! c = Some client →
     (c ∈ subscribers ws s ↔ s ∈ subscribedSymbols client)) ∧
  (∀ s subs, symbolSubscriptions ws !! s = Some subs → subs ≠ ∅).


End Registry.

(** ** Concrete data used by examples and counterexamples *)

Module Examples.

Definition quote (sym : string) (p : Q) (ts : Z) : MarketData :=
  {| symbol := sym; price := p; change := 0; changePercent := 0; volume := 1000;
     high := p; low := p; open := p; previousClose := p; marketCap := None;
     timestamp := ts |}.

(** Two results for AAPL: [older] was produced at 1000, [newer] at 2000. *)
Definition older : MarketData := quote "AAPL" 100 1000.
Definition newer : MarketData := quote "AAPL" 101 2000.

(** A cache whose only slot, [market:AAPL], expires at 61000. *)
Definition oneSlot : Cache.CacheService :=
  Cache.setMarketData "AAPL" older 1000 Cache.empty.


Definition midDraws : Market.Draws := Market.mkDraws (1#4) (1#2) 0 0 0.

(** An environment in which the provider rejects every request. *)
Definition failingEnv (clock : Z) (msg : string) : Market.FetchEnv :=
  Market.mkEnv clock (clock + 50) (Market.Rejected msg) (Market.Rejected msg)
               (Market.Rejected msg) midDraws.

(** An environment in which the provider answers: a trade at 150 for a
    stock, no bars. *)
Definition answeringEnv (clock : Z) : Market.FetchEnv :=
  Market.mkEnv clock (clock + 50)
    (Market.Resolved (Market.mkCryptoTrades (Some ∅)))
    (Market.Resolved (Market.mkSnapshot (Some 150%Q) None None))
    (Market.Resolved None) midDraws.

Definition freshWorld : Market.World := Market.mkWorld Market.initial [] [].

(** The service with its request budget used up in the window that began
    at 1000. *)
Definition exhaustedWorld : Market.World :=
  Market.mkWorld (Market.mkService Cache.empty ∅ [] 1000 300) [] [].


(** On-demand reads of a symbol that is never cached: one at [t0], 299
    spread over the second half of the minute that follows, and 300 more
    right after that minute has passed. *)
Definition t0 : Z := 1700000000000.

Definition onDemandAt (clock : Z) : Market.Action :=
  Market.OnDemand "COIN" clock (answeringEnv clock).

Definition burst : list Market.Action :=
  onDemandAt t0
  :: ((λ i, onDemandAt (t0 + 30000 + 100 * i)) <$> seqZ 0 299)
  ++ ((λ i, onDemandAt (t0 + 60001 + 100 * i)) <$> seqZ 0 300).


End Examples.

(** ** CacheService: the typed stores, the sweep and shutdown *)

Module CacheStores.
Import Cache.

Definition candlesKey (symbol timeframe : string) : string :=
  "candles:" +:+ symbol +:+ ":" +:+ timeframe.

Definition sessionKey (userId : string) : string := "session:" +:+ userId.

Definition portfolioKey (userId : string) : string := "portfolio:" +:+ userId.

(** [setCandlestickData] / [getCandlestickData]: 5 minutes. *)
Definition setCandlestickData (symbol timeframe : string) (data : Json) (now : Z)
    (c : CacheService) : CacheService :=
  let key := candlesKey symbol timeframe in
  mkCache (<[key := mkEntry data (now + 300000)]> (memoryCache c)).

Definition getCandlestickData (symbol timeframe : string) (now : Z) (c : CacheService)
    : option Json * CacheService :=
  let key := candlesKey symbol timeframe in
  match memoryCache c !! key with
  | Some cached =>
      if (now <? expiry cached)%Z
      then (Some (value cached), c)
      else (None, mkCache (delete key (memoryCache c)))
  | None => (None, c)
  end.

(** [setUserSession] / [getUserSession] / [deleteUserSession]: 1 hour. *)
Definition setUserSession (userId : string) (sessionData : Json) (now : Z)
    (c : CacheService) : CacheService :=
  let key := sessionKey userId in
  mkCache (<[key := mkEntry sessionData (now + 3600000)]> (memoryCache c)).

Definition getUserSession (userId : string) (now : Z) (c : CacheService)
    : option Json * CacheService :=
  let key := sessionKey userId in
  match memoryCache c !! key with
  | Some cached =>
      if (now <? expiry cached)%Z
      then (Some (value cached), c)
      else (None, mkCache (delete key (memoryCache c)))
  | None => (None, c)
  end.

Definition deleteUserSession (userId : string) (c : CacheService) : CacheService :=
  mkCache (delete (sessionKey userId) (memoryCache c)).

(** [setPortfolioCache] / [getPortfolioCache] / [invalidatePortfolioCache]:
    5 minutes. *)
Definition setPortfolioCache (userId : string) (portfolioData : Json) (now : Z)
    (c : CacheService) : CacheService :=
  let key := portfolioKey userId in
  mkCache (<[key := mkEntry portfolioData (now + 300000)]> (memoryCache c)).

Definition getPortfolioCache (userId : string) (now : Z) (c : CacheService)
    : option Json * CacheService :=
  let key := portfolioKey userId in
  match memoryCache c !! key with
  | Some cached =>
      if (now <? expiry cached)%Z
      then (Some (value cached), c)
      else (None, mkCache (delete key (memoryCache c)))
  | None => (None, c)
  end.

Definition invalidatePortfolioCache (userId : string) (c : CacheService) : CacheService :=
  mkCache (delete (portfolioKey userId) (memoryCache c)).

(** One firing of the interval of [startMemoryCacheCleanup]: every entry
    with [expiry <= now] is deleted.  (Deleting the entry being visited
    does not disturb the iteration of a [Map].) *)
Definition cleanup (now : Z) (c : CacheService) : CacheService :=
  mkCache (filter (λ kv, now < expiry kv.2) (memoryCache c)).

End CacheStores.


(** ** MarketDataService: charts, sample bars, stream messages *)

Module MarketMore.
Import Market.

(** *** Candlesticks *)

Record Candle := mkCandle {
  c_time : Z; c_open : Q; c_high : Q; c_low : Q; c_close : Q; c_volume : Q
}.

Record CandlestickData := mkCandlestickData {
  cd_symbol : string;
  cd_timeframe : string;
  cd_data : list Candle
}.

(** An element of [response.data.bars]: the bar and its time [t], already
    as epoch milliseconds ([new Date(bar.t).getTime()]). *)
Record TimedBar := mkTimedBar { tb_t : Z; tb_bar : Bar }.

Definition toCandle (b : TimedBar) : Candle :=
  mkCandle (tb_t b) (bar_o (tb_bar b)) (bar_h (tb_bar b)) (bar_l (tb_bar b))
           (bar_c (tb_bar b)) (bar_v (tb_bar b)).

(** A JavaScript number as the date arithmetic sees it. *)
Inductive Number :=
| NaN
| Infinite                 (* Infinity or -Infinity *)
| Finite (q : Q).

(** [getTimeframeMs(timeframe)]. *)
Definition getTimeframeMs (timeframe : string) : Z :=
  if String.eqb timeframe "1min" then 60 * 1000
  else if String.eqb timeframe "5min" then 5 * 60 * 1000
  else if String.eqb timeframe "15min" then 15 * 60 * 1000
  else if String.eqb timeframe "1hour" then 60 * 60 * 1000
  else if String.eqb timeframe "1day" then 24 * 60 * 60 * 1000
  else 60 * 1000.

(** The largest time value of a [Date], in ms either side of the epoch. *)
Definition maxTimeValue : Z := 8640000000000000.

(** The time value of [startDate = new Date(endDate.getTime() - limit *
    getTimeframeMs(timeframe))], [endDate] being the clock of the call;
    [None] is an invalid date: [limit] (read as a number, as the
    multiplication reads it) is not finite, or the result is out of range. *)
Definition startTimeValue (limit : Number) (timeframe : string) (clock : Z) : option Q :=
  match limit with
  | Finite q =>
      let tv := (inject_Z clock - q * inject_Z (getTimeframeMs timeframe))%Q in
      if Qle_bool (Qabs tv) (inject_Z maxTimeValue) then Some tv else None
  | _ => None
  end.

(** [fetchAlpacaCandlestickData(symbol, timeframe, limit)].  The request
    parameters are evaluated first: [startDate.toISOString()] throws a
    [RangeError] on an invalid date, before [axios.get] is called.  Otherwise
    one request goes to the stock bars endpoint (whatever the symbol), with
    no rate-limit check in front of it; [response.data.bars || []] is mapped
    to candles.  Any error gives [null].  The query parameters are not part
    of [Request]; the body of a reply that resolves is as the provider sends
    it, [bars] being an array of bars or missing. *)
Definition fetchAlpacaCandlestickData (symbol timeframe : string) (limit : Number)
    (clock : Z) (reply : Axios (option (list TimedBar))) : M (option CandlestickData) :=
  tryCatch
    (match startTimeValue limit timeframe clock with
     | None => throw "Invalid time value"
     | Some _ =>
         bars ← axios_get (StockBars symbol) clock reply;
         mret (Some (mkCandlestickData symbol timeframe (toCandle <$> default [] bars)))
     end)
    (λ _, mret None).

(** [getCandlestickData(symbol, timeframe, limit = 100)]; [limit] is the
    argument after the default has been applied. *)
Definition getCandlestickData (symbol timeframe : string) (limit : Number) (clock : Z)
    (reply : Axios (option (list TimedBar))) : M (option CandlestickData) :=
  tryCatch (fetchAlpacaCandlestickData symbol timeframe limit clock reply)
           (λ _, mret None).

(** *** Sample bars (the fallback of [getBars]) *)

Record SampleBar := mkSampleBar {
  sb_timestamp : Z; sb_open : Q; sb_high : Q; sb_low : Q; sb_close : Q; sb_volume : Q
}.

(** The five values of [Math.random()] drawn for one bar. *)
Record BarDraws := mkBarDraws { rOpen : Q; rClose : Q; rHi : Q; rLo : Q; rVol : Q }.

Definition sampleIntervalMs (timeframe : string) : Z :=
  if String.eqb timeframe "1Min" then 60 * 1000
  else if String.eqb timeframe "5Min" then 5 * 60 * 1000
  else if String.eqb timeframe "15Min" then 15 * 60 * 1000
  else if String.eqb timeframe "1Hour" then 60 * 60 * 1000
  else 24 * 60 * 60 * 1000.

Definition sampleKey (symbol : string) : string := "market_data_" +:+ symbol.

Definition sampleDefault (symbol : string) : Q :=
  if Js.includes "BTC" symbol then 100000
  else if Js.includes "ETH" symbol then 4000
  else 150.

(** [cachedData?.price || (default)]; a [price] that is not a number is
    read as missing. *)
Definition sampleBasePrice (symbol : string) (cachedData : option Json) : Q :=
  match cachedData with
  | Some (JObj ps) => orElse (num_prop "price" ps) (sampleDefault symbol)
  | _ => sampleDefault symbol
  end.

(** The body of the loop for index [i]; [sinTenth i] stands for
    [Math.sin(i * 0.1)]. *)
Definition sampleBar (now intervalMs : Z) (basePrice : Q)
    (sinTenth : Z → Q) (draws : Z → BarDraws) (i : Z) : SampleBar :=
  let volatility := 0.02%Q in
  let trend := (sinTenth i * 0.005)%Q in
  let open := (basePrice * (1 + (rOpen (draws i) - 0.5) * volatility + trend))%Q in
  let close := (open * (1 + (rClose (draws i) - 0.5) * volatility))%Q in
  let high := (Qmax open close * (1 + rHi (draws i) * volatility * 0.5))%Q in
  let low := (Qmin open close * (1 - rLo (draws i) * volatility * 0.5))%Q in
  mkSampleBar (now - i * intervalMs) open high low close
              (inject_Z (Qfloor (rVol (draws i) * 1000000)) + 100000)%Q.

(** [for (let i = limit - 1; i >= 0; i--) bars.push(...)], for [n] bars
    still to push. *)
Fixpoint sampleLoop (n : nat) (now intervalMs : Z) (basePrice : Q)
    (sinTenth : Z → Q) (draws : Z → BarDraws) : list SampleBar :=
  match n with
  | O => []
  | S m => sampleBar now intervalMs basePrice sinTenth draws (Z.of_nat m)
           :: sampleLoop m now intervalMs basePrice sinTenth draws
  end.

(** [generateSampleBars(symbol, timeframe, limit)]. *)
Definition generateSampleBars (symbol timeframe : string) (limit : Z) (now : Z)
    (sinTenth : Z → Q) (draws : Z → BarDraws) : M (list SampleBar) :=
  basePrice ← tryCatch
    (cachedData ← liftCache (Cache.get (sampleKey symbol) now);
     mret (sampleBasePrice symbol cachedData))
    (λ _, mret (sampleDefault symbol));
  mret (sampleLoop (Z.to_nat limit) now (sampleIntervalMs timeframe) basePrice
                   sinTenth draws).

(** *** Messages of the provider streams *)

(** A trade message is as the provider sends it: [S] a string, [p] and [s]
    finite numbers and [t] a valid time. *)
Inductive StreamMessage :=
| Authenticated                                   (* T = 'success', msg = 'authenticated' *)
| TradeMessage (sym : string) (p sz : Q) (t : Z)  (* T = 't': S, p, s, t *)
| OtherMessage.

(** The record built from a trade message. *)
Definition tradeQuote (sym : string) (p sz : Q) (t : Z) : MarketData :=
  {| symbol := sym; price := p; change := 0; changePercent := 0; volume := sz;
     high := 0; low := 0; open := 0; previousClose := 0; marketCap := None;
     timestamp := t |}.

(** The two provider sockets, and what the service sends on them after the
    ['auth'] frame of the ['open'] handler: subscribe frames. *)
Inductive StreamSocket := StockWs | CryptoWs.

Inductive ProviderFrame :=
| SubscribeTrades (socket : StreamSocket) (symbols : list string).
    (* { action: 'subscribe', trades: symbols } *)

Definition stockStreamSymbols : list string :=
  ["AAPL"; "GOOGL"; "MSFT"; "TSLA"; "AMZN"; "META"; "NVDA"; "AMD";
   "NFLX"; "DIS"; "PYPL"; "ADBE"; "CRM"; "ORCL"; "INTC"; "IBM";
   "JPM"; "BAC"; "GS"; "MS"; "WFC"; "V"; "MA";
   "SPY"; "QQQ"; "IWM"; "VTI"; "VOO"; "VEA"; "VWO"].

Definition cryptoStreamSymbols : list string :=
  ["BTC/USD"; "ETH/USD"; "LTC/USD"; "BCH/USD"; "LINK/USD"; "UNI/USD";
   "AAVE/USD"; "ALGO/USD"; "DOT/USD"; "DOGE/USD"].

(** The callback of [messages.forEach] in [handleAlpacaStockMessage] and
    [handleAlpacaCryptoMessage]: the two differ in the socket and in the
    symbol list of the subscribe frame sent on authentication.  The result
    is what is sent to the provider (the handler runs on a message of that
    socket, which is open).  Each trade is handed to [processMarketData]
    through [setImmediate], in message order; every message is an object,
    as the provider sends it. *)
Definition handleStreamMessage (socket : StreamSocket) (symbols : list string)
    (clock : Z) (message : StreamMessage) : M (list ProviderFrame) :=
  match message with
  | Authenticated => mret [SubscribeTrades socket symbols]
  | TradeMessage sym p sz t => processMarketData (tradeQuote sym p sz t) clock;; mret []
  | OtherMessage => mret []
  end.

Definition handleAlpacaStockMessage (messages : list StreamMessage) (clock : Z)
    : M (list ProviderFrame) :=
  frames ← forEachM (handleStreamMessage StockWs stockStreamSymbols clock) messages;
  mret (concat frames).

Definition handleAlpacaCryptoMessage (messages : list StreamMessage) (clock : Z)
    : M (list ProviderFrame) :=
  frames ← forEachM (handleStreamMessage CryptoWs cryptoStreamSymbols clock) messages;
  mret (concat frames).

(** The number of ['authenticated'] messages of a frame. *)
Definition isAuthenticated (message : StreamMessage) : bool :=
  match message with Authenticated => true | _ => false end.

Definition authenticatedIn (messages : list StreamMessage) : nat :=
  length (filter (λ m, isAuthenticated m = true) messages).

(** *** Auxiliary notions for the proofs *)

(** The fetch requests (latest trade, snapshot) of a piece of the request
    log, in the order they were sent. *)
Definition fetchesOf (log : list Sent) : list Request :=
  filter (λ r, isFetch r = true) (request <$> log).


(** [m] returns (it never throws), and the fetch requests it sends are,
    in order, some of [allowed]. *)
Definition sendsWithin {A} (m : M A) (allowed : list Request) : Prop :=
  ∀ w, ∃ a extra,
    (m w).1 = Returned a ∧
    sent (m w).2 = (sent w ++ extra)%list ∧
    fetchesOf extra `sublist_of` allowed.

(** The fetch requests a symbol can cause: none for a forex pair. *)
Definition requestsFor (symbol : string) : list Request :=
  if isForexSymbol symbol then [] else [fetchRequest symbol].

(** The symbols of a poll's list that its filter loop keeps, read off the
    cache [c] the poll starts from. *)
Definition staleIn (c : Cache.CacheService) (clock cacheThreshold : Z)
    (symbols : list string) : list string :=
  filter (λ s, needsUpdate clock cacheThreshold (Cache.getMarketData s clock c).1 = true)
         symbols.


(** [Math.random()] returns a number of the unit interval. *)
Definition inUnit (r : Q) : Prop := (0 <= r)%Q ∧ (r <= 1)%Q.

Definition unitDraws (d : Draws) : Prop :=
  inUnit (rBase d) ∧ inUnit (rChange d) ∧ inUnit (rVolume d) ∧
  inUnit (rHigh d) ∧ inUnit (rLow d).


Definition unitBarDraws (b : BarDraws) : Prop :=
  inUnit (rOpen b) ∧ inUnit (rClose b) ∧ inUnit (rHi b) ∧ inUnit (rLo b) ∧ inUnit (rVol b).


(** The two kinds of key the service writes to its cache. *)
Definition serviceKey (k : string) : Prop :=
  (∃ s, k = Cache.marketKey s) ∨ (∃ s, k = simulatedKey s).

Definition keysOk (c : Cache.CacheService) : Prop :=
  ∀ k, is_Some (Cache.memoryCache c !! k) → serviceKey k.

Definition keysInv (w : World) : Prop := keysOk (cacheService (svc w)).


(** The quote a stream message carries, if it is a trade. *)
Definition tradeOf (message : StreamMessage) : option MarketData :=
  match message with
  | TradeMessage sym p sz t => Some (tradeQuote sym p sz t)
  | _ => None
  end.


(** Room for [n] more fetches in the current counting window. *)
Definition budgetLeft (n : Z) (w : World) : Prop :=
  0 ≤ requestCount (svc w) ∧ requestCount (svc w) + n ≤ maxRequestsPerWindow.

(** Every symbol of [l] has a quote slot. *)
Definition hasQuotes (l : list string) (w : World) : Prop :=
  ∀ s, s ∈ l → is_Some (Cache.memoryCache (cacheService (svc w)) !! Cache.marketKey s).


End MarketMore.

(** ** WebSocketService: broadcast and statistics *)

Module RegistryMore.
Import Registry.

(** [broadcastPriceUpdate(data)]: the [priceUpdate] events emitted, one per
    subscriber of [data.symbol] whose socket is in [io.sockets.sockets]
    ([sockets]).  The subscribers are visited in the order of [elements]. *)
Definition broadcastPriceUpdate (data : MarketData) (sockets : gset string)
    (ws : WebSocketService) : list (string * MarketData) :=
  (λ clientId, (clientId, data))
    <$> filter (λ clientId, clientId ∈ sockets) (elements (subscribers ws (symbol data))).

(** [setupMarketDataHandlers]: the registry's price-update callback is
    [broadcastPriceUpdate]; these are the events emitted for the quotes
    [ds] the market service passes to its callbacks, in order. *)
Definition onPriceUpdates (ds : list MarketData) (sockets : gset string)
    (ws : WebSocketService) : list (string * MarketData) :=
  ds ≫= λ d, broadcastPriceUpdate d sockets ws.

(** [getSubscriptionStats()]: the own properties of the object [stats]
    after [stats[symbol] = subscribers.size] for every entry.  [stats] is a
    plain object: assigning a number to ['__proto__'] goes to the setter of
    [Object.prototype], which ignores it, so no property is stored for that
    symbol; every other key becomes an own property. *)
Definition getSubscriptionStats (ws : WebSocketService) : gmap string nat :=
  delete "__proto__" (size <$> symbolSubscriptions ws).

(** [getConnectedClientsCount()]. *)
Definition getConnectedClientsCount (ws : WebSocketService) : nat := size (clients ws).




(** The clients a [priceUpdate] event is emitted to. *)
Definition recipients (data : MarketData) (sockets : gset string) (ws : WebSocketService)
    : list string :=
  (broadcastPriceUpdate data sockets ws).*1.

End RegistryMore.

(** ** The market-data routes *)

Module Routes.
Import Market.

Inductive Response :=
| Ok (data : MarketData)         (* 200 *)
| NotFound                       (* 404 *)
| ServerError.                   (* 500 *)

(** [GET /quote/:symbol]. *)
Definition quoteRoute (symbol : string) (clock : Z) (env : FetchEnv) : M Response :=
  tryCatch
    (marketData ← getMarketData symbol clock env;
     match marketData with
     | None => mret NotFound
     | Some d => mret (Ok d)
     end)
    (λ _, mret ServerError).

(** [GET /status]: [isMarketOpen] from the Eastern-time [getDay()] and
    [getHours()], both integers. *)
Definition isMarketOpen (day hour : Z) : bool :=
  ((1 <=? day) && (day <=? 5))
  && (Qle_bool 9.5 (inject_Z hour) && (hour <? 16)).

End Routes.


(** * Properties *)

(** ** The cache *)

Module CacheFacts.
Import Cache.

Lemma parse_stringify_MarketData (d : MarketData) :
  parse_MarketData (stringify_MarketData d) = Some d.
Proof. destruct d as [s p c cp v h l o pc [m|] ts]; reflexivity. Qed.

Lemma marketKey_inj (a b : string) : marketKey a = marketKey b → a = b.
Proof. unfold marketKey. intros H. by simplify_eq/=. Qed.

Lemma getMarketData_missing (sym : string) (t : Z) (c : CacheService) :
  memoryCache c !! marketKey sym = None → getMarketData sym t c = (None, c).
Proof. intros H. unfold getMarketData. cbv zeta. by rewrite H. Qed.

Lemma get_missing (key : string) (t : Z) (c : CacheService) :
  memoryCache c !! key = None → get key t c = (None, c).
Proof. intros H. unfold get. by rewrite H. Qed.

Lemma getMarketData_expired (sym : string) (t : Z) (c : CacheService) (e : CacheEntry) :
  memoryCache c !! marketKey sym = Some e → expiry e ≤ t →
  getMarketData sym t c = (None, mkCache (delete (marketKey sym) (memoryCache c))).
Proof.
  intros H Hle. unfold getMarketData. cbv zeta. rewrite H.
  destruct (Z.ltb_spec t (expiry e)); [lia | done].
Qed.

Lemma get_expired (key : string) (t : Z) (c : CacheService) (e : CacheEntry) :
  memoryCache c !! key = Some e → expiry e ≤ t →
  get key t c = (None, mkCache (delete key (memoryCache c))).
Proof.
  intros H Hle. unfold get. rewrite H.
  destruct (Z.ltb_spec t (expiry e)); [lia | done].
Qed.

Lemma getMarketData_live (sym : string) (t : Z) (c : CacheService) (e : CacheEntry) :
  memoryCache c !! marketKey sym = Some e → t < expiry e →
  getMarketData sym t c = (parse_MarketData (value e), c).
Proof.
  intros H Hlt. unfold getMarketData. cbv zeta. rewrite H.
  destruct (Z.ltb_spec t (expiry e)); [done | lia].
Qed.

Lemma lookup_setMarketData (sym : string) (d : MarketData) (now : Z) (c : CacheService) (k : string) :
  memoryCache (setMarketData sym d now c) !! k =
  if decide (marketKey sym = k)
  then Some (mkEntry (stringify_MarketData d) (now + 60000))
  else memoryCache c !! k.
Proof. unfold setMarketData. cbn. apply lookup_insert. Qed.

Lemma getMarketData_setMarketData (sym : string) (d : MarketData) (now t : Z) (c : CacheService) :
  t < now + 60000 →
  (getMarketData sym t (setMarketData sym d now c)).1 = Some d.
Proof.
  intros Ht.
  rewrite (getMarketData_live sym t _ (mkEntry (stringify_MarketData d) (now + 60000))).
  - cbn. apply parse_stringify_MarketData.
  - rewrite lookup_setMarketData. by rewrite decide_True.
  - done.
Qed.

(** C7. A [get] (and a [getMarketData]) of a key whose entry expired at or
    before [t] returns what it returns for a key that was never set, namely
    [null], and deletes the slot from [memoryCache], touching no other key. *)
Theorem expired_get_is_missing_get
    (key : string) (t : Z) (c c0 : CacheService) (e : CacheEntry) :
  memoryCache c !! key = Some e →
  expiry e ≤ t →
  memoryCache c0 !! key = None →
  (get key t c).1 = (get key t c0).1 ∧
  (get key t c).1 = None ∧
  memoryCache (get key t c).2 = delete key (memoryCache c) ∧
  memoryCache (get key t c).2 !! key = None ∧
  ∀ sym, key = marketKey sym →
    (getMarketData sym t c).1 = (getMarketData sym t c0).1 ∧
    (getMarketData sym t c).1 = None ∧
    memoryCache (getMarketData sym t c).2 = delete key (memoryCache c).
Proof.
  intros He Hle H0.
  rewrite (get_expired key t c e He Hle), (get_missing key t c0 H0). cbn.
  repeat split; try apply lookup_delete_eq; subst key.
  - by rewrite (getMarketData_expired sym t c e He Hle), (getMarketData_missing sym t c0 H0).
  - by rewrite (getMarketData_expired sym t c e He Hle).
  - by rewrite (getMarketData_expired sym t c e He Hle).
Qed.

Lemma expired_get_is_missing_get_witness :
  (get "market:AAPL" 61000 Examples.oneSlot).1 = (get "market:AAPL" 61000 empty).1 ∧
  (getMarketData "AAPL" 61000 Examples.oneSlot).1 = None.
Proof.
  pose proof (expired_get_is_missing_get "market:AAPL" 61000 Examples.oneSlot empty
                (mkEntry (stringify_MarketData Examples.older) 61000)) as H.
  destruct H as (H1 & _ & _ & _ & H5).
  - reflexivity.
  - cbn. lia.
  - reflexivity.
  - split; [exact H1 |]. destruct (H5 "AAPL" eq_refl) as (_ & H6 & _). exact H6.
Defined.


(** *** Reads, seen through [liveOnly] *)

Lemma getMarketData_fst (sym : string) (t : Z) (c : CacheService) :
  (getMarketData sym t c).1 =
  liveOnly t (memoryCache c !! marketKey sym) ≫= λ e, parse_MarketData (value e).
Proof.
  unfold getMarketData, liveOnly. cbv zeta.
  destruct (memoryCache c !! marketKey sym) as [e|]; [| done].
  by destruct (t <? expiry e).
Qed.

Lemma getMarketData_snd_lookup (sym : string) (t : Z) (c : CacheService) (k : string) :
  memoryCache (getMarketData sym t c).2 !! k =
  if decide (k = marketKey sym) then liveOnly t (memoryCache c !! k) else memoryCache c !! k.
Proof.
  unfold getMarketData, liveOnly. cbv zeta.
  destruct (memoryCache c !! marketKey sym) as [e|] eqn:He.
  - destruct (t <? expiry e) eqn:Hlive; cbn.
    + case_decide as Hk; [subst k; by rewrite He, Hlive | done].
    + case_decide as Hk.
      * subst k. by rewrite lookup_delete_eq, He, Hlive.
      * by rewrite lookup_delete_ne.
  - cbn. case_decide as Hk; [subst k; by rewrite He | done].
Qed.

Lemma liveOnly_idemp (t : Z) (o : option CacheEntry) :
  liveOnly t (liveOnly t o) = liveOnly t o.
Proof.
  destruct o as [e|]; [| done]. cbn.
  destruct (t <? expiry e) eqn:H; [cbn; by rewrite H | done].
Qed.

Lemma get_snd_lookup (key : string) (t : Z) (c : CacheService) (k : string) :
  memoryCache (get key t c).2 !! k =
  if decide (k = key) then liveOnly t (memoryCache c !! k) else memoryCache c !! k.
Proof.
  unfold get, liveOnly.
  destruct (memoryCache c !! key) as [e|] eqn:He.
  - destruct (t <? expiry e) eqn:Hlive; cbn.
    + case_decide as Hk; [subst k; by rewrite He, Hlive | done].
    + case_decide as Hk.
      * subst k. by rewrite lookup_delete_eq, He, Hlive.
      * by rewrite lookup_delete_ne.
  - cbn. case_decide as Hk; [subst k; by rewrite He | done].
Qed.

Lemma liveOnly_Some (t : Z) (o : option CacheEntry) (e : CacheEntry) :
  liveOnly t o = Some e → o = Some e.
Proof.
  destruct o as [e'|]; [| done]. cbn. by destruct (t <? expiry e').
Qed.

(** *** [market_wf] is kept by every cache operation the service performs *)

Lemma market_wf_empty : market_wf empty.
Proof. intros s e H. unfold empty in H. cbn in H. by rewrite lookup_empty in H. Qed.

Lemma market_wf_getMarketData (sym : string) (t : Z) (c : CacheService) :
  market_wf c → market_wf (getMarketData sym t c).2.
Proof.
  intros Hwf s e. rewrite getMarketData_snd_lookup.
  case_decide; [intros He%liveOnly_Some | intros He]; by apply Hwf.
Qed.

Lemma market_wf_get (key : string) (t : Z) (c : CacheService) :
  market_wf c → market_wf (get key t c).2.
Proof.
  intros Hwf s e. rewrite get_snd_lookup.
  case_decide; [intros He%liveOnly_Some | intros He]; by apply Hwf.
Qed.

Lemma market_wf_setMarketData (d : MarketData) (t : Z) (c : CacheService) :
  market_wf c → market_wf (setMarketData (symbol d) d t c).
Proof.
  intros Hwf s e. rewrite lookup_setMarketData. case_decide as Hk.
  - intros [= <-]. cbn. exists d. split; [apply parse_stringify_MarketData |].
    by apply marketKey_inj.
  - apply Hwf.
Qed.

Lemma market_wf_set (key : string) (v : Json) (ttl t : Z) (c : CacheService) :
  (∀ s, key ≠ marketKey s) → market_wf c → market_wf (set key v ttl t c).
Proof.
  intros Hkey Hwf s e. unfold set. cbn. rewrite lookup_insert_ne by apply Hkey. apply Hwf.
Qed.

End CacheFacts.

(** ** The market-data service *)

Module MarketFacts.
Import Market.

Ltac unfold_M :=
  unfold mbind, M_bind, mret, M_ret, bind, ret, throw, tryCatch, getService,
         modifyService, liftCache_, liftCache, notifyCallbacks, axios_get in *.

(** The price test of [generateSimulatedData] never succeeds: a Promise has
    no [price] property. *)
Lemma promise_has_no_price (settled : option Json) :
  Js.truthy (Js.PromiseOf settled) && Js.typeof_object (Js.PromiseOf settled)
    && Js.has_property "price" (Js.PromiseOf settled) = false.
Proof. reflexivity. Qed.

(** Hence the generator always starts from the asset-type default and only
    writes the cache. *)
Lemma generateSimulatedData_eq (symbol : string) (clock : Z) (d : Draws) (w : World) :
  generateSimulatedData symbol clock d w =
  let q := simulatedQuote symbol (defaultBasePrice symbol (rBase d)) clock d in
  (Returned q,
   mkWorld
     (with_cache
        (Cache.set (simulatedKey symbol)
           (JObj [("price", JNum (price q)); ("timestamp", JNum (inject_Z clock))])
           300 clock
           (Cache.get (simulatedKey symbol) clock (cacheService (svc w))).2)
        (svc w))
     (sent w) (notified w)).
Proof.
  unfold generateSimulatedData. unfold_M.
  destruct (Cache.get (simulatedKey symbol) clock (cacheService (svc w))) as [settled c'].
  rewrite promise_has_no_price. reflexivity.
Qed.

Lemma getMinuteComparisonPrice_eq (symbol : string) (env : FetchEnv) (w : World) :
  ∃ r, getMinuteComparisonPrice symbol env w =
       (Returned r,
        mkWorld (svc w)
          (sent w ++ [mkSent (if isCrypto symbol then CryptoBars symbol else StockBars symbol)
                             (now env) (lastRequestTime (svc w))])
          (notified w)).
Proof.
  unfold getMinuteComparisonPrice. unfold_M.
  destruct (barsReply env) as [[bs|]|msg]; cbn; eauto.
Qed.

Ltac by_simulation :=
  try match goal with |- context [if ?b then _ else _] => destruct b end;
  rewrite generateSimulatedData_eq; cbn;
  eexists _, _, [];
  (split; [reflexivity | split; [constructor | split; [reflexivity | right; eauto]]]).

(** The guarded part of [fetchAlpacaData] (the [try] with its [catch]):
    it returns a quote for the symbol, never [null] and never an exception;
    it sends the fetch request and at most the bars lookup; it changes only
    the cache, and that only through the generator. *)
Lemma guarded_fetch_effect (symbol : string) (env : FetchEnv) (w : World) :
  ∃ q c' extra,
    tryCatch (if isCrypto symbol then fetchCrypto symbol env else fetchStock symbol env)
             (fetchCatch symbol env) w =
    (Returned (Some q),
     mkWorld (with_cache c' (svc w))
             (sent w ++ mkSent (fetchRequest symbol) (now env) (lastRequestTime (svc w)) :: extra)
             (notified w)) ∧
    Forall (λ e, isFetch (request e) = false) extra ∧
    MD.symbol q = symbol ∧
    fetchCacheStep symbol (cacheService (svc w)) c'.
Proof.
  destruct w as [[c subs queue last cnt] snt ntf].
  unfold fetchRequest, isCrypto. destruct (Js.includes "/" symbol) eqn:Hc.
  - unfold fetchCrypto, fetchCatch. unfold_M. cbn.
    destruct (cryptoReply env) as [[[t|]]|msg]; cbn.
    + destruct (t !! symbol) as [tradeData|]; cbn.
      * destruct (getMinuteComparisonPrice_eq symbol env
                    (mkWorld (mkService c subs queue last cnt)
                       (snt ++ [mkSent (LatestCryptoTrades symbol) (now env) last]) ntf))
          as [r Hr].
        rewrite Hr. cbn. rewrite <- app_assoc. cbn.
        eexists _, c, [_]. split; [reflexivity |].
        unfold isCrypto. rewrite Hc.
        split; [repeat constructor | split; [reflexivity | by left]].
      * by_simulation.
    + by_simulation.
    + by_simulation.
  - unfold fetchStock, fetchCatch. unfold_M. cbn.
    destruct (stockReply env) as [data|msg]; cbn.
    + destruct (getMinuteComparisonPrice_eq symbol env
                  (mkWorld (mkService c subs queue last cnt)
                     (snt ++ [mkSent (StockSnapshot symbol) (now env) last]) ntf))
        as [r Hr].
      rewrite Hr. cbn. rewrite <- app_assoc. cbn.
      eexists _, c, [_]. split; [reflexivity |].
      unfold isCrypto. rewrite Hc.
      split; [repeat constructor | split; [reflexivity | by left]].
    + by_simulation.
Qed.

Lemma fetchAlpacaData_forex (symbol : string) (env : FetchEnv) (w : World) :
  isForexSymbol symbol = true →
  ∃ q, generateSimulatedData symbol (now env) (draws env) w
         = (Returned q, (fetchAlpacaData symbol env w).2) ∧
       (fetchAlpacaData symbol env w).1 = Returned (Some q).
Proof.
  intros Hfx. unfold fetchAlpacaData. rewrite Hfx. unfold_M.
  rewrite generateSimulatedData_eq. cbn. eauto.
Qed.

Lemma fetchAlpacaData_exhausted (symbol : string) (env : FetchEnv) (w : World) :
  isForexSymbol symbol = false →
  maxRequestsPerWindow ≤ requestCount (resetIfWindowPassed (now env) (svc w)) →
  fetchAlpacaData symbol env w =
  (Returned None, mkWorld (resetIfWindowPassed (now env) (svc w)) (sent w) (notified w)).
Proof.
  intros Hfx Hcnt. unfold fetchAlpacaData. rewrite Hfx. unfold_M. cbn.
  destruct (Z.leb_spec maxRequestsPerWindow
              (requestCount (resetIfWindowPassed (now env) (svc w)))); [done | lia].
Qed.

Lemma fetchAlpacaData_admitted_call (symbol : string) (env : FetchEnv) (w : World) :
  isForexSymbol symbol = false →
  requestCount (resetIfWindowPassed (now env) (svc w)) < maxRequestsPerWindow →
  ∃ q c' extra,
    fetchAlpacaData symbol env w =
    (Returned (Some q),
     mkWorld (with_cache c' (countRequest (resetIfWindowPassed (now env) (svc w))))
             (sent w ++
                mkSent (fetchRequest symbol) (now env)
                       (lastRequestTime (resetIfWindowPassed (now env) (svc w))) :: extra)
             (notified w)) ∧
    Forall (λ e, isFetch (request e) = false) extra ∧
    MD.symbol q = symbol ∧
    fetchCacheStep symbol (cacheService (svc w)) c'.
Proof.
  intros Hfx Hcnt. unfold fetchAlpacaData. rewrite Hfx.
  unfold mbind, M_bind, bind, getService, modifyService.
  cbn [svc sent notified fst snd].
  destruct (Z.leb_spec maxRequestsPerWindow
              (requestCount (resetIfWindowPassed (now env) (svc w)))); [lia |].
  cbn [svc sent notified].
  destruct (guarded_fetch_effect symbol env
              (mkWorld (countRequest (resetIfWindowPassed (now env) (svc w)))
                       (sent w) (notified w)))
    as (q & c' & extra & Heq & Hextra & Hsym & Hstep).
  rewrite Heq. exists q, c', extra. split; [reflexivity |].
  split; [exact Hextra |]. split; [exact Hsym |].
  revert Hstep. unfold resetIfWindowPassed.
  by destruct (rateLimitWindow <? now env - lastRequestTime (svc w)).
Qed.






Lemma fetchAlpacaData_returns (symbol : string) (env : FetchEnv) (w : World) :
  ∃ r, (fetchAlpacaData symbol env w).1 = Returned r.
Proof.
  destruct (isForexSymbol symbol) eqn:Hfx.
  - destruct (fetchAlpacaData_forex symbol env w Hfx) as (q & _ & Hq). eauto.
  - destruct (Z.lt_ge_cases (requestCount (resetIfWindowPassed (now env) (svc w)))
                maxRequestsPerWindow) as [Hlt | Hge].
    + destruct (fetchAlpacaData_admitted_call symbol env w Hfx Hlt) as (q & c' & ex & Heq & _).
      rewrite Heq. eauto.
    + rewrite (fetchAlpacaData_exhausted symbol env w Hfx Hge). eauto.
Qed.

(** C10. A fetch for a symbol of the forex-pair list returns the
    generator's simulated quote at once: no upstream request is sent, and
    the rate-limit counter and window start are left as they were. *)
Theorem forex_fetch_uses_no_budget (symbol : string) (env : FetchEnv) (w : World) :
  symbol ∈ forexPairs →
  ∃ q,
    (fetchAlpacaData symbol env w).1 = Returned (Some q) ∧
    generateSimulatedData symbol (now env) (draws env) w
      = (Returned q, (fetchAlpacaData symbol env w).2) ∧
    sent (fetchAlpacaData symbol env w).2 = sent w ∧
    requestCount (svc (fetchAlpacaData symbol env w).2) = requestCount (svc w) ∧
    lastRequestTime (svc (fetchAlpacaData symbol env w).2) = lastRequestTime (svc w).
Proof.
  intros Hin.
  assert (Hfx : isForexSymbol symbol = true) by (by apply bool_decide_eq_true).
  destruct (fetchAlpacaData_forex symbol env w Hfx) as (q & Hgen & Hres).
  exists q. split; [exact Hres |]. split; [exact Hgen |].
  rewrite generateSimulatedData_eq in Hgen. cbv zeta in Hgen.
  injection Hgen as _ Hw. rewrite <- Hw. cbn. done.
Qed.

Lemma forex_fetch_uses_no_budget_witness :
  ∃ q,
    (fetchAlpacaData "EUR/USD" (Examples.failingEnv 2000 "Network Error")
                     Examples.exhaustedWorld).1 = Returned (Some q) ∧
    requestCount (svc (fetchAlpacaData "EUR/USD" (Examples.failingEnv 2000 "Network Error")
                                       Examples.exhaustedWorld).2) = 300.
Proof.
  destruct (forex_fetch_uses_no_budget "EUR/USD" (Examples.failingEnv 2000 "Network Error")
              Examples.exhaustedWorld) as (q & H1 & _ & _ & H4 & _).
  - unfold forexPairs. apply list_elem_of_In. cbn. tauto.
  - exists q. split; [exact H1 | exact H4].
Defined.




(** Simulated base prices and live quotes live under different keys. *)
Lemma simulatedKey_not_marketKey (a b : string) : simulatedKey a ≠ Cache.marketKey b.
Proof. unfold simulatedKey, Cache.marketKey. intros H. by simplify_eq/=. Qed.

(** The random step itself stays within 2 % of the base price it is applied
    to, for a value of [Math.random()] in [[0, 1]]. *)
Lemma simulated_step_within_two_percent
    (symbol : string) (base : Q) (clock : Z) (d : Draws) :
  (0 <= base)%Q → (0 <= rChange d)%Q → (rChange d <= 1)%Q →
  (base * 0.98 <= price (simulatedQuote symbol base clock d))%Q ∧
  (price (simulatedQuote symbol base clock d) <= base * 1.02)%Q.
Proof.
  intros Hb H0 H1. unfold simulatedQuote. cbn [price].
  set (r := rChange d) in *.
  assert (Ha : (0 <= r * base)%Q) by (apply Qmult_le_0_compat; assumption).
  assert (Hc : (r * base <= 1 * base)%Q) by (apply Qmult_le_compat_r; assumption).
  assert (He : (base + base * ((r - 0.5) * 4 / 100) == base * 0.98 + (r * base) * 0.04)%Q)
    by field.
  rewrite He. split; lra.
Qed.

(** C4 (defect in the code). Two successive simulated quotes for AAPL.  The
    first one stores the price 100 under [simulated_AAPL]; the entry is
    still live when the second call is made.  The second call does not read
    it: it draws a new base from the default range (here 200) and returns a
    price of 200, which is not within 2 % of the cached 100. *)
Theorem simulated_price_not_seeded_from_cache :
  let first := generateSimulatedData "AAPL" 1000 (mkDraws (1#4) (1#2) 0 0 0)
                 Examples.freshWorld in
  let second := generateSimulatedData "AAPL" 2000 (mkDraws (3#4) (1#2) 0 0 0) first.2 in
  ∃ p1 q2,
    (Cache.get "simulated_AAPL" 2000 (cacheService (svc first.2))).1
      = Some (JObj [("price", JNum p1); ("timestamp", JNum (inject_Z 1000))]) ∧
    (p1 == 100)%Q ∧
    second.1 = Returned q2 ∧
    (price q2 == 200)%Q ∧
    ¬ (98 <= price q2 ∧ price q2 <= 102)%Q.
Proof.
  cbv zeta. rewrite !generateSimulatedData_eq. cbv zeta.
  eexists _, _. split; [reflexivity |]. split; [reflexivity |].
  split; [reflexivity |]. split; [reflexivity |].
  intros [_ H]. vm_compute in H. apply H. reflexivity.
Qed.

Lemma processMarketData_eq (d : MarketData) (clock : Z) (w : World) :
  processMarketData d clock w =
  (Returned tt,
   mkWorld (with_cache (Cache.setMarketData (symbol d) d clock (cacheService (svc w))) (svc w))
           (sent w) (notified w ++ [d])).
Proof. reflexivity. Qed.

(** C1 (as the code has it). Cache writes are unconditional, so the cache
    holds the result that was written last, whatever the timestamps: of two
    results with timestamps T1 < T2, a read after both writes returns T2's
    data when T2 is written last and T1's data when T1 is written last.
    [processMarketData] writes through the same unconditional
    [setMarketData]. *)
Theorem cache_keeps_last_write
    (c : Cache.CacheService) (sym : string) (d1 d2 : MarketData) (nowA nowB nowR : Z) :
  timestamp d1 < timestamp d2 →
  nowR < nowB + 60000 →
  (Cache.getMarketData sym nowR
     (Cache.setMarketData sym d2 nowB (Cache.setMarketData sym d1 nowA c))).1 = Some d2 ∧
  (Cache.getMarketData sym nowR
     (Cache.setMarketData sym d1 nowB (Cache.setMarketData sym d2 nowA c))).1 = Some d1 ∧
  ∀ w d clock,
    cacheService (svc (processMarketData d clock w).2)
    = Cache.setMarketData (symbol d) d clock (cacheService (svc w)).
Proof.
  intros _ Hr. split; [| split].
  - by apply CacheFacts.getMarketData_setMarketData.
  - by apply CacheFacts.getMarketData_setMarketData.
  - intros w d clock. rewrite processMarketData_eq. reflexivity.
Qed.

Lemma cache_keeps_last_write_witness :
  (Cache.getMarketData "AAPL" 3002
     (Cache.setMarketData "AAPL" Examples.newer 3001
        (Cache.setMarketData "AAPL" Examples.older 3000 Cache.empty))).1
    = Some Examples.newer ∧
  (Cache.getMarketData "AAPL" 3002
     (Cache.setMarketData "AAPL" Examples.older 3001
        (Cache.setMarketData "AAPL" Examples.newer 3000 Cache.empty))).1
    = Some Examples.older.
Proof.
  destruct (cache_keeps_last_write Cache.empty "AAPL" Examples.older Examples.newer
              3000 3001 3002) as (H1 & H2 & _).
  - cbn. lia.
  - lia.
  - split; [exact H1 | exact H2].
Defined.

(** C1, the sentence as written fails.  Two results for AAPL with
    timestamps 1000 < 2000 reach [processMarketData] newest first (at 3000
    and 3001).  The older one overwrites the newer one: the cache changes,
    and a read at 3002 returns the result stamped 1000. *)
Lemma stale_write_overwrites_fresher :
  let w2 := (processMarketData Examples.newer 3000 Examples.freshWorld).2 in
  let w21 := (processMarketData Examples.older 3001 w2).2 in
  timestamp Examples.older < timestamp Examples.newer ∧
  (Cache.getMarketData "AAPL" 3002 (cacheService (svc w2))).1 = Some Examples.newer ∧
  (Cache.getMarketData "AAPL" 3002 (cacheService (svc w21))).1 = Some Examples.older ∧
  (Cache.getMarketData "AAPL" 3002 (cacheService (svc w21))).1 ≠ Some Examples.newer ∧
  cacheService (svc w21) ≠ cacheService (svc w2).
Proof.
  cbv zeta. split; [cbn; lia |]. split; [reflexivity |]. split; [reflexivity |].
  split; [discriminate |].
  intros Heq.
  assert (H : (Cache.getMarketData "AAPL" 3002
                 (cacheService (svc (processMarketData Examples.older 3001
                    (processMarketData Examples.newer 3000 Examples.freshWorld).2).2))).1
              = Some Examples.newer) by (rewrite Heq; reflexivity).
  discriminate H.
Qed.

(** *** Properties preserved by every computation of the service *)

Section Preservation.
Variable P : World → Prop.

Local Abbreviation preserves := (Market.preserves P).

(** [P] looks only at what the cache calls and the callbacks leave alone. *)
Hypothesis P_cache : ∀ w c,
  P w → P (mkWorld (with_cache c (svc w)) (sent w) (notified w)).
Hypothesis P_notified : ∀ w n, P w → P (mkWorld (svc w) (sent w) n).

Lemma preserves_ret {A} (a : A) : preserves (mret a).
Proof. intros w H. exact H. Qed.

Lemma preserves_bind {A B} (m : M A) (k : A → M B) :
  preserves m → (∀ a, preserves (k a)) → preserves (m ≫= k).
Proof.
  intros Hm Hk w H. unfold mbind, M_bind, bind.
  specialize (Hm w H). destruct (m w) as [[a|e] w']; cbn in *; [by apply Hk | done].
Qed.

Lemma preserves_tryCatch {A} (body : M A) (handler : string → M A) :
  preserves body → (∀ e, preserves (handler e)) → preserves (tryCatch body handler).
Proof.
  intros Hm Hk w H. unfold tryCatch.
  specialize (Hm w H). destruct (body w) as [[a|e] w']; cbn in *; [done | by apply Hk].
Qed.

Lemma preserves_liftCache {A} (f : Cache.CacheService → A * Cache.CacheService) :
  preserves (liftCache f).
Proof.
  intros w H. unfold liftCache.
  destruct (f (cacheService (svc w))) as [a c']. cbn. by apply P_cache.
Qed.

Lemma preserves_liftCache_ (f : Cache.CacheService → Cache.CacheService) :
  preserves (liftCache_ f).
Proof. apply preserves_liftCache. Qed.

Lemma preserves_notifyCallbacks (d : MarketData) : preserves (notifyCallbacks d).
Proof. intros w H. cbn. by apply P_notified. Qed.

Lemma preserves_forEachM {A B} (f : A → M B) (l : list A) :
  (∀ a, preserves (f a)) → preserves (forEachM f l).
Proof.
  intros Hf. induction l as [|a l IH]; cbn [forEachM].
  - apply preserves_ret.
  - apply preserves_bind; [apply Hf |]. intros b.
    apply preserves_bind; [apply IH |]. intros bs. apply preserves_ret.
Qed.

Lemma preserves_processMarketData (d : MarketData) (clock : Z) :
  preserves (processMarketData d clock).
Proof.
  apply preserves_bind; [apply preserves_liftCache_ |].
  intros _. apply preserves_notifyCallbacks.
Qed.

Lemma preserves_generateSimulatedData (symbol : string) (clock : Z) (d : Draws) :
  preserves (generateSimulatedData symbol clock d).
Proof.
  intros w H. rewrite generateSimulatedData_eq. cbn. by apply P_cache.
Qed.

Lemma preserves_readCached (symbols : list string) (clock : Z) :
  preserves (readCached symbols clock).
Proof.
  induction symbols as [|s l IH]; cbn [readCached].
  - apply preserves_ret.
  - apply preserves_bind; [apply preserves_liftCache |]. intros c.
    apply preserves_bind; [apply IH |]. intros bs. apply preserves_ret.
Qed.

Lemma preserves_broadcastTick (clock : Z) : preserves (broadcastTick clock).
Proof.
  apply preserves_bind; [apply preserves_readCached |]. intros found.
  apply preserves_bind; [| intros; apply preserves_ret].
  apply preserves_forEachM. intros d. apply preserves_processMarketData.
Qed.

Lemma preserves_symbolsNeedingUpdate (symbols : list string) (clock threshold : Z) :
  preserves (symbolsNeedingUpdate symbols clock threshold).
Proof.
  induction symbols as [|s l IH]; cbn [symbolsNeedingUpdate].
  - apply preserves_ret.
  - apply preserves_bind; [apply preserves_liftCache |]. intros c.
    apply preserves_bind; [apply IH |]. intros bs. apply preserves_ret.
Qed.

(** Everything else reduces to [fetchAlpacaData]. *)
Hypothesis P_fetch : ∀ symbol env, preserves (fetchAlpacaData symbol env).

Lemma preserves_updateOne (envOf : string → FetchEnv) (symbol : string) :
  preserves (updateOne envOf symbol).
Proof.
  apply preserves_tryCatch; [| intros; apply preserves_ret].
  apply preserves_bind; [apply P_fetch |]. intros [d|]; [| apply preserves_ret].
  apply preserves_bind; [apply preserves_liftCache_ | intros; apply preserves_ret].
Qed.

Lemma preserves_initialFetchOne (envOf : string → FetchEnv) (symbol : string) :
  preserves (initialFetchOne envOf symbol).
Proof.
  apply preserves_tryCatch; [| intros; apply preserves_ret].
  apply preserves_bind; [apply P_fetch |]. intros [d|]; [| apply preserves_ret].
  apply preserves_bind; [apply preserves_liftCache_ |]. intros _.
  apply preserves_bind; [apply preserves_processMarketData | intros; apply preserves_ret].
Qed.

Lemma preserves_perform (a : Action) : preserves (perform a).
Proof.
  destruct a as [envOf | clock envOf | p clock envOf | clock | d clock | symbol clock env];
    cbn [perform].
  - apply preserves_bind; [| intros; apply preserves_ret].
    apply preserves_forEachM. intros b. apply preserves_forEachM. intros s.
    apply preserves_initialFetchOne.
  - apply preserves_bind; [| intros; apply preserves_ret].
    apply preserves_forEachM. intros s.
    apply preserves_bind; [apply preserves_liftCache |].
    intros [d|]; [apply preserves_ret | apply preserves_initialFetchOne].
  - apply preserves_bind; [| intros; apply preserves_ret].
    apply preserves_bind; [apply preserves_symbolsNeedingUpdate |].
    intros [|s l]; [apply preserves_ret |].
    apply preserves_forEachM. intros b. apply preserves_forEachM. intros s'.
    apply preserves_updateOne.
  - apply preserves_broadcastTick.
  - apply preserves_processMarketData.
  - apply preserves_bind; [| intros; apply preserves_ret].
    apply preserves_bind; [apply preserves_liftCache |].
    intros [d|]; [apply preserves_ret |].
    apply preserves_tryCatch; [apply P_fetch | intros; apply preserves_ret].
Qed.

Lemma preserves_execute (actions : list Action) (w : World) :
  P w → P (execute actions w).
Proof.
  revert w. induction actions as [|a l IH]; intros w H; cbn; [done |].
  apply IH. by apply preserves_perform.
Qed.

End Preservation.

(** *** The request budget *)

Lemma countIf_app {A} (p : A → bool) (l1 l2 : list A) :
  countIf p (l1 ++ l2) = countIf p l1 + countIf p l2.
Proof. induction l1 as [|a l IH]; cbn; [done | rewrite IH; lia]. Qed.

Lemma countIf_nonneg {A} (p : A → bool) (l : list A) : 0 ≤ countIf p l.
Proof. induction l as [|a l IH]; cbn; [done | destruct (p a); lia]. Qed.

Lemma countIf_none {A} (p : A → bool) (l : list A) :
  (∀ a, a ∈ l → p a = false) → countIf p l = 0.
Proof.
  induction l as [|a l IH]; intros H; cbn; [done |].
  rewrite (H a) by constructor. rewrite IH; [done |].
  intros b Hb. apply H. by constructor.
Qed.

Lemma isFetch_fetchRequest (symbol : string) : isFetch (fetchRequest symbol) = true.
Proof. unfold fetchRequest. by destruct (Js.includes "/" symbol). Qed.

Lemma fetchesOfWindow_admit (start : Z) (log extra : list Sent) (r : Request) (clock ws : Z) :
  isFetch r = true →
  Forall (λ e, isFetch (request e) = false) extra →
  fetchesOfWindow start (log ++ mkSent r clock ws :: extra) =
  fetchesOfWindow start log + (if ws =? start then 1 else 0).
Proof.
  intros Hr Hextra. unfold fetchesOfWindow. rewrite countIf_app. cbn. rewrite Hr. cbn.
  rewrite (countIf_none _ extra); [lia |].
  intros e He. rewrite Forall_forall in Hextra. by rewrite (Hextra e He).
Qed.

Lemma budgetInv_cache (w : World) (c : Cache.CacheService) :
  budgetInv w → budgetInv (mkWorld (with_cache c (svc w)) (sent w) (notified w)).
Proof. intros H. exact H. Qed.

Lemma budgetInv_notified (w : World) (n : list MarketData) :
  budgetInv w → budgetInv (mkWorld (svc w) (sent w) n).
Proof. intros H. exact H. Qed.

Lemma budgetInv_reset (clock : Z) (w : World) :
  budgetInv w →
  budgetInv (mkWorld (resetIfWindowPassed clock (svc w)) (sent w) (notified w)).
Proof.
  intros (Hc & Heq & Hle & Hall & Hq). unfold resetIfWindowPassed.
  destruct (Z.ltb_spec rateLimitWindow (clock - lastRequestTime (svc w))) as [Hlt | Hge].
  - unfold budgetInv, rateLimitWindow, maxRequestsPerWindow in *. cbn.
    split; [lia |]. split; [| split; [| split; [exact Hall | exact Hq]]].
    + apply countIf_none. intros e He.
      destruct (isFetch (request e)) eqn:Hf; [| done]. cbn.
      specialize (Hle e He Hf). apply Z.eqb_neq. lia.
    + intros e He Hf. specialize (Hle e He Hf). lia.
  - destruct w as [m s n]. exact (conj Hc (conj Heq (conj Hle (conj Hall Hq)))).
Qed.

Lemma budgetInv_admit (m : MarketDataService) (log extra : list Sent) (n : list MarketData)
    (c : Cache.CacheService) (symbol : string) (clock : Z) :
  budgetInv (mkWorld m log n) →
  requestCount m < maxRequestsPerWindow →
  Forall (λ e, isFetch (request e) = false) extra →
  budgetInv (mkWorld (with_cache c (countRequest m))
                     (log ++ mkSent (fetchRequest symbol) clock (lastRequestTime m) :: extra)
                     n).
Proof.
  intros (Hc & Heq & Hle & Hall & Hq) Hlt Hextra.
  unfold budgetInv, with_cache, countRequest in *.
  cbn [svc sent notified requestCount lastRequestTime requestQueue] in *.
  split; [lia |]. split; [| split; [| split; [| exact Hq]]].
  - rewrite fetchesOfWindow_admit by (done || apply isFetch_fetchRequest).
    rewrite Z.eqb_refl. lia.
  - intros e He Hf. apply elem_of_app in He as [He | He]; [by apply Hle |].
    apply elem_of_cons in He as [-> | He]; [cbn; lia |].
    rewrite Forall_forall in Hextra. rewrite (Hextra e He) in Hf. discriminate.
  - intros start. rewrite fetchesOfWindow_admit by (done || apply isFetch_fetchRequest).
    destruct (Z.eqb_spec (lastRequestTime m) start) as [<- | Hne]; [lia |].
    specialize (Hall start). lia.
Qed.

Lemma budgetInv_fetch (symbol : string) (env : FetchEnv) :
  Market.preserves budgetInv (fetchAlpacaData symbol env).
Proof.
  intros w H. destruct (isForexSymbol symbol) eqn:Hfx.
  - destruct (fetchAlpacaData_forex symbol env w Hfx) as (q & Hgen & _).
    rewrite generateSimulatedData_eq in Hgen. cbv zeta in Hgen.
    injection Hgen as _ Hw. rewrite <- Hw. by apply budgetInv_cache.
  - pose proof (budgetInv_reset (now env) w H) as Hreset.
    destruct (Z.lt_ge_cases (requestCount (resetIfWindowPassed (now env) (svc w)))
                maxRequestsPerWindow) as [Hlt | Hge].
    + destruct (fetchAlpacaData_admitted_call symbol env w Hfx Hlt)
        as (q & c' & extra & Heq & Hextra & _).
      rewrite Heq. cbn [snd]. by apply budgetInv_admit.
    + by rewrite (fetchAlpacaData_exhausted symbol env w Hfx Hge).
Qed.

Lemma budgetInv_fresh : budgetInv (mkWorld initial [] []).
Proof.
  unfold budgetInv, maxRequestsPerWindow. cbn. repeat split; try done.
  intros e He. by apply elem_of_nil in He.
Qed.

Lemma budgetInv_execute (actions : list Action) :
  budgetInv (execute actions (mkWorld initial [] [])).
Proof.
  apply preserves_execute.
  - apply budgetInv_cache.
  - apply budgetInv_notified.
  - apply budgetInv_fetch.
  - apply budgetInv_fresh.
Qed.

Lemma spanInv_fetch (symbol : string) (env : FetchEnv) :
  Market.preserves spanInv (fetchAlpacaData symbol env).
Proof.
  intros w H. destruct (isForexSymbol symbol) eqn:Hfx.
  - destruct (fetchAlpacaData_forex symbol env w Hfx) as (q & Hgen & _).
    rewrite generateSimulatedData_eq in Hgen. cbv zeta in Hgen.
    injection Hgen as _ Hw. rewrite <- Hw. exact H.
  - destruct (Z.lt_ge_cases (requestCount (resetIfWindowPassed (now env) (svc w)))
                maxRequestsPerWindow) as [Hlt | Hge].
    + destruct (fetchAlpacaData_admitted_call symbol env w Hfx Hlt)
        as (q & c' & extra & Heq & Hextra & _).
      rewrite Heq. cbn [snd]. intros e He Hf. cbn [sent] in He.
      apply elem_of_app in He as [He | He]; [by apply H |].
      apply elem_of_cons in He as [-> | He].
      * cbn. unfold resetIfWindowPassed, rateLimitWindow.
        destruct (Z.ltb_spec 60000 (now env - lastRequestTime (svc w))); cbn; lia.
      * rewrite Forall_forall in Hextra. rewrite (Hextra e He) in Hf. discriminate.
    + rewrite (fetchAlpacaData_exhausted symbol env w Hfx Hge). exact H.
Qed.

Lemma spanInv_execute (actions : list Action) :
  spanInv (execute actions (mkWorld initial [] [])).
Proof.
  apply preserves_execute.
  - intros w c H. exact H.
  - intros w n H. exact H.
  - apply spanInv_fetch.
  - intros e He. by apply elem_of_nil in He.
Qed.

Lemma spacedInv_fetch (symbol : string) (env : FetchEnv) :
  Market.preserves spacedInv (fetchAlpacaData symbol env).
Proof.
  intros w [Hcur Hpair]. destruct (isForexSymbol symbol) eqn:Hfx.
  - destruct (fetchAlpacaData_forex symbol env w Hfx) as (q & Hgen & _).
    rewrite generateSimulatedData_eq in Hgen. cbv zeta in Hgen.
    injection Hgen as _ Hw. rewrite <- Hw. by split.
  - assert (Hreset : ∀ e, e ∈ sent w → isFetch (request e) = true →
              windowStart e = lastRequestTime (resetIfWindowPassed (now env) (svc w)) ∨
              windowStart e + rateLimitWindow
                < lastRequestTime (resetIfWindowPassed (now env) (svc w))).
    { intros e He Hf. specialize (Hcur e He Hf). unfold resetIfWindowPassed.
      destruct (Z.ltb_spec rateLimitWindow (now env - lastRequestTime (svc w)));
        cbn [lastRequestTime]; [right; unfold rateLimitWindow in *; lia | done]. }
    destruct (Z.lt_ge_cases (requestCount (resetIfWindowPassed (now env) (svc w)))
                maxRequestsPerWindow) as [Hlt | Hge].
    + destruct (fetchAlpacaData_admitted_call symbol env w Hfx Hlt)
        as (q & c' & extra & Heq & Hextra & _).
      rewrite Heq. cbn [snd]. rewrite Forall_forall in Hextra.
      set (last := lastRequestTime (resetIfWindowPassed (now env) (svc w))) in *.
      assert (Hnew : ∀ e,
                e ∈ (sent w ++ mkSent (fetchRequest symbol) (now env) last :: extra)%list →
                isFetch (request e) = true →
                windowStart e = last ∨ windowStart e + rateLimitWindow < last).
      { intros e He Hf. apply elem_of_app in He as [He | He]; [by apply Hreset |].
        apply elem_of_cons in He as [-> | He]; [by left |].
        rewrite (Hextra e He) in Hf. discriminate. }
      split; [exact Hnew |].
      intros e1 e2 He1 He2 Hf1 Hf2 Hlt12. cbn [sent] in He1, He2.
      apply elem_of_app in He1 as [He1 | He1]; apply elem_of_app in He2 as [He2 | He2].
      * by apply Hpair.
      * apply elem_of_cons in He2 as [-> | He2];
          [| rewrite (Hextra e2 He2) in Hf2; discriminate].
        cbn [windowStart] in *. destruct (Hreset e1 He1 Hf1); lia.
      * apply elem_of_cons in He1 as [-> | He1];
          [| rewrite (Hextra e1 He1) in Hf1; discriminate].
        cbn [windowStart] in *. destruct (Hreset e2 He2 Hf2); lia.
      * apply elem_of_cons in He1 as [-> | He1];
          [| rewrite (Hextra e1 He1) in Hf1; discriminate].
        apply elem_of_cons in He2 as [-> | He2];
          [| rewrite (Hextra e2 He2) in Hf2; discriminate].
        cbn [windowStart] in Hlt12. lia.
    + rewrite (fetchAlpacaData_exhausted symbol env w Hfx Hge). by split.
Qed.

Lemma spacedInv_execute (actions : list Action) :
  spacedInv (execute actions (mkWorld initial [] [])).
Proof.
  apply preserves_execute.
  - intros w c H. exact H.
  - intros w n H. exact H.
  - apply spacedInv_fetch.
  - split; [intros e He | intros e1 e2 He]; by apply elem_of_nil in He.
Qed.

(** Numbers of one interval of two window lengths that are pairwise equal
    or more than a window length apart take at most two values. *)
Lemma at_most_two_starts (starts : list Z) (lo : Z) :
  (∀ x, x ∈ starts → lo ≤ x < lo + 2 * rateLimitWindow) →
  (∀ x y, x ∈ starts → y ∈ starts → x < y → x + rateLimitWindow < y) →
  ∃ a b, (∀ x, x ∈ starts → x = a ∨ x = b) ∧ (starts ≠ [] → a ∈ starts ∧ b ∈ starts).
Proof.
  induction starts as [|x l IH]; intros Hrange Hapart.
  - exists 0, 0. split; [by intros x Hx%elem_of_nil | done].
  - destruct IH as (a & b & Hab & Hin).
    { intros y Hy. apply Hrange. by right. }
    { intros y z Hy Hz. apply Hapart; by right. }
    destruct l as [|x' l'].
    + exists x, x. split; [| intros _; split; by left].
      intros y [-> | Hy%elem_of_nil]%elem_of_cons; [by left | done].
    + destruct Hin as [Ha Hb]; [done |].
      destruct (decide (x = a)) as [-> | Hxa];
        [exists a, b; split;
           [intros y [-> | Hy]%elem_of_cons; [by left | by apply Hab]
           | intros _; split; [by left | by right]] |].
      destruct (decide (x = b)) as [-> | Hxb];
        [exists a, b; split;
           [intros y [-> | Hy]%elem_of_cons; [by right | by apply Hab]
           | intros _; split; [by right | by left]] |].
      assert (a = b) as <-.
      { pose proof (Hrange x ltac:(by left)). pose proof (Hrange a ltac:(by right)).
        pose proof (Hrange b ltac:(by right)).
        pose proof (Hapart x a ltac:(by left) ltac:(by right)).
        pose proof (Hapart a x ltac:(by right) ltac:(by left)).
        pose proof (Hapart x b ltac:(by left) ltac:(by right)).
        pose proof (Hapart b x ltac:(by right) ltac:(by left)).
        pose proof (Hapart a b ltac:(by right) ltac:(by right)).
        pose proof (Hapart b a ltac:(by right) ltac:(by right)).
        unfold rateLimitWindow in *. lia. }
      exists a, x. split; [| intros _; split; [by right | by left]].
      intros y [-> | Hy]%elem_of_cons; [by right |].
      destruct (Hab y Hy); by left.
Qed.

Lemma countIf_le_two {A} (p q1 q2 : A → bool) (l : list A) :
  (∀ a, a ∈ l → p a = true → q1 a = true ∨ q2 a = true) →
  countIf p l ≤ countIf q1 l + countIf q2 l.
Proof.
  induction l as [|a l IH]; intros H; [done |]. cbn.
  assert (IH' : countIf p l ≤ countIf q1 l + countIf q2 l).
  { apply IH. intros a' Ha'. apply H. by right. }
  specialize (H a ltac:(by left)).
  destruct (p a), (q1 a), (q2 a); try lia; by destruct H.
Qed.

(** The rate the limiter does bound: with windows more than a window
    length apart, and no fetch stamped before the start of its window, the
    fetches of a rolling interval of one window length belong to at most
    two counting windows. *)
Lemma rolling_interval_two_windows (log : list Sent) (from : Z) :
  (∀ start, fetchesOfWindow start log ≤ maxRequestsPerWindow) →
  (∀ e, e ∈ log → isFetch (request e) = true →
        issuedAt e ≤ windowStart e + rateLimitWindow) →
  (∀ e1 e2, e1 ∈ log → e2 ∈ log →
        isFetch (request e1) = true → isFetch (request e2) = true →
        windowStart e1 < windowStart e2 →
        windowStart e1 + rateLimitWindow < windowStart e2) →
  (∀ e, e ∈ log → isFetch (request e) = true → windowStart e ≤ issuedAt e) →
  fetchesWithin from log ≤ 2 * maxRequestsPerWindow.
Proof.
  intros Hall Hspan Hapart Hmono.
  set (p := λ e : Sent, isFetch (request e) && (from <=? issuedAt e)
                        && (issuedAt e <? from + rateLimitWindow)).
  assert (Hp : ∀ e, p e = true →
            isFetch (request e) = true ∧ from ≤ issuedAt e < from + rateLimitWindow).
  { intros e. unfold p. rewrite !andb_true_iff, Z.leb_le, Z.ltb_lt. tauto. }
  destruct (at_most_two_starts (windowStart <$> filter (λ e, p e = true) log)
              (from - rateLimitWindow)) as (a & b & Hab & _).
  - intros x (e & -> & He)%list_elem_of_fmap.
    apply list_elem_of_filter in He as [Hpe He]. destruct (Hp e Hpe) as [Hf Hin].
    specialize (Hspan e He Hf). specialize (Hmono e He Hf).
    unfold rateLimitWindow in *. lia.
  - intros x y (e1 & -> & He1)%list_elem_of_fmap (e2 & -> & He2)%list_elem_of_fmap.
    apply list_elem_of_filter in He1 as [Hp1 He1].
    apply list_elem_of_filter in He2 as [Hp2 He2].
    apply Hapart; [done | done | by apply Hp | by apply Hp].
  - change (fetchesWithin from log) with (countIf p log).
    pose proof (Hall a) as Ha. pose proof (Hall b) as Hb. unfold fetchesOfWindow in Ha, Hb.
    etrans; [apply (countIf_le_two p
                      (λ e, isFetch (request e) && (windowStart e =? a))
                      (λ e, isFetch (request e) && (windowStart e =? b))) | lia].
    intros e He Hpe. destruct (Hp e Hpe) as [Hf _]. rewrite Hf. cbn.
    rewrite !Z.eqb_eq. apply Hab, list_elem_of_fmap. exists e. split; [done |].
    by apply list_elem_of_filter.
Qed.

(** What one fetch of a symbol that is not a forex pair does to the
    counter and its window, by the clock of the call. *)
Lemma limiter_step (symbol : string) (env : FetchEnv) (w : World) :
  isForexSymbol symbol = false →
  (rateLimitWindow < now env - lastRequestTime (svc w) →
     lastRequestTime (svc (fetchAlpacaData symbol env w).2) = now env ∧
     requestCount (svc (fetchAlpacaData symbol env w).2) = 1 ∧
     ∃ q, (fetchAlpacaData symbol env w).1 = Returned (Some q)) ∧
  (now env - lastRequestTime (svc w) ≤ rateLimitWindow →
     lastRequestTime (svc (fetchAlpacaData symbol env w).2) = lastRequestTime (svc w) ∧
     (requestCount (svc w) < maxRequestsPerWindow →
        requestCount (svc (fetchAlpacaData symbol env w).2) = requestCount (svc w) + 1 ∧
        ∃ q, (fetchAlpacaData symbol env w).1 = Returned (Some q)) ∧
     (maxRequestsPerWindow ≤ requestCount (svc w) →
        requestCount (svc (fetchAlpacaData symbol env w).2) = requestCount (svc w) ∧
        (fetchAlpacaData symbol env w).1 = Returned None ∧
        sent (fetchAlpacaData symbol env w).2 = sent w)).
Proof.
  intros Hfx. split.
  - intros Hpassed.
    assert (Hreset : resetIfWindowPassed (now env) (svc w)
                     = mkService (cacheService (svc w)) (subscribedSymbols (svc w))
                                 (requestQueue (svc w)) (now env) 0).
    { unfold resetIfWindowPassed.
      destruct (Z.ltb_spec rateLimitWindow (now env - lastRequestTime (svc w)));
        [done | lia]. }
    destruct (fetchAlpacaData_admitted_call symbol env w Hfx) as (q & c' & extra & -> & _).
    { rewrite Hreset. cbn. unfold maxRequestsPerWindow. lia. }
    rewrite Hreset. cbn. repeat split. by exists q.
  - intros Hwithin.
    assert (Hreset : resetIfWindowPassed (now env) (svc w) = svc w).
    { unfold resetIfWindowPassed.
      destruct (Z.ltb_spec rateLimitWindow (now env - lastRequestTime (svc w)));
        [lia | done]. }
    destruct (Z.lt_ge_cases (requestCount (svc w)) maxRequestsPerWindow) as [Hlt | Hge].
    + destruct (fetchAlpacaData_admitted_call symbol env w Hfx) as (q & c' & extra & -> & _);
        [by rewrite Hreset |].
      rewrite Hreset. cbn. split; [done |]. split; [| lia].
      intros _. split; [done | by exists q].
    + rewrite (fetchAlpacaData_exhausted symbol env w Hfx) by (by rewrite Hreset).
      rewrite Hreset. cbn. split; [done |]. split; [lia | done].
Qed.

(** C2 (as the code has it). The budget is kept per counting window, not
    per rolling window.  In every execution from the initial state, and for
    every window start, at most [maxRequestsPerWindow] fetch requests are
    issued while that window is the current one; every such request is
    issued no later than [rateLimitWindow] ms after the window's start.
    Nothing is ever queued: with the budget used up, a fetch returns [null]
    at once, sends nothing and leaves [requestQueue] empty.

    A window starts exactly at a fetch whose clock is more than
    [rateLimitWindow] ms past [lastRequestTime]: that fetch moves
    [lastRequestTime] to its clock and restarts the counter at one; a fetch
    at or before that point leaves the window where it is and counts
    against it.  So the windows of an execution start more than
    [rateLimitWindow] ms apart, and, when no fetch is stamped before the
    start of its window (the clock does not run backwards), a rolling
    interval of [rateLimitWindow] ms holds the fetches of at most two
    windows: at most twice the budget. *)
Theorem budget_holds_per_counting_window (actions : list Action) :
  let w := execute actions (mkWorld initial [] []) in
  (∀ start, fetchesOfWindow start (sent w) ≤ maxRequestsPerWindow) ∧
  (∀ e, e ∈ sent w → isFetch (request e) = true →
        issuedAt e ≤ windowStart e + rateLimitWindow) ∧
  requestQueue (svc w) = [] ∧
  (∀ symbol env,
    isForexSymbol symbol = false →
    maxRequestsPerWindow ≤ requestCount (resetIfWindowPassed (now env) (svc w)) →
    (fetchAlpacaData symbol env w).1 = Returned None ∧
    sent (fetchAlpacaData symbol env w).2 = sent w ∧
    requestQueue (svc (fetchAlpacaData symbol env w).2) = []) ∧
  (∀ symbol env,
    isForexSymbol symbol = false →
    (rateLimitWindow < now env - lastRequestTime (svc w) →
       lastRequestTime (svc (fetchAlpacaData symbol env w).2) = now env ∧
       requestCount (svc (fetchAlpacaData symbol env w).2) = 1 ∧
       ∃ q, (fetchAlpacaData symbol env w).1 = Returned (Some q)) ∧
    (now env - lastRequestTime (svc w) ≤ rateLimitWindow →
       lastRequestTime (svc (fetchAlpacaData symbol env w).2) = lastRequestTime (svc w) ∧
       (requestCount (svc w) < maxRequestsPerWindow →
          requestCount (svc (fetchAlpacaData symbol env w).2) = requestCount (svc w) + 1 ∧
          ∃ q, (fetchAlpacaData symbol env w).1 = Returned (Some q)) ∧
       (maxRequestsPerWindow ≤ requestCount (svc w) →
          requestCount (svc (fetchAlpacaData symbol env w).2) = requestCount (svc w) ∧
          (fetchAlpacaData symbol env w).1 = Returned None ∧
          sent (fetchAlpacaData symbol env w).2 = sent w))) ∧
  (∀ e, e ∈ sent w → isFetch (request e) = true →
        windowStart e = lastRequestTime (svc w) ∨
        windowStart e + rateLimitWindow < lastRequestTime (svc w)) ∧
  (∀ e1 e2, e1 ∈ sent w → e2 ∈ sent w →
        isFetch (request e1) = true → isFetch (request e2) = true →
        windowStart e1 < windowStart e2 →
        windowStart e1 + rateLimitWindow < windowStart e2) ∧
  ((∀ e, e ∈ sent w → isFetch (request e) = true → windowStart e ≤ issuedAt e) →
   ∀ from, fetchesWithin from (sent w) ≤ 2 * maxRequestsPerWindow).
Proof.
  cbv zeta.
  destruct (budgetInv_execute actions) as (_ & _ & _ & Hall & Hq).
  destruct (spacedInv_execute actions) as [Hcur Hapart].
  split; [exact Hall |]. split; [apply spanInv_execute |]. split; [exact Hq |].
  split; [| split; [| split; [exact Hcur | split; [exact Hapart |]]]].
  - intros symbol env Hfx Hge.
    rewrite (fetchAlpacaData_exhausted symbol env _ Hfx Hge). cbn.
    repeat split. unfold resetIfWindowPassed.
    destruct (rateLimitWindow <? _); exact Hq.
  - intros symbol env Hfx. by apply limiter_step.
  - intros Hmono from.
    apply rolling_interval_two_windows; [exact Hall | apply spanInv_execute | exact Hapart | exact Hmono].
Qed.

(** C2, the sentence as written fails: 599 fetch requests go out within
    one rolling window of 60000 ms, each of them admitted by the rate limiter. *)
Lemma rolling_window_exceeds_budget :
  fetchesWithin (Examples.t0 + 30000) (sent (execute Examples.burst Examples.freshWorld)) = 599 ∧
  maxRequestsPerWindow < 599.
Proof. split; [vm_compute; reflexivity | reflexivity]. Qed.

(** *** The broadcast interval *)

Lemma readCached_eq (l : list string) (clock : Z) (w : World) :
  ∃ c1,
    readCached l clock w =
    (Returned (omap (λ s, (Cache.getMarketData s clock (cacheService (svc w))).1) l),
     mkWorld (with_cache c1 (svc w)) (sent w) (notified w)) ∧
    ∀ k, Cache.memoryCache c1 !! k =
         if decide (k ∈ Cache.marketKey <$> l)
         then Cache.liveOnly clock (Cache.memoryCache (cacheService (svc w)) !! k)
         else Cache.memoryCache (cacheService (svc w)) !! k.
Proof.
  revert w. induction l as [|s l IH]; intros w.
  - exists (cacheService (svc w)). split.
    + destruct w as [[c subs q last cnt] snt ntf]. reflexivity.
    + intros k. rewrite decide_False; [done |]. cbn. apply not_elem_of_nil.
  - cbn [readCached]. unfold mbind at 1, M_bind, bind. unfold liftCache at 1.
    destruct (Cache.getMarketData s clock (cacheService (svc w))) as [r c'] eqn:Hget.
    destruct (IH (mkWorld (with_cache c' (svc w)) (sent w) (notified w))) as (c1 & Heq & Hlook).
    unfold mbind at 1, M_bind, bind. rewrite Heq. cbn.
    exists c1. split.
    + f_equal.
      assert (Hr : r = (Cache.getMarketData s clock (cacheService (svc w))).1)
        by (by rewrite Hget).
      assert (Htail :
        omap (λ s0, (Cache.getMarketData s0 clock c').1) l =
        omap (λ s0, (Cache.getMarketData s0 clock (cacheService (svc w))).1) l).
      { apply list_omap_ext, Forall_Forall2_diag, Forall_forall. intros s0 _.
        assert (Hc' : c' = (Cache.getMarketData s clock (cacheService (svc w))).2)
          by (by rewrite Hget).
        rewrite !CacheFacts.getMarketData_fst, Hc', CacheFacts.getMarketData_snd_lookup.
        case_decide; [by rewrite CacheFacts.liveOnly_idemp | done]. }
      rewrite Htail, <- Hr. destruct r; reflexivity.
    + intros k. rewrite Hlook. cbn.
      assert (Hc' : c' = (Cache.getMarketData s clock (cacheService (svc w))).2)
        by (by rewrite Hget).
      rewrite Hc', CacheFacts.getMarketData_snd_lookup.
      destruct (decide (k = Cache.marketKey s)) as [-> | Hne].
      * rewrite (decide_True (P := _ ∈ _ :: _)) by constructor.
        case_decide; [apply CacheFacts.liveOnly_idemp | done].
      * case_decide as Hin.
        -- rewrite decide_True; [done | by constructor].
        -- rewrite decide_False; [done |].
           intros Hin'. apply elem_of_cons in Hin' as [? | ?]; done.
Qed.

Lemma forEach_process_eq (ds : list MarketData) (clock : Z) (w : World) :
  forEachM (λ d, processMarketData d clock) ds w =
  (Returned ((λ _, tt) <$> ds),
   mkWorld (with_cache (writeAll clock (cacheService (svc w)) ds) (svc w))
           (sent w) (notified w ++ ds)).
Proof.
  revert w. induction ds as [|d ds IH]; intros w.
  - destruct w as [[c subs q last cnt] snt ntf]. cbn. by rewrite app_nil_r.
  - cbn [forEachM]. unfold mbind at 1, M_bind, bind.
    rewrite processMarketData_eq.
    unfold mbind at 1, M_bind, bind. rewrite IH. cbn. by rewrite <- app_assoc.
Qed.

Lemma writeAll_lookup (clock : Z) (ds : list MarketData) (c : Cache.CacheService) (k : string) :
  (∃ d, d ∈ ds ∧ Cache.marketKey (symbol d) = k ∧
        Cache.memoryCache (writeAll clock c ds) !! k
        = Some (Cache.mkEntry (stringify_MarketData d) (clock + 60000))) ∨
  ((∀ d, d ∈ ds → Cache.marketKey (symbol d) ≠ k) ∧
   Cache.memoryCache (writeAll clock c ds) !! k = Cache.memoryCache c !! k).
Proof.
  revert c. induction ds as [|d ds IH]; intros c.
  - right. split; [| done]. intros d Hd. by apply elem_of_nil in Hd.
  - cbn. destruct (IH (Cache.setMarketData (symbol d) d clock c))
      as [(d' & Hin & Hk & Hl) | (Hnone & Hl)].
    + left. exists d'. split; [by constructor | done].
    + rewrite CacheFacts.lookup_setMarketData in Hl. case_decide as Hk.
      * left. exists d. split; [constructor | done].
      * right. split; [| done]. intros d' Hd'.
        apply elem_of_cons in Hd' as [-> | Hd']; [done | by apply Hnone].
Qed.

Lemma broadcastTick_eq (clock : Z) (w : World) :
  let found := omap (λ s, (Cache.getMarketData s clock (cacheService (svc w))).1) allSymbols in
  ∃ c1,
    broadcastTick clock w =
    (Returned tt,
     mkWorld (with_cache (writeAll clock c1 found) (svc w)) (sent w) (notified w ++ found)) ∧
    ∀ k, Cache.memoryCache c1 !! k =
         if decide (k ∈ Cache.marketKey <$> allSymbols)
         then Cache.liveOnly clock (Cache.memoryCache (cacheService (svc w)) !! k)
         else Cache.memoryCache (cacheService (svc w)) !! k.
Proof.
  cbv zeta. destruct (readCached_eq allSymbols clock w) as (c1 & Heq & Hlook).
  exists c1. split; [| exact Hlook].
  unfold broadcastTick. unfold mbind at 1, M_bind, bind. rewrite Heq.
  unfold mbind at 1, M_bind, bind. rewrite forEach_process_eq. reflexivity.
Qed.

(** What one broadcast does to a well-formed cache [c]: [c2] is the cache
    after the reads (lookups given by [Hc1]) and the writes. *)
Lemma broadcast_cache_effect (clock : Z) (l : list string) (c c1 : Cache.CacheService) :
  Cache.market_wf c →
  (∀ k, Cache.memoryCache c1 !! k =
        if decide (k ∈ Cache.marketKey <$> l)
        then Cache.liveOnly clock (Cache.memoryCache c !! k)
        else Cache.memoryCache c !! k) →
  let found := omap (λ s, (Cache.getMarketData s clock c).1) l in
  let c2 := writeAll clock c1 found in
  (∀ s, s ∈ l →
        match (Cache.getMarketData s clock c).1 with
        | Some d => Cache.memoryCache c2 !! Cache.marketKey s
                    = Some (Cache.mkEntry (stringify_MarketData d) (clock + 60000))
        | None => Cache.memoryCache c2 !! Cache.marketKey s = None
        end) ∧
  (∀ k, (∀ s, s ∈ l → k ≠ Cache.marketKey s) →
        Cache.memoryCache c2 !! k = Cache.memoryCache c !! k).
Proof.
  intros Hwf Hc1 found c2.
  assert (Hsym : ∀ s d, (Cache.getMarketData s clock c).1 = Some d → symbol d = s).
  { intros s d Hget. rewrite CacheFacts.getMarketData_fst in Hget.
    destruct (Cache.liveOnly clock (Cache.memoryCache c !! Cache.marketKey s))
      as [e|] eqn:Hlive; [| done].
    apply CacheFacts.liveOnly_Some in Hlive.
    destruct (Hwf s e Hlive) as (d' & Hparse & Hd'). cbn in Hget. congruence. }
  assert (Hfound : ∀ d, d ∈ found →
            ∃ s, s ∈ l ∧ (Cache.getMarketData s clock c).1 = Some d ∧ symbol d = s).
  { intros d Hd. apply list_elem_of_omap in Hd as (s & Hs & Hget).
    exists s. split; [done |]. split; [done | by apply Hsym]. }
  split.
  - intros s Hs.
    destruct (writeAll_lookup clock found c1 (Cache.marketKey s))
      as [(d' & Hin & Hk & Hl) | (Hnone & Hl)]; fold c2 in Hl.
    + destruct (Hfound d' Hin) as (s' & Hs' & Hget' & Hsym').
      apply CacheFacts.marketKey_inj in Hk. subst s'. rewrite Hk in Hget'.
      by rewrite Hget'.
    + destruct ((Cache.getMarketData s clock c).1) as [d|] eqn:Hget.
      * exfalso. apply (Hnone d); [apply list_elem_of_omap; eauto |].
        by rewrite (Hsym s d Hget).
      * rewrite Hl, Hc1. rewrite decide_True by (by apply list_elem_of_fmap_2).
        rewrite CacheFacts.getMarketData_fst in Hget.
        destruct (Cache.liveOnly clock (Cache.memoryCache c !! Cache.marketKey s))
          as [e|] eqn:Hlive; [| done].
        exfalso. apply CacheFacts.liveOnly_Some in Hlive.
        destruct (Hwf s e Hlive) as (d' & Hparse & _). cbn in Hget. congruence.
  - intros k Hk.
    destruct (writeAll_lookup clock found c1 k) as [(d' & Hin & Hk' & Hl) | (Hnone & Hl)];
      fold c2 in Hl.
    + destruct (Hfound d' Hin) as (s' & Hs' & _ & Hsym'). subst s'.
      exfalso. by apply (Hk (symbol d')).
    + rewrite Hl, Hc1. rewrite decide_False; [done |].
      intros Hin. apply list_elem_of_fmap in Hin as (s & -> & Hs). by apply (Hk s).
Qed.

(** *** Executions keep the cache well formed *)

Lemma ensures_ret {A} (a : A) (Q : A → Prop) : Q a → ensures (mret a) Q.
Proof. intros HQ w Hw. split; [exact Hw |]. by intros a' [= <-]. Qed.

Lemma ensures_weaken {A} (m : M A) (Q Q' : A → Prop) :
  ensures m Q → (∀ a, Q a → Q' a) → ensures m Q'.
Proof. intros Hm HQ w Hw. destruct (Hm w Hw) as [H1 H2]. split; [done | eauto]. Qed.

Lemma ensures_bind {A B} (m : M A) (k : A → M B) (Q1 : A → Prop) (Q2 : B → Prop) :
  ensures m Q1 → (∀ a, Q1 a → ensures (k a) Q2) → ensures (m ≫= k) Q2.
Proof.
  intros Hm Hk w Hw. unfold mbind, M_bind, bind.
  destruct (Hm w Hw) as [H1 H2]. destruct (m w) as [[a|e] w']; cbn in *.
  - by apply (Hk a (H2 a eq_refl)).
  - split; [done | discriminate].
Qed.

Lemma ensures_tryCatch {A} (body : M A) (handler : string → M A) (Q : A → Prop) :
  ensures body Q → (∀ e, ensures (handler e) Q) → ensures (tryCatch body handler) Q.
Proof.
  intros Hm Hk w Hw. unfold tryCatch.
  destruct (Hm w Hw) as [H1 H2]. destruct (body w) as [[a|e] w']; cbn in *.
  - split; [done |]. intros a' [= <-]. by apply H2.
  - by apply Hk.
Qed.

Lemma ensures_liftCache {A} (f : Cache.CacheService → A * Cache.CacheService) :
  (∀ c, Cache.market_wf c → Cache.market_wf (f c).2) →
  ensures (liftCache f) (λ _, True).
Proof.
  intros Hf w Hw. unfold liftCache. specialize (Hf _ Hw).
  destruct (f (cacheService (svc w))) as [a c']. cbn in *. done.
Qed.

Lemma ensures_forEachM {A B} (f : A → M B) (l : list A) :
  (∀ a, ensures (f a) (λ _, True)) → ensures (forEachM f l) (λ _, True).
Proof.
  intros Hf. induction l as [|a l IH]; cbn [forEachM].
  - by apply ensures_ret.
  - eapply ensures_bind; [apply Hf |]. intros b _.
    eapply ensures_bind; [apply IH |]. intros bs _. by apply ensures_ret.
Qed.

Lemma ensures_processMarketData (d : MarketData) (clock : Z) :
  ensures (processMarketData d clock) (λ _, True).
Proof.
  intros w Hw. rewrite processMarketData_eq. cbn. split; [| done].
  by apply CacheFacts.market_wf_setMarketData.
Qed.

Lemma market_wf_simulated (symbol : string) (v : Json) (t : Z) (c : Cache.CacheService) :
  Cache.market_wf c →
  Cache.market_wf (Cache.set (simulatedKey symbol) v 300 t (Cache.get (simulatedKey symbol) t c).2).
Proof.
  intros Hwf. apply CacheFacts.market_wf_set; [| by apply CacheFacts.market_wf_get].
  intros s. apply simulatedKey_not_marketKey.
Qed.

Lemma ensures_fetch (symbol : string) (env : FetchEnv) :
  ensures (fetchAlpacaData symbol env) (λ r, ∀ d, r = Some d → MD.symbol d = symbol).
Proof.
  intros w Hw. destruct (isForexSymbol symbol) eqn:Hfx.
  - destruct (fetchAlpacaData_forex symbol env w Hfx) as (q & Hgen & Hres).
    rewrite generateSimulatedData_eq in Hgen. cbv zeta in Hgen.
    injection Hgen as Hq Hw'. rewrite <- Hw', Hres. split.
    + by apply market_wf_simulated.
    + intros a [= <-] d [= <-]. by rewrite <- Hq.
  - destruct (Z.lt_ge_cases (requestCount (resetIfWindowPassed (now env) (svc w)))
                maxRequestsPerWindow) as [Hlt | Hge].
    + destruct (fetchAlpacaData_admitted_call symbol env w Hfx Hlt)
        as (q & c' & extra & Heq & _ & Hsym & Hstep).
      rewrite Heq. cbn. split.
      * destruct Hstep as [-> | (v & t & ->)]; [exact Hw | by apply market_wf_simulated].
      * by intros a [= <-] d [= <-].
    + rewrite (fetchAlpacaData_exhausted symbol env w Hfx Hge). cbn. split.
      * unfold cacheWf, resetIfWindowPassed in *. cbn.
        by destruct (rateLimitWindow <? now env - lastRequestTime (svc w)).
      * by intros a [= <-] d.
Qed.

Lemma ensures_updateOne (envOf : string → FetchEnv) (symbol : string) :
  ensures (updateOne envOf symbol) (λ _, True).
Proof.
  apply ensures_tryCatch; [| intros; by apply ensures_ret].
  eapply ensures_bind; [apply ensures_fetch |]. intros [d|] Hd; [| by apply ensures_ret].
  eapply ensures_bind; [| intros; by apply ensures_ret].
  apply ensures_liftCache. intros c Hc. cbn.
  rewrite <- (Hd d eq_refl). by apply CacheFacts.market_wf_setMarketData.
Qed.

Lemma ensures_initialFetchOne (envOf : string → FetchEnv) (symbol : string) :
  ensures (initialFetchOne envOf symbol) (λ _, True).
Proof.
  apply ensures_tryCatch; [| intros; by apply ensures_ret].
  eapply ensures_bind; [apply ensures_fetch |]. intros [d|] Hd; [| by apply ensures_ret].
  eapply ensures_bind.
  { apply ensures_liftCache. intros c Hc. cbn.
    rewrite <- (Hd d eq_refl). by apply CacheFacts.market_wf_setMarketData. }
  intros _ _. eapply ensures_bind; [apply ensures_processMarketData |].
  intros; by apply ensures_ret.
Qed.

Lemma ensures_cache_read (s : string) (clock : Z) :
  ensures (liftCache (Cache.getMarketData s clock)) (λ _, True).
Proof. apply ensures_liftCache. intros c. apply CacheFacts.market_wf_getMarketData. Qed.

Lemma ensures_broadcastTick (clock : Z) : ensures (broadcastTick clock) (λ _, True).
Proof.
  eapply ensures_bind with (Q1 := λ _, True).
  - induction allSymbols as [|s l IH]; cbn [readCached]; [by apply ensures_ret |].
    eapply ensures_bind; [apply ensures_cache_read |]. intros r _.
    eapply ensures_bind; [apply IH |]. intros; by apply ensures_ret.
  - intros found _. eapply ensures_bind; [| intros; by apply ensures_ret].
    apply ensures_forEachM. intros d. apply ensures_processMarketData.
Qed.

Lemma ensures_perform (a : Action) : ensures (perform a) (λ _, True).
Proof.
  destruct a as [envOf | clock envOf | p clock envOf | clock | d clock | symbol clock env];
    cbn [perform].
  - eapply ensures_bind; [| intros; by apply ensures_ret].
    apply ensures_forEachM. intros b. eapply ensures_weaken; [| done].
    apply ensures_forEachM. intros s. apply ensures_initialFetchOne.
  - eapply ensures_bind; [| intros; by apply ensures_ret].
    apply ensures_forEachM. intros s.
    eapply ensures_bind; [apply ensures_cache_read |].
    intros [d|] _; [by apply ensures_ret | apply ensures_initialFetchOne].
  - eapply ensures_bind with (Q1 := λ _, True); [| intros; by apply ensures_ret].
    eapply ensures_bind with (Q1 := λ _, True).
    + induction (tierSymbols p) as [|s l IH]; cbn [symbolsNeedingUpdate];
        [by apply ensures_ret |].
      eapply ensures_bind; [apply ensures_cache_read |]. intros r _.
      eapply ensures_bind; [apply IH |]. intros; by apply ensures_ret.
    + intros [|s l] _; [by apply ensures_ret |].
      apply ensures_forEachM. intros b. eapply ensures_weaken; [| done].
      apply ensures_forEachM. intros s'. apply ensures_updateOne.
  - apply ensures_broadcastTick.
  - apply ensures_processMarketData.
  - eapply ensures_bind with (Q1 := λ _, True); [| intros; by apply ensures_ret].
    eapply ensures_bind; [apply ensures_cache_read |].
    intros [d|] _; [by apply ensures_ret |].
    apply ensures_tryCatch; [| intros; by apply ensures_ret].
    eapply ensures_weaken; [apply ensures_fetch | done].
Qed.

Lemma cacheWf_execute (actions : list Action) :
  cacheWf (execute actions (mkWorld initial [] [])).
Proof.
  assert (H : ∀ w, cacheWf w → cacheWf (execute actions w)).
  { induction actions as [|a l IH]; intros w Hw; cbn; [done |].
    apply IH. by apply ensures_perform. }
  apply H. apply CacheFacts.market_wf_empty.
Qed.

(** C6 (as the code has it). A firing of the broadcast interval, in any
    state the service can reach, completes without an exception, sends no
    upstream request and leaves the rate-limit counter and window start
    alone.  It is not read-only on the cache: every universe symbol with a
    live quote has its slot rewritten with the same quote and a fresh 60 s
    expiry, every expired slot of a universe symbol is deleted, and all
    other keys are untouched.  A read of any symbol at the time of the tick
    returns the same quote after the tick as before it, and exactly the
    quotes read are handed to the price-update callbacks. *)
Theorem broadcast_tick_effect (actions : list Action) (clock : Z) :
  let w := execute actions (mkWorld initial [] []) in
  let w' := (broadcastTick clock w).2 in
  let c := cacheService (svc w) in
  let c' := cacheService (svc w') in
  (broadcastTick clock w).1 = Returned tt ∧
  sent w' = sent w ∧
  requestCount (svc w') = requestCount (svc w) ∧
  lastRequestTime (svc w') = lastRequestTime (svc w) ∧
  (∀ s, (Cache.getMarketData s clock c').1 = (Cache.getMarketData s clock c).1) ∧
  (∀ s, s ∈ allSymbols →
        match (Cache.getMarketData s clock c).1 with
        | Some d => Cache.memoryCache c' !! Cache.marketKey s
                    = Some (Cache.mkEntry (stringify_MarketData d) (clock + 60000))
        | None => Cache.memoryCache c' !! Cache.marketKey s = None
        end) ∧
  (∀ k, (∀ s, s ∈ allSymbols → k ≠ Cache.marketKey s) →
        Cache.memoryCache c' !! k = Cache.memoryCache c !! k) ∧
  notified w' = (notified w ++ omap (λ s, (Cache.getMarketData s clock c).1) allSymbols)%list.
Proof.
  intros w w' c c'.
  destruct (broadcastTick_eq clock w) as (c1 & Heq & Hc1).
  destruct (broadcast_cache_effect clock allSymbols c c1 (cacheWf_execute actions) Hc1)
    as [HB HC].
  assert (Hc' : c' = writeAll clock c1
                       (omap (λ s, (Cache.getMarketData s clock c).1) allSymbols)).
  { unfold c', w'. rewrite Heq. reflexivity. }
  unfold w'. rewrite Heq. cbn [fst snd sent notified svc].
  repeat split; try (destruct (svc w); reflexivity).
  - intros s. rewrite (CacheFacts.getMarketData_fst s clock c').
    destruct (decide (s ∈ allSymbols)) as [Hin | Hout].
    + specialize (HB s Hin). rewrite <- Hc' in HB.
      destruct ((Cache.getMarketData s clock c).1) as [d|].
      * rewrite HB. cbn.
        destruct (Z.ltb_spec clock (clock + 60000)); [| lia].
        cbn. apply CacheFacts.parse_stringify_MarketData.
      * by rewrite HB.
    + rewrite CacheFacts.getMarketData_fst, Hc'. rewrite HC; [done |].
      intros s' Hs' Heq'. apply CacheFacts.marketKey_inj in Heq'. by subst s'.
  - intros s Hs. rewrite Hc'. by apply HB.
  - intros k Hk. rewrite Hc'. by apply HC.
Qed.

Lemma broadcast_tick_effect_witness :
  (Cache.getMarketData "AAPL" 30000
     (cacheService (svc (broadcastTick 30000
        (execute [StreamTrade Examples.older 1000] (mkWorld initial [] []))).2))).1
  = Some Examples.older ∧
  Cache.memoryCache
    (cacheService (svc (broadcastTick 30000
        (execute [StreamTrade Examples.older 1000] (mkWorld initial [] []))).2))
    !! Cache.marketKey "AAPL"
  = Some (Cache.mkEntry (stringify_MarketData Examples.older) 90000).
Proof.
  destruct (broadcast_tick_effect [StreamTrade Examples.older 1000] 30000)
    as (_ & _ & _ & _ & HA & HB & _).
  split.
  - rewrite (HA "AAPL"). reflexivity.
  - specialize (HB "AAPL"). cbv beta iota zeta in HB. apply HB.
    unfold allSymbols. apply list_elem_of_In. cbn. tauto.
Defined.

(** C6, the sentence as written fails: the tick writes the cache.  After a
    trade for AAPL was cached at 1000 (expiry 61000), a tick at 30000 leaves
    the slot with expiry 90000, and a tick at 70000 deletes it. *)
Lemma broadcast_tick_modifies_cache :
  let w := execute [StreamTrade Examples.older 1000] Examples.freshWorld in
  Cache.expiry <$> (Cache.memoryCache (cacheService (svc w)) !! "market:AAPL") = Some 61000 ∧
  Cache.expiry <$> (Cache.memoryCache (cacheService (svc (broadcastTick 30000 w).2))
                      !! "market:AAPL") = Some 90000 ∧
  Cache.memoryCache (cacheService (svc (broadcastTick 70000 w).2)) !! "market:AAPL" = None ∧
  cacheService (svc (broadcastTick 30000 w).2) ≠ cacheService (svc w).
Proof.
  cbv zeta. split; [reflexivity |]. split; [vm_compute; reflexivity |].
  split; [vm_compute; reflexivity |].
  intros Heq.
  assert (H : Cache.expiry <$>
                (Cache.memoryCache (cacheService (svc (broadcastTick 30000
                   (execute [StreamTrade Examples.older 1000] Examples.freshWorld)).2))
                 !! "market:AAPL") = Some 61000) by (rewrite Heq; reflexivity).
  vm_compute in H. discriminate H.
Qed.

Lemma budget_holds_per_counting_window_witness :
  fetchesOfWindow (Examples.t0 + 60001)
    (sent (execute Examples.burst (mkWorld initial [] []))) ≤ maxRequestsPerWindow ∧
  (fetchAlpacaData "COIN" (Examples.answeringEnv (Examples.t0 + 90000))
     (execute Examples.burst (mkWorld initial [] []))).1 = Returned None ∧
  lastRequestTime
    (svc (fetchAlpacaData "COIN" (Examples.answeringEnv (Examples.t0 + 150000))
            (execute Examples.burst (mkWorld initial [] []))).2) = Examples.t0 + 150000 ∧
  fetchesWithin (Examples.t0 + 30000)
    (sent (execute Examples.burst (mkWorld initial [] []))) ≤ 2 * maxRequestsPerWindow.
Proof.
  destruct (budget_holds_per_counting_window Examples.burst)
    as (H1 & _ & _ & H4 & H5 & _ & _ & H8).
  split; [apply H1 |]. split; [| split].
  - destruct (H4 "COIN" (Examples.answeringEnv (Examples.t0 + 90000))) as (H & _);
      [reflexivity | vm_compute; discriminate | exact H].
  - destruct (H5 "COIN" (Examples.answeringEnv (Examples.t0 + 150000))) as ((H & _) & _);
      [reflexivity | vm_compute; reflexivity | exact H].
  - apply H8.
    apply (proj1 (Forall_forall
             (λ e, isFetch (request e) = true → windowStart e ≤ issuedAt e) _)).
    apply (bool_decide_unpack _). vm_compute. exact I.
Defined.

End MarketFacts.

(** ** The subscription registry *)

Module RegistryFacts.
Import Registry.

Lemma subscribers_insert (ws : WebSocketService) (cl : gmap string SocketClient)
    (m : Market.MarketDataService) (s s0 : string) (S : gset string) :
  subscribers (mkWs cl (<[s := S]> (symbolSubscriptions ws)) m) s0 =
  if decide (s = s0) then S else subscribers ws s0.
Proof. unfold subscribers. cbn. rewrite lookup_insert. by case_decide. Qed.

Lemma subscribers_delete (ws : WebSocketService) (cl : gmap string SocketClient)
    (m : Market.MarketDataService) (s s0 : string) :
  subscribers (mkWs cl (delete s (symbolSubscriptions ws)) m) s0 =
  if decide (s = s0) then ∅ else subscribers ws s0.
Proof. unfold subscribers. cbn. rewrite lookup_delete. by case_decide. Qed.

Lemma subscribers_same (ws : WebSocketService) (cl : gmap string SocketClient)
    (m : Market.MarketDataService) (s0 : string) :
  subscribers (mkWs cl (symbolSubscriptions ws) m) s0 = subscribers ws s0.
Proof. reflexivity. Qed.

(** *** Unsubscribing twice *)

Lemma unsubscribeClientFromSymbol_idemp (c s : string) (ws : WebSocketService) :
  unsubscribeClientFromSymbol c s (unsubscribeClientFromSymbol c s ws)
  = unsubscribeClientFromSymbol c s ws.
Proof.
  unfold unsubscribeClientFromSymbol at 2.
  destruct (clients ws !! c) as [client|] eqn:Hc.
  2: { unfold unsubscribeClientFromSymbol. by rewrite Hc. }
  assert (Hset : ∀ X : gset string, X ∖ {[s]} ∖ {[s]} = X ∖ {[s]})
    by (intros X; apply set_eq; set_solver).
  assert (Hcl : ∀ X : gset string, X ∖ {[c]} ∖ {[c]} = X ∖ {[c]})
    by (intros X; apply set_eq; set_solver).
  destruct (symbolSubscriptions ws !! s) as [S|] eqn:Hs.
  - case_bool_decide as Hsize.
    + unfold unsubscribeClientFromSymbol. cbn [clients symbolSubscriptions marketDataService].
      rewrite lookup_insert_eq. cbv beta iota. rewrite lookup_delete_eq.
      unfold withSymbols. cbn [id userId subscribedSymbols rooms].
      rewrite Hset, insert_insert_eq, Hc, Hs.
      by rewrite (bool_decide_eq_true_2 _ Hsize).
    + unfold unsubscribeClientFromSymbol. cbn [clients symbolSubscriptions marketDataService].
      rewrite lookup_insert_eq. cbv beta iota. rewrite lookup_insert_eq.
      cbv beta iota zeta. rewrite Hcl.
      rewrite (bool_decide_eq_false_2 _ Hsize).
      unfold withSymbols. cbn [id userId subscribedSymbols rooms].
      rewrite Hset, !insert_insert_eq, Hc, Hs.
      by rewrite (bool_decide_eq_false_2 _ Hsize).
  - unfold unsubscribeClientFromSymbol. cbn [clients symbolSubscriptions marketDataService].
    rewrite lookup_insert_eq. cbv beta iota. rewrite Hs.
    unfold withSymbols. cbn [id userId subscribedSymbols rooms].
    by rewrite Hset, insert_insert_eq, Hc.
Qed.

(** C8. Running the [unsubscribe] handler for the same connection and
    symbol twice in a row leaves the whole registry, and the market
    service it drives, exactly as one run does; the handler is a total
    function, and subscriber counts are set sizes, which the second run
    does not change. *)
Theorem unsubscribe_twice_is_once (c s : string) (ws : WebSocketService) :
  onUnsubscribe c [s] (onUnsubscribe c [s] ws) = onUnsubscribe c [s] ws ∧
  ∀ s', size (subscribers (onUnsubscribe c [s] (onUnsubscribe c [s] ws)) s')
        = size (subscribers (onUnsubscribe c [s] ws) s').
Proof.
  assert (H : onUnsubscribe c [s] (onUnsubscribe c [s] ws) = onUnsubscribe c [s] ws)
    by apply unsubscribeClientFromSymbol_idemp.
  split; [exact H |]. intros s'. by rewrite H.
Qed.

(** *** Consistency of the two directions *)

Lemma subscribers_Some (ws : WebSocketService) (s : string) (S : gset string) :
  symbolSubscriptions ws !! s = Some S → subscribers ws s = S.
Proof. intros H. unfold subscribers. by rewrite H. Qed.

Lemma subscribers_None (ws : WebSocketService) (s : string) :
  symbolSubscriptions ws !! s = None → subscribers ws s = ∅.
Proof. intros H. unfold subscribers. by rewrite H. Qed.

Lemma subscribe_consistent (c s : string) (ws : WebSocketService) :
  consistent ws → consistent (subscribeClientToSymbol c s ws).
Proof.
  intros [H1 H2]. unfold subscribeClientToSymbol.
  destruct (clients ws !! c) as [client|] eqn:Hc; [| done].
  destruct (symbolSubscriptions ws !! s) as [S|] eqn:Hs.
  - split.
    + intros c0 client0 s0. cbn [clients]. rewrite lookup_insert, subscribers_insert.
      case_decide as Hcc.
      * subst c0. intros [= <-]. cbn. specialize (H1 c client s0 Hc).
        case_decide as Hss; [subst s0; set_solver | set_solver].
      * intros Hc0. specialize (H1 c0 client0 s0 Hc0).
        case_decide as Hss; [| done]. subst s0.
        rewrite (subscribers_Some ws s S Hs) in H1. set_solver.
    + intros s0 S0. cbn [symbolSubscriptions]. rewrite lookup_insert.
      case_decide; [intros [= <-]; set_solver | apply H2].
  - split.
    + intros c0 client0 s0. cbn [clients]. rewrite lookup_insert, subscribers_insert.
      case_decide as Hcc.
      * subst c0. intros [= <-]. cbn. specialize (H1 c client s0 Hc).
        case_decide as Hss; [subst s0; set_solver | set_solver].
      * intros Hc0. specialize (H1 c0 client0 s0 Hc0).
        case_decide as Hss; [| done]. subst s0.
        rewrite (subscribers_None ws s Hs) in H1. set_solver.
    + intros s0 S0. cbn [symbolSubscriptions]. rewrite lookup_insert.
      case_decide; [intros [= <-]; set_solver | apply H2].
Qed.

Lemma unsubscribe_consistent (c s : string) (ws : WebSocketService) :
  consistent ws → consistent (unsubscribeClientFromSymbol c s ws).
Proof.
  intros [H1 H2]. unfold unsubscribeClientFromSymbol.
  destruct (clients ws !! c) as [client|] eqn:Hc; [| done].
  destruct (symbolSubscriptions ws !! s) as [S|] eqn:Hs.
  - case_bool_decide as Hsize.
    + apply size_empty_inv in Hsize. apply leibniz_equiv in Hsize.
      split.
      * intros c0 client0 s0. cbn [clients]. rewrite lookup_insert, subscribers_delete.
        case_decide as Hcc.
        -- subst c0. intros [= <-]. cbn. specialize (H1 c client s0 Hc).
           case_decide as Hss; [subst s0; set_solver | set_solver].
        -- intros Hc0. specialize (H1 c0 client0 s0 Hc0).
           case_decide as Hss; [| done]. subst s0.
           rewrite (subscribers_Some ws s S Hs) in H1. set_solver.
      * intros s0 S0. cbn [symbolSubscriptions]. rewrite lookup_delete.
        case_decide; [done | apply H2].
    + split.
      * intros c0 client0 s0. cbn [clients]. rewrite lookup_insert, subscribers_insert.
        case_decide as Hcc.
        -- subst c0. intros [= <-]. cbn. specialize (H1 c client s0 Hc).
           case_decide as Hss; [subst s0; set_solver | set_solver].
        -- intros Hc0. specialize (H1 c0 client0 s0 Hc0).
           case_decide as Hss; [| done]. subst s0.
           rewrite (subscribers_Some ws s S Hs) in H1. set_solver.
      * intros s0 S0. cbn [symbolSubscriptions]. rewrite lookup_insert.
        case_decide; [intros [= <-] | apply H2].
        intros Hempty. apply Hsize. rewrite Hempty. apply size_empty.
  - split.
    + intros c0 client0 s0. cbn [clients]. rewrite lookup_insert, subscribers_same.
      case_decide as Hcc.
      * subst c0. intros [= <-]. cbn. specialize (H1 c client s0 Hc).
        destruct (decide (s = s0)) as [<- | Hss]; [| set_solver].
        rewrite (subscribers_None ws s Hs) in *. set_solver.
      * intros Hc0. by apply H1.
    + apply H2.
Qed.

Lemma onSubscribe_consistent (c : string) (symbols : list string) (ws : WebSocketService) :
  consistent ws → consistent (onSubscribe c symbols ws).
Proof.
  revert ws. induction symbols as [|s l IH]; intros ws H; cbn; [done |].
  apply IH. by apply subscribe_consistent.
Qed.

Lemma unsubscribeAll_consistent (c : string) (symbols : list string) (ws : WebSocketService) :
  consistent ws → consistent (unsubscribeAll c symbols ws).
Proof.
  revert ws. induction symbols as [|s l IH]; intros ws H; cbn; [done |].
  apply IH. by apply unsubscribe_consistent.
Qed.

Lemma disconnect_consistent (c : string) (ws : WebSocketService) :
  consistent ws → consistent (handleClientDisconnection c ws).
Proof.
  intros H. unfold handleClientDisconnection.
  destruct (clients ws !! c) as [client|] eqn:Hc; [| done].
  destruct (unsubscribeAll_consistent c (elements (subscribedSymbols client)) ws H)
    as [H1 H2].
  split.
  - intros c0 client0 s0. cbn [clients]. rewrite lookup_delete.
    case_decide; [done |]. intros Hc0. rewrite subscribers_same. by apply H1.
  - apply H2.
Qed.

Lemma connection_consistent (c : string) (ws : WebSocketService) :
  clients ws !! c = None →
  (∀ s, c ∉ subscribers ws s) →
  consistent ws → consistent (onConnection c ws).
Proof.
  intros Hfresh Hnot [H1 H2]. unfold onConnection. apply onSubscribe_consistent. split.
  - intros c0 client0 s0. cbn [clients]. rewrite lookup_insert, subscribers_same.
    case_decide as Hcc; [| by apply H1].
    subst c0. intros [= <-]. cbn. specialize (Hnot s0). set_solver.
  - apply H2.
Qed.

Lemma initial_consistent : consistent initial.
Proof.
  split.
  - intros c client s H. unfold initial in H. cbn in H. by rewrite lookup_empty in H.
  - intros s S H. unfold initial in H. cbn in H. by rewrite lookup_empty in H.
Qed.

(** C9. Each of [subscribe], [unsubscribe] and disconnect keeps the
    registry consistent: for every connected client [C] and symbol [S], [C]
    is among the subscribers of [S] exactly when [S] is in [C]'s
    subscribed-symbols set, and no symbol is mapped to an empty subscriber
    set. *)
Theorem registry_operations_keep_consistency
    (c : string) (symbols : list string) (ws : WebSocketService) :
  consistent ws →
  consistent (onSubscribe c symbols ws) ∧
  consistent (onUnsubscribe c symbols ws) ∧
  consistent (handleClientDisconnection c ws).
Proof.
  intros H. split; [by apply onSubscribe_consistent |].
  split; [by apply unsubscribeAll_consistent | by apply disconnect_consistent].
Qed.

Lemma registry_operations_keep_consistency_witness :
  consistent (onSubscribe "c1" ["NVDA"] (onConnection "c1" initial)) ∧
  consistent (onUnsubscribe "c1" ["NVDA"] (onConnection "c1" initial)) ∧
  consistent (handleClientDisconnection "c1" (onConnection "c1" initial)).
Proof.
  apply (registry_operations_keep_consistency "c1").
  apply connection_consistent.
  - reflexivity.
  - intros s. unfold subscribers, initial. cbn. rewrite lookup_empty. cbn.
    apply not_elem_of_empty.
  - apply initial_consistent.
Defined.

(** *** Poll targets and stream subscriptions *)










Lemma unsubscribe_client_stays (c s1 : string) (ws : WebSocketService) :
  is_Some (clients ws !! c) → is_Some (clients (unsubscribeClientFromSymbol c s1 ws) !! c).
Proof.
  intros [client Hc]. unfold unsubscribeClientFromSymbol. rewrite Hc.
  destruct (symbolSubscriptions ws !! s1) as [S|]; [case_bool_decide |];
    cbn; rewrite lookup_insert_eq; eauto.
Qed.






(** *** The visiting order of a disconnect does not matter *)

Lemma service_eq (m1 m2 : Market.MarketDataService) :
  Market.cacheService m1 = Market.cacheService m2 →
  Market.subscribedSymbols m1 = Market.subscribedSymbols m2 →
  Market.requestQueue m1 = Market.requestQueue m2 →
  Market.lastRequestTime m1 = Market.lastRequestTime m2 →
  Market.requestCount m1 = Market.requestCount m2 →
  m1 = m2.
Proof. destruct m1, m2. cbn. by intros -> -> -> -> ->. Qed.

Lemma unsubscribeFromSymbol_eq (s : string) (m : Market.MarketDataService) :
  Market.unsubscribeFromSymbol s m =
  Market.mkService (Market.cacheService m) (Market.subscribedSymbols m ∖ {[s]})
                   (Market.requestQueue m) (Market.lastRequestTime m)
                   (Market.requestCount m).
Proof.
  unfold Market.unsubscribeFromSymbol. case_bool_decide as Hin; [done |].
  apply service_eq; try done. cbn. apply set_eq. intros x.
  rewrite elem_of_difference, elem_of_singleton. split; [| tauto].
  intros Hx. split; [done |]. by intros ->.
Qed.

Lemma unsubscribeFromSymbol_comm (s1 s2 : string) (m : Market.MarketDataService) :
  Market.unsubscribeFromSymbol s1 (Market.unsubscribeFromSymbol s2 m)
  = Market.unsubscribeFromSymbol s2 (Market.unsubscribeFromSymbol s1 m).
Proof.
  rewrite !unsubscribeFromSymbol_eq. cbn. f_equal. apply set_eq. intros x.
  rewrite !elem_of_difference. tauto.
Qed.

(** The subscriber entry of [s] after client [c] left it: dropped when it
    becomes empty. *)
Lemma unsubscribe_lookup (c s k : string) (ws : WebSocketService) :
  is_Some (clients ws !! c) →
  symbolSubscriptions (unsubscribeClientFromSymbol c s ws) !! k =
  if decide (k = s)
  then subs ← symbolSubscriptions ws !! s;
       if bool_decide (size (subs ∖ {[c]}) = 0%nat) then None else Some (subs ∖ {[c]})
  else symbolSubscriptions ws !! k.
Proof.
  intros [client Hc]. unfold unsubscribeClientFromSymbol. rewrite Hc.
  destruct (symbolSubscriptions ws !! s) as [S|] eqn:Hs; cbn.
  - case_bool_decide; cbn.
    + rewrite lookup_delete. by repeat case_decide.
    + rewrite lookup_insert. by repeat case_decide.
  - case_decide; [by subst k | done].
Qed.

Lemma unsubscribe_clients (c s : string) (ws : WebSocketService) (client : SocketClient) :
  clients ws !! c = Some client →
  clients (unsubscribeClientFromSymbol c s ws)
  = <[c := withSymbols (λ X, X ∖ {[s]}) client]> (clients ws).
Proof.
  intros Hc. unfold unsubscribeClientFromSymbol. rewrite Hc.
  destruct (symbolSubscriptions ws !! s); [case_bool_decide |]; done.
Qed.

Lemma unsubscribe_service (c s : string) (ws : WebSocketService) :
  is_Some (clients ws !! c) →
  marketDataService (unsubscribeClientFromSymbol c s ws) =
  match symbolSubscriptions ws !! s with
  | Some subs => if bool_decide (size (subs ∖ {[c]}) = 0%nat)
                 then Market.unsubscribeFromSymbol s (marketDataService ws)
                 else marketDataService ws
  | None => marketDataService ws
  end.
Proof.
  intros [client Hc]. unfold unsubscribeClientFromSymbol. rewrite Hc.
  destruct (symbolSubscriptions ws !! s); [case_bool_decide |]; done.
Qed.

Lemma registry_eq (w1 w2 : WebSocketService) :
  clients w1 = clients w2 →
  symbolSubscriptions w1 = symbolSubscriptions w2 →
  marketDataService w1 = marketDataService w2 →
  w1 = w2.
Proof. destruct w1, w2. cbn. by intros -> -> ->. Qed.

Lemma unsubscribeClientFromSymbol_comm (c s1 s2 : string) (ws : WebSocketService) :
  unsubscribeClientFromSymbol c s1 (unsubscribeClientFromSymbol c s2 ws)
  = unsubscribeClientFromSymbol c s2 (unsubscribeClientFromSymbol c s1 ws).
Proof.
  destruct (decide (s1 = s2)) as [-> | Hne]; [done |].
  destruct (clients ws !! c) as [client|] eqn:Hc.
  2: { unfold unsubscribeClientFromSymbol. by rewrite !Hc. }
  assert (Hsome : is_Some (clients ws !! c)) by eauto.
  pose proof (unsubscribe_client_stays c s1 ws Hsome) as Hsome1.
  pose proof (unsubscribe_client_stays c s2 ws Hsome) as Hsome2.
  apply registry_eq.
  - pose proof (unsubscribe_clients c s1 ws client Hc) as E1.
    pose proof (unsubscribe_clients c s2 ws client Hc) as E2.
    rewrite (unsubscribe_clients c s1 (unsubscribeClientFromSymbol c s2 ws)
               (withSymbols (λ X, X ∖ {[s2]}) client))
      by (rewrite E2; apply lookup_insert_eq).
    rewrite (unsubscribe_clients c s2 (unsubscribeClientFromSymbol c s1 ws)
               (withSymbols (λ X, X ∖ {[s1]}) client))
      by (rewrite E1; apply lookup_insert_eq).
    rewrite E1, E2, !insert_insert_eq. f_equal. unfold withSymbols. cbn. f_equal.
    apply set_eq. intros x. rewrite !elem_of_difference. tauto.
  - apply map_eq. intros k.
    rewrite !unsubscribe_lookup by done.
    rewrite (decide_False (P := s1 = s2)) by done.
    rewrite (decide_False (P := s2 = s1)) by done.
    repeat case_decide; congruence.
  - rewrite !unsubscribe_service by done.
    rewrite !unsubscribe_lookup by done.
    rewrite (decide_False (P := s1 = s2)) by done.
    rewrite (decide_False (P := s2 = s1)) by done.
    destruct (symbolSubscriptions ws !! s1) as [S1|];
      destruct (symbolSubscriptions ws !! s2) as [S2|];
      repeat case_bool_decide; try done.
    apply unsubscribeFromSymbol_comm.
Qed.

Lemma unsubscribeAll_perm (c : string) (l1 l2 : list string) (ws : WebSocketService) :
  l1 ≡ₚ l2 → unsubscribeAll c l1 ws = unsubscribeAll c l2 ws.
Proof.
  intros Hperm. revert ws.
  induction Hperm as [| s l l' _ IH | s1 s2 l | l l' l'' _ IH1 _ IH2]; intros ws.
  - done.
  - cbn. apply IH.
  - cbn. by rewrite unsubscribeClientFromSymbol_comm.
  - by rewrite IH1.
Qed.

(** Whatever order the [forEach] of a disconnect visits the client's
    symbols in (JavaScript: insertion order), the outcome is the one
    computed by [handleClientDisconnection]. *)
Lemma disconnect_any_order (c : string) (ws : WebSocketService) (client : SocketClient)
    (order : list string) :
  clients ws !! c = Some client →
  order ≡ₚ elements (subscribedSymbols client) →
  handleClientDisconnection c ws =
  let ws' := unsubscribeAll c order ws in
  mkWs (delete c (clients ws')) (symbolSubscriptions ws') (marketDataService ws').
Proof.
  intros Hc Hperm. unfold handleClientDisconnection. rewrite Hc.
  by rewrite (unsubscribeAll_perm c _ _ ws Hperm).
Qed.







End RegistryFacts.

(** * Further properties *)

(** ** The cache: generic slots, typed stores, sweep *)

Module CacheStoresFacts.
Import Cache CacheStores.

Lemma get_fst (key : string) (t : Z) (c : CacheService) :
  (get key t c).1 = value <$> liveOnly t (memoryCache c !! key).
Proof.
  unfold get, liveOnly. destruct (memoryCache c !! key) as [e|]; [| done].
  by destruct (t <? expiry e).
Qed.

Lemma liveOnly_later (now t : Z) (o : option CacheEntry) :
  now ≤ t → liveOnly t (liveOnly now o) = liveOnly t o.
Proof.
  intros Hle. destruct o as [e|]; [| done]. cbn.
  destruct (Z.ltb_spec now (expiry e)); [done |]. cbn.
  destruct (Z.ltb_spec t (expiry e)); [lia | done].
Qed.

(** A value written with [set] is read back unchanged until its time to
    live has passed, and reads as [null] from then on, the slot being
    reclaimed by that read; no other key is affected by the write. *)
Theorem set_get_roundtrip (key : string) (v : Json) (ttl now t : Z) (c : CacheService) :
  (t < now + ttl * 1000 →
     get key t (set key v ttl now c) = (Some v, set key v ttl now c)) ∧
  (now + ttl * 1000 ≤ t →
     get key t (set key v ttl now c) = (None, mkCache (delete key (memoryCache c)))) ∧
  (∀ k, k ≠ key → (get k t (set key v ttl now c)).1 = (get k t c).1).
Proof.
  split; [| split].
  - intros Hlt. unfold get, set. cbn. rewrite lookup_insert_eq. cbn.
    destruct (Z.ltb_spec t (now + ttl * 1000)); [done | lia].
  - intros Hge. unfold get, set. cbn. rewrite lookup_insert_eq. cbn.
    destruct (Z.ltb_spec t (now + ttl * 1000)); [lia |].
    by rewrite delete_insert_eq.
  - intros k Hk. rewrite !get_fst. unfold set. cbn. by rewrite lookup_insert_ne.
Qed.

Lemma set_get_roundtrip_witness :
  get "k" 300999 (set "k" (JStr "v") 300 1000 empty)
    = (Some (JStr "v"), set "k" (JStr "v") 300 1000 empty) ∧
  get "k" 301000 (set "k" (JStr "v") 300 1000 empty) = (None, empty).
Proof.
  destruct (set_get_roundtrip "k" (JStr "v") 300 1000 300999 empty) as (H1 & _ & _).
  destruct (set_get_roundtrip "k" (JStr "v") 300 1000 301000 empty) as (_ & H2 & _).
  split; [apply H1; lia |]. rewrite H2 by lia. reflexivity.
Defined.

(** [del] makes the key read as [null] at any time and touches nothing
    else; deleting a missing key changes nothing, and a delete cancels a
    preceding [set] of the same key. *)
Theorem del_removes_only_its_key (key : string) (t : Z) (c : CacheService) :
  get key t (del key c) = (None, del key c) ∧
  (∀ k, k ≠ key → memoryCache (del key c) !! k = memoryCache c !! k) ∧
  (memoryCache c !! key = None → del key c = c) ∧
  (∀ v ttl now, del key (set key v ttl now c) = del key c).
Proof.
  split; [| split; [| split]].
  - unfold get, del. cbn. by rewrite lookup_delete_eq.
  - intros k Hk. unfold del. cbn. by rewrite lookup_delete_ne.
  - intros Hnone. unfold del. rewrite delete_id by done. by destruct c.
  - intros v ttl now. unfold del, set. cbn. by rewrite delete_insert_eq.
Qed.

Lemma del_removes_only_its_key_witness :
  del "k" empty = empty.
Proof.
  destruct (del_removes_only_its_key "k" 0 empty) as (_ & _ & H & _).
  apply H. reflexivity.
Defined.

(** *** The periodic sweep *)

Lemma cleanup_lookup (now : Z) (c : CacheService) (k : string) :
  memoryCache (cleanup now c) !! k = liveOnly now (memoryCache c !! k).
Proof.
  unfold cleanup, liveOnly. cbn. rewrite map_lookup_filter.
  destruct (memoryCache c !! k) as [e|]; [| done]. cbn.
  destruct (Z.ltb_spec now (expiry e)).
  - by rewrite option_guard_True.
  - rewrite option_guard_False; [done | lia].
Qed.

(** The sweep removes exactly the expired entries.  It is invisible to
    readers: any read at or after the time of the sweep returns what it
    would have returned without it.  Sweeping twice is sweeping once. *)
Theorem cleanup_is_transparent (now : Z) (c : CacheService) :
  (∀ k e, memoryCache (cleanup now c) !! k = Some e ↔
          memoryCache c !! k = Some e ∧ now < expiry e) ∧
  (∀ k t, now ≤ t → (get k t (cleanup now c)).1 = (get k t c).1) ∧
  (∀ s t, now ≤ t → (getMarketData s t (cleanup now c)).1 = (getMarketData s t c).1) ∧
  cleanup now (cleanup now c) = cleanup now c.
Proof.
  split; [| split; [| split]].
  - intros k e. rewrite cleanup_lookup. unfold liveOnly.
    destruct (memoryCache c !! k) as [e'|]; [| by split; [| intros []]].
    destruct (Z.ltb_spec now (expiry e')); split.
    + intros [= <-]. done.
    + by intros [? _].
    + done.
    + intros [[= <-] ?]. lia.
  - intros k t Hle. rewrite !get_fst, cleanup_lookup. by rewrite liveOnly_later.
  - intros s t Hle. rewrite !CacheFacts.getMarketData_fst, cleanup_lookup.
    by rewrite liveOnly_later.
  - assert (H : memoryCache (cleanup now (cleanup now c)) = memoryCache (cleanup now c)).
    { apply map_eq. intros k. rewrite !cleanup_lookup. apply CacheFacts.liveOnly_idemp. }
    destruct (cleanup now (cleanup now c)), (cleanup now c). cbn in H. by rewrite H.
Qed.

Lemma cleanup_is_transparent_witness :
  (getMarketData "AAPL" 70000 (cleanup 61000 Examples.oneSlot)).1
  = (getMarketData "AAPL" 70000 Examples.oneSlot).1.
Proof.
  destruct (cleanup_is_transparent 61000 Examples.oneSlot) as (_ & _ & H & _).
  apply H. lia.
Defined.

(** *** The typed stores *)

Lemma typed_keys_distinct (s sym tf u u' x : string) :
  marketKey s ≠ sessionKey u ∧ marketKey s ≠ portfolioKey u ∧
  marketKey s ≠ candlesKey sym tf ∧
  sessionKey u ≠ portfolioKey u' ∧ sessionKey u ≠ candlesKey sym tf ∧
  portfolioKey u ≠ candlesKey sym tf ∧
  Market.simulatedKey x ≠ sessionKey u ∧ Market.simulatedKey x ≠ portfolioKey u ∧
  Market.simulatedKey x ≠ candlesKey sym tf.
Proof.
  unfold marketKey, sessionKey, portfolioKey, candlesKey, Market.simulatedKey.
  repeat split; intros H; by simplify_eq/=.
Qed.

Lemma store_read (key : string) (t : Z) (c : CacheService) :
  (match memoryCache c !! key with
   | Some cached =>
       if (t <? expiry cached)%Z
       then (Some (value cached), c)
       else (None, mkCache (delete key (memoryCache c)))
   | None => (None, c)
   end).1 = value <$> liveOnly t (memoryCache c !! key).
Proof.
  unfold liveOnly. destruct (memoryCache c !! key) as [e|]; [| done].
  by destruct (t <? expiry e).
Qed.

(** Times to live of the typed stores: candlesticks and portfolios are
    served for 300 s, sessions for 3600 s; each reads as [null] from the
    millisecond its time is up, and a deleted session or an invalidated
    portfolio reads as [null] at once. *)
Theorem typed_store_lifetimes (sym tf u : string) (v : Json) (now t : Z) (c : CacheService) :
  (getCandlestickData sym tf t (setCandlestickData sym tf v now c)).1
    = (if t <? now + 300000 then Some v else None) ∧
  (getUserSession u t (setUserSession u v now c)).1
    = (if t <? now + 3600000 then Some v else None) ∧
  (getPortfolioCache u t (setPortfolioCache u v now c)).1
    = (if t <? now + 300000 then Some v else None) ∧
  (getUserSession u t (deleteUserSession u (setUserSession u v now c))).1 = None ∧
  (getPortfolioCache u t (invalidatePortfolioCache u (setPortfolioCache u v now c))).1 = None.
Proof.
  unfold getCandlestickData, getUserSession, getPortfolioCache. cbv zeta.
  rewrite !store_read.
  unfold setCandlestickData, setUserSession, setPortfolioCache, deleteUserSession,
    invalidatePortfolioCache. cbn.
  rewrite !lookup_insert_eq, !lookup_delete_eq. cbn.
  repeat split.
  - by destruct (t <? now + 300000).
  - by destruct (t <? now + 3600000).
  - by destruct (t <? now + 300000).
Qed.

(** The stores do not interfere: ending a session, invalidating or caching
    a portfolio, caching candlesticks or a session never changes what a
    quote read returns, and neither a quote write nor a portfolio
    invalidation changes what a session read returns. *)
Theorem typed_stores_do_not_interfere
    (s sym tf u u' : string) (v : Json) (d : MarketData) (now t : Z) (c : CacheService) :
  (getMarketData s t (deleteUserSession u c)).1 = (getMarketData s t c).1 ∧
  (getMarketData s t (invalidatePortfolioCache u c)).1 = (getMarketData s t c).1 ∧
  (getMarketData s t (setUserSession u v now c)).1 = (getMarketData s t c).1 ∧
  (getMarketData s t (setPortfolioCache u v now c)).1 = (getMarketData s t c).1 ∧
  (getMarketData s t (setCandlestickData sym tf v now c)).1 = (getMarketData s t c).1 ∧
  (getUserSession u t (setMarketData s d now c)).1 = (getUserSession u t c).1 ∧
  (getUserSession u t (invalidatePortfolioCache u' c)).1 = (getUserSession u t c).1 ∧
  (getPortfolioCache u t (deleteUserSession u' c)).1 = (getPortfolioCache u t c).1.
Proof.
  destruct (typed_keys_distinct s sym tf u u' s) as (H1 & H2 & H3 & H4 & H5 & H6 & _).
  destruct (typed_keys_distinct s sym tf u' u s) as (_ & _ & _ & H4' & _).
  unfold getUserSession, getPortfolioCache. cbv zeta.
  rewrite !CacheFacts.getMarketData_fst, !store_read.
  unfold setCandlestickData, setUserSession, setPortfolioCache, deleteUserSession,
    invalidatePortfolioCache, setMarketData. cbn.
  repeat split.
  - by rewrite lookup_delete_ne.
  - by rewrite lookup_delete_ne.
  - by rewrite lookup_insert_ne.
  - by rewrite lookup_insert_ne.
  - by rewrite lookup_insert_ne.
  - by rewrite lookup_insert_ne.
  - by rewrite lookup_delete_ne.
  - by rewrite lookup_delete_ne.
Qed.

End CacheStoresFacts.


(** ** The pollers, the on-demand read and the generator *)

Module MarketMoreFacts.
Import Market MarketMore.
Import MarketFacts.

(** *** Batches *)

Lemma batchesOf_nil (fuel size : nat) : batchesOf fuel size [] = [].
Proof. by destruct fuel. Qed.

Lemma batchesOf_cut (fuel size : nat) (l : list string) :
  (0 < size)%nat → (length l ≤ fuel)%nat →
  concat (batchesOf fuel size l) = l ∧
  Forall (λ b, (0 < length b ≤ size)%nat) (batchesOf fuel size l) ∧
  ∀ i b, batchesOf fuel size l !! i = Some b →
         (S i < length (batchesOf fuel size l))%nat → length b = size.
Proof.
  intros Hsize. revert l. induction fuel as [|fuel IH]; intros l Hlen.
  - destruct l; [| cbn in Hlen; lia]. cbn. repeat split; [constructor | by intros []].
  - destruct l as [|a l]; [cbn; repeat split; [constructor | by intros []] |].
    destruct (IH (drop size (a :: l))) as (Hcat & Hall & Hfull).
    { rewrite length_drop. cbn in *. lia. }
    cbn [batchesOf]. repeat split.
    + cbn [concat]. by rewrite Hcat, take_drop.
    + constructor; [| done]. rewrite length_take. cbn [length]. lia.
    + intros [|i] b Hb Hi; cbn in Hb, Hi.
      * injection Hb as <-. rewrite length_take.
        destruct (decide (size < length (a :: l))%nat) as [|Hshort]; [lia |].
        rewrite drop_ge in Hi by lia. rewrite batchesOf_nil in Hi. cbn in Hi. lia.
      * apply (Hfull i b Hb). lia.
Qed.

(** The batches of a poll (and of the initial load) cut the list into
    consecutive pieces: concatenated they give the list back, none is empty
    or longer than the batch size, and every one but the last is full. *)
Theorem batches_partition (size : nat) (l : list string) :
  (0 < size)%nat →
  concat (batchesOf (length l) size l) = l ∧
  Forall (λ b, (0 < length b ≤ size)%nat) (batchesOf (length l) size l) ∧
  ∀ i b, batchesOf (length l) size l !! i = Some b →
         (S i < length (batchesOf (length l) size l))%nat → length b = size.
Proof. intros Hsize. by apply batchesOf_cut. Qed.

Lemma batches_partition_witness :
  concat (batchesOf (length allSymbols) 8 allSymbols) = allSymbols.
Proof. apply (batches_partition 8 allSymbols). lia. Defined.

(** *** What a fetch sends *)

Lemma fetchesOf_app (l1 l2 : list Sent) :
  fetchesOf (l1 ++ l2) = (fetchesOf l1 ++ fetchesOf l2)%list.
Proof. unfold fetchesOf. by rewrite fmap_app, filter_app. Qed.

Lemma fetchesOf_none (l : list Sent) :
  Forall (λ e, isFetch (request e) = false) l → fetchesOf l = [].
Proof.
  unfold fetchesOf. induction 1 as [|e l He _ IH]; [done |].
  rewrite fmap_cons, filter_cons_False; [done | congruence].
Qed.

(** One call of [fetchAlpacaData] returns, and sends either no fetch
    request or the one of its symbol; a forex symbol sends none. *)
Lemma fetchAlpacaData_sent (symbol : string) (env : FetchEnv) (w : World) :
  ∃ r extra,
    (fetchAlpacaData symbol env w).1 = Returned r ∧
    sent (fetchAlpacaData symbol env w).2 = (sent w ++ extra)%list ∧
    (fetchesOf extra = [] ∨
     (isForexSymbol symbol = false ∧ is_Some r ∧ fetchesOf extra = [fetchRequest symbol])).
Proof.
  destruct (isForexSymbol symbol) eqn:Hfx.
  - destruct (fetchAlpacaData_forex symbol env w Hfx) as (q & Hgen & Hret).
    rewrite generateSimulatedData_eq in Hgen. cbv zeta in Hgen.
    exists (Some q), []. rewrite Hret. split; [done |]. split; [| by left].
    injection Hgen as _ <-. cbn. by rewrite app_nil_r.
  - destruct (Z_lt_le_dec (requestCount (resetIfWindowPassed (now env) (svc w)))
                          maxRequestsPerWindow) as [Hlt | Hle].
    + destruct (fetchAlpacaData_admitted_call symbol env w Hfx Hlt)
        as (q & c' & extra & -> & Hextra & _ & _).
      exists (Some q), (mkSent (fetchRequest symbol) (now env)
                          (lastRequestTime (resetIfWindowPassed (now env) (svc w))) :: extra).
      cbn. split; [done |]. split; [done |]. right.
      split; [done |]. split; [by eexists |].
      rewrite decide_True by apply isFetch_fetchRequest.
      f_equal. by apply fetchesOf_none.
    + rewrite (fetchAlpacaData_exhausted symbol env w Hfx Hle). cbn.
      exists None, []. rewrite app_nil_r. split; [done |]. split; [done | by left].
Qed.


Lemma sendsWithin_ret {A} (a : A) : sendsWithin (mret a) [].
Proof. intros w. exists a, []. cbn. by rewrite app_nil_r. Qed.

Lemma sendsWithin_weaken {A} (m : M A) (l l' : list Request) :
  sendsWithin m l → l `sublist_of` l' → sendsWithin m l'.
Proof.
  intros Hm Hl w. destruct (Hm w) as (a & extra & H1 & H2 & H3).
  exists a, extra. repeat split; [done | done | by etrans].
Qed.

Lemma sendsWithin_bind {A B} (m : M A) (k : A → M B) (l1 l2 : list Request) :
  sendsWithin m l1 → (∀ a, sendsWithin (k a) l2) → sendsWithin (m ≫= k) (l1 ++ l2).
Proof.
  intros Hm Hk w. destruct (Hm w) as (a & e1 & H1 & H2 & H3).
  destruct (Hk a (m w).2) as (b & e2 & K1 & K2 & K3).
  exists b, (e1 ++ e2)%list. unfold mbind, M_bind, bind.
  destruct (m w) as [[a'|msg] w1]; cbn in *; [| done]. injection H1 as ->.
  split; [done |]. split; [by rewrite K2, H2, app_assoc |].
  rewrite fetchesOf_app. by apply sublist_app.
Qed.

Lemma sendsWithin_tryCatch {A} (body : M A) (handler : string → M A) (l : list Request) :
  sendsWithin body l → sendsWithin (tryCatch body handler) l.
Proof.
  intros Hm w. destruct (Hm w) as (a & e1 & H1 & H2 & H3).
  exists a, e1. unfold tryCatch. destruct (body w) as [[a'|msg] w1]; cbn in *; [| done].
  by injection H1 as ->.
Qed.

Lemma sendsWithin_liftCache {A} (f : Cache.CacheService → A * Cache.CacheService) :
  sendsWithin (liftCache f) [].
Proof.
  intros w. unfold liftCache. destruct (f (cacheService (svc w))) as [a c'].
  exists a, []. cbn. by rewrite app_nil_r.
Qed.

Lemma sendsWithin_notifyCallbacks (d : MarketData) : sendsWithin (notifyCallbacks d) [].
Proof. intros w. exists tt, []. cbn. by rewrite app_nil_r. Qed.

Lemma sendsWithin_processMarketData (d : MarketData) (clock : Z) :
  sendsWithin (processMarketData d clock) [].
Proof.
  apply (sendsWithin_bind _ _ [] []); [apply sendsWithin_liftCache |].
  intros _. apply sendsWithin_notifyCallbacks.
Qed.

Lemma sendsWithin_forEachM {A B} (f : A → M B) (req : A → list Request) (l : list A) :
  (∀ a, sendsWithin (f a) (req a)) → sendsWithin (forEachM f l) (l ≫= req).
Proof.
  intros Hf. induction l as [|a l IH]; [apply sendsWithin_ret |].
  cbn [forEachM]. rewrite bind_cons.
  apply sendsWithin_bind; [apply Hf |]. intros b.
  rewrite <- (app_nil_r (l ≫= req)).
  apply sendsWithin_bind; [apply IH |]. intros bs. apply sendsWithin_ret.
Qed.

Lemma sendsWithin_fetchAlpacaData (symbol : string) (env : FetchEnv) :
  sendsWithin (fetchAlpacaData symbol env) (requestsFor symbol).
Proof.
  intros w. destruct (fetchAlpacaData_sent symbol env w) as (r & extra & H1 & H2 & H3).
  exists r, extra. split; [done |]. split; [done |].
  destruct H3 as [-> | (Hfx & _ & ->)]; [apply sublist_nil_l |].
  unfold requestsFor. by rewrite Hfx.
Qed.

Lemma sendsWithin_updateOne (envOf : string → FetchEnv) (symbol : string) :
  sendsWithin (updateOne envOf symbol) (requestsFor symbol).
Proof.
  apply sendsWithin_tryCatch. rewrite <- (app_nil_r (requestsFor symbol)).
  apply sendsWithin_bind; [apply sendsWithin_fetchAlpacaData |].
  intros [d|]; [| apply sendsWithin_ret].
  apply (sendsWithin_bind _ _ [] []); [apply sendsWithin_liftCache |].
  intros _. apply sendsWithin_ret.
Qed.

Lemma sendsWithin_initialFetchOne (envOf : string → FetchEnv) (symbol : string) :
  sendsWithin (initialFetchOne envOf symbol) (requestsFor symbol).
Proof.
  apply sendsWithin_tryCatch. rewrite <- (app_nil_r (requestsFor symbol)).
  apply sendsWithin_bind; [apply sendsWithin_fetchAlpacaData |].
  intros [d|]; [| apply sendsWithin_ret].
  apply (sendsWithin_bind _ _ [] []); [apply sendsWithin_liftCache |].
  intros _. apply (sendsWithin_bind _ _ [] []); [apply sendsWithin_processMarketData |].
  intros _. apply sendsWithin_ret.
Qed.

Lemma sendsWithin_batches {B} (f : string → M B) (batches : list (list string)) :
  (∀ s, sendsWithin (f s) (requestsFor s)) →
  sendsWithin (forEachM (forEachM f) batches) (concat batches ≫= requestsFor).
Proof.
  intros Hf.
  assert (concat batches ≫= requestsFor = batches ≫= (λ b, b ≫= requestsFor)) as ->.
  { induction batches as [|b bs IH]; [done |].
    cbn [concat]. by rewrite bind_app, bind_cons, IH. }
  apply sendsWithin_forEachM. intros b. by apply sendsWithin_forEachM.
Qed.


(** *** The pollers *)

Lemma getMarketData_after_read (s s0 : string) (clock : Z) (c : Cache.CacheService) :
  (Cache.getMarketData s0 clock (Cache.getMarketData s clock c).2).1
  = (Cache.getMarketData s0 clock c).1.
Proof.
  rewrite !CacheFacts.getMarketData_fst, CacheFacts.getMarketData_snd_lookup.
  case_decide; [by rewrite CacheFacts.liveOnly_idemp | done].
Qed.

Lemma staleIn_after_read (s : string) (clock th : Z) (c : Cache.CacheService)
    (l : list string) :
  staleIn (Cache.getMarketData s clock c).2 clock th l = staleIn c clock th l.
Proof.
  unfold staleIn. induction l as [|s0 l IH]; [done |].
  rewrite !filter_cons, IH, getMarketData_after_read. done.
Qed.

Lemma staleIn_cons (s : string) (clock th : Z) (c : Cache.CacheService) (l : list string) :
  staleIn c clock th (s :: l) =
  if needsUpdate clock th (Cache.getMarketData s clock c).1
  then s :: staleIn c clock th l else staleIn c clock th l.
Proof.
  unfold staleIn. rewrite filter_cons.
  destruct (needsUpdate clock th _); [by rewrite decide_True | by rewrite decide_False].
Qed.

(** The filter loop of a poll: its result is read off the cache it starts
    from, and it changes nothing but expired quote slots, which it drops. *)
Lemma symbolsNeedingUpdate_eq (l : list string) (clock th : Z) (w : World) :
  ∃ c1,
    symbolsNeedingUpdate l clock th w =
    (Returned (staleIn (cacheService (svc w)) clock th l),
     mkWorld (with_cache c1 (svc w)) (sent w) (notified w)) ∧
    ∀ s, (Cache.getMarketData s clock c1).1
         = (Cache.getMarketData s clock (cacheService (svc w))).1.
Proof.
  revert w. induction l as [|s l IH]; intros w.
  - exists (cacheService (svc w)). split; [| done].
    destruct w as [[c subs q last cnt] snt ntf]. reflexivity.
  - cbn [symbolsNeedingUpdate]. unfold mbind at 1, M_bind, bind. unfold liftCache at 1.
    destruct (Cache.getMarketData s clock (cacheService (svc w))) as [r c'] eqn:Hget.
    assert (Hr : r = (Cache.getMarketData s clock (cacheService (svc w))).1)
      by (by rewrite Hget).
    assert (Hc' : c' = (Cache.getMarketData s clock (cacheService (svc w))).2)
      by (by rewrite Hget).
    destruct (IH (mkWorld (with_cache c' (svc w)) (sent w) (notified w))) as (c1 & Heq & Hlook).
    unfold mbind at 1, M_bind, bind. rewrite Heq. cbn -[staleIn].
    exists c1. split.
    + f_equal. f_equal. rewrite Hc', staleIn_after_read, staleIn_cons, <- Hr. done.
    + intros s0. rewrite Hlook. cbn. rewrite Hc'. apply getMarketData_after_read.
Qed.

Lemma updateSymbolBatch_eq (symbols : list string) (p : Priority) (th clock : Z)
    (envOf : string → FetchEnv) (w : World) :
  ∃ c1,
    updateSymbolBatch symbols p th clock envOf w =
    match staleIn (cacheService (svc w)) clock th symbols with
    | [] => mret []
    | needing => forEachM (forEachM (updateOne envOf))
                          (batchesOf (length needing) (batchSize p) needing)
    end (mkWorld (with_cache c1 (svc w)) (sent w) (notified w)) ∧
    ∀ s, (Cache.getMarketData s clock c1).1
         = (Cache.getMarketData s clock (cacheService (svc w))).1.
Proof.
  destruct (symbolsNeedingUpdate_eq symbols clock th w) as (c1 & Heq & Hread).
  exists c1. split; [| done].
  unfold updateSymbolBatch, mbind, M_bind, bind. rewrite Heq.
  by destruct (staleIn (cacheService (svc w)) clock th symbols).
Qed.

(** A poll never throws, and the fetch requests it sends are, in order,
    requests for symbols of its list that are missing from the cache or
    older than the tier's threshold, at most one for each and none for a
    forex pair. *)
Theorem poll_fetches_only_stale_symbols
    (symbols : list string) (p : Priority) (th clock : Z)
    (envOf : string → FetchEnv) :
  ∀ w, ∃ flags extra,
    (updateSymbolBatch symbols p th clock envOf w).1 = Returned flags ∧
    sent (updateSymbolBatch symbols p th clock envOf w).2 = (sent w ++ extra)%list ∧
    fetchesOf extra `sublist_of`
      (staleIn (cacheService (svc w)) clock th symbols ≫= requestsFor).
Proof.
  intros w. destruct (updateSymbolBatch_eq symbols p th clock envOf w) as (c1 & -> & _).
  set (needing := staleIn (cacheService (svc w)) clock th symbols).
  set (w1 := mkWorld (with_cache c1 (svc w)) (sent w) (notified w)).
  assert (Hb : sendsWithin
                 (forEachM (forEachM (updateOne envOf))
                    (batchesOf (length needing) (batchSize p) needing))
                 (needing ≫= requestsFor)).
  { destruct (batchesOf_cut (length needing) (batchSize p) needing) as (Hcat & _).
    - destruct p; cbn; lia.
    - done.
    - rewrite <- Hcat at 3. apply sendsWithin_batches, sendsWithin_updateOne. }
  destruct needing as [|s l] eqn:Hn.
  - exists [], []. cbn. rewrite app_nil_r. done.
  - destruct (Hb w1) as (flags & extra & H1 & H2 & H3). by exists flags, extra.
Qed.

(** A poll that finds every symbol of its list cached and within the
    threshold sends nothing, leaves the rate counter and its window alone,
    notifies nobody and changes no quote read. *)
Theorem fresh_poll_is_silent
    (symbols : list string) (p : Priority) (th clock : Z)
    (envOf : string → FetchEnv) (w : World) :
  (∀ s, s ∈ symbols →
        ∃ d, (Cache.getMarketData s clock (cacheService (svc w))).1 = Some d ∧
             clock - timestamp d ≤ th) →
  let w' := (updateSymbolBatch symbols p th clock envOf w).2 in
  (updateSymbolBatch symbols p th clock envOf w).1 = Returned [] ∧
  sent w' = sent w ∧ notified w' = notified w ∧
  requestCount (svc w') = requestCount (svc w) ∧
  lastRequestTime (svc w') = lastRequestTime (svc w) ∧
  ∀ s, (Cache.getMarketData s clock (cacheService (svc w'))).1
       = (Cache.getMarketData s clock (cacheService (svc w))).1.
Proof.
  intros Hfresh. cbv zeta.
  destruct (updateSymbolBatch_eq symbols p th clock envOf w) as (c1 & -> & Hread).
  assert (staleIn (cacheService (svc w)) clock th symbols = []) as ->.
  { unfold staleIn. clear Hread. induction symbols as [|s l IH]; [done |].
    rewrite filter_cons. destruct (Hfresh s) as (d & -> & Hd); [by left |].
    cbn [needsUpdate]. destruct (Z.ltb_spec th (clock - timestamp d)); [lia |].
    rewrite decide_False by done. apply IH. intros s0 Hs0. apply Hfresh. by right. }
  cbn. done.
Qed.

Lemma fresh_poll_is_silent_witness :
  sent (updateSymbolBatch ["AAPL"] HIGH_PRIORITY 15000 5000
          (λ _, Examples.answeringEnv 5000)
          (mkWorld (with_cache Examples.oneSlot initial) [] [])).2 = [].
Proof.
  apply (fresh_poll_is_silent ["AAPL"] HIGH_PRIORITY 15000 5000
           (λ _, Examples.answeringEnv 5000)
           (mkWorld (with_cache Examples.oneSlot initial) [] [])).
  intros s ->%list_elem_of_singleton. exists Examples.older.
  split; [reflexivity | vm_compute; discriminate].
Defined.


(** *** The rate limiter after its window *)

(** Once more than [rateLimitWindow] ms have passed since the counting
    window began, a fetch of a symbol that is not a forex pair is let
    through whatever the counter says: it returns a quote for the symbol,
    the counter restarts at one and the window restarts at the clock of the
    call. *)
Theorem limiter_reopens_after_window (symbol : string) (env : FetchEnv) (w : World) :
  isForexSymbol symbol = false →
  rateLimitWindow < now env - lastRequestTime (svc w) →
  ∃ q,
    (fetchAlpacaData symbol env w).1 = Returned (Some q) ∧
    MD.symbol q = symbol ∧
    requestCount (svc (fetchAlpacaData symbol env w).2) = 1 ∧
    lastRequestTime (svc (fetchAlpacaData symbol env w).2) = now env ∧
    fetchesOf (drop (length (sent w)) (sent (fetchAlpacaData symbol env w).2))
      = [fetchRequest symbol].
Proof.
  intros Hfx Hpassed.
  assert (Hreset : resetIfWindowPassed (now env) (svc w)
                   = mkService (cacheService (svc w)) (subscribedSymbols (svc w))
                               (requestQueue (svc w)) (now env) 0).
  { unfold resetIfWindowPassed.
    destruct (Z.ltb_spec rateLimitWindow (now env - lastRequestTime (svc w))); [done | lia]. }
  destruct (fetchAlpacaData_admitted_call symbol env w Hfx) as (q & c' & extra & -> & Hx & Hq & _).
  { rewrite Hreset. cbn. unfold maxRequestsPerWindow. lia. }
  exists q. rewrite Hreset. cbn. repeat split; [done |].
  rewrite drop_app_length. unfold fetchesOf. rewrite fmap_cons. cbn [request].
  rewrite filter_cons_True by apply isFetch_fetchRequest.
  f_equal. by apply fetchesOf_none.
Qed.

Lemma limiter_reopens_after_window_witness :
  ∃ q, (fetchAlpacaData "AAPL" (Examples.failingEnv 70000 "Network Error")
                        Examples.exhaustedWorld).1 = Returned (Some q).
Proof.
  destruct (limiter_reopens_after_window "AAPL" (Examples.failingEnv 70000 "Network Error")
              Examples.exhaustedWorld) as (q & Hq & _).
  - reflexivity.
  - vm_compute. reflexivity.
  - by exists q.
Defined.

(** *** The on-demand read *)

Lemma fetchCacheStep_market (symbol s : string) (c c' : Cache.CacheService) :
  fetchCacheStep symbol c c' →
  Cache.memoryCache c' !! Cache.marketKey s = Cache.memoryCache c !! Cache.marketKey s.
Proof.
  intros [-> | (v & t & ->)]; [done |].
  unfold Cache.set. cbn.
  rewrite lookup_insert_ne by apply simulatedKey_not_marketKey.
  rewrite CacheFacts.get_snd_lookup, decide_False; [done |].
  intros H. symmetry in H. by apply simulatedKey_not_marketKey in H.
Qed.

(** How a call of [fetchAlpacaData] leaves the cache, in each of its three
    ways out. *)
Lemma fetchAlpacaData_cache_step (symbol : string) (env : FetchEnv) (w : World) :
  fetchCacheStep symbol (cacheService (svc w))
                 (cacheService (svc (fetchAlpacaData symbol env w).2)).
Proof.
  destruct (isForexSymbol symbol) eqn:Hfx.
  - destruct (fetchAlpacaData_forex symbol env w Hfx) as (q & Hgen & _).
    rewrite generateSimulatedData_eq in Hgen. cbv zeta in Hgen. injection Hgen as _ <-.
    right. eauto.
  - destruct (Z_lt_le_dec (requestCount (resetIfWindowPassed (now env) (svc w)))
                          maxRequestsPerWindow) as [Hlt | Hle].
    + by destruct (fetchAlpacaData_admitted_call symbol env w Hfx Hlt)
        as (q & c' & extra & -> & _ & _ & Hstep).
    + rewrite (fetchAlpacaData_exhausted symbol env w Hfx Hle). cbn. left.
      unfold resetIfWindowPassed. by destruct (_ <? _).
Qed.

(** A call of [fetchAlpacaData] changes no quote slot of the cache. *)
Lemma fetchAlpacaData_market_slots (symbol s : string) (env : FetchEnv) (w : World) :
  Cache.memoryCache (cacheService (svc (fetchAlpacaData symbol env w).2)) !! Cache.marketKey s
  = Cache.memoryCache (cacheService (svc w)) !! Cache.marketKey s.
Proof. apply (fetchCacheStep_market symbol), fetchAlpacaData_cache_step. Qed.

Lemma on_demand_read_cases (symbol : string) (clock : Z) (env : FetchEnv) (w : World) :
  (∃ r, (getMarketData symbol clock env w).1 = Returned r) ∧
  (∀ d, (Cache.getMarketData symbol clock (cacheService (svc w))).1 = Some d →
        getMarketData symbol clock env w = (Returned (Some d), w)) ∧
  ((Cache.getMarketData symbol clock (cacheService (svc w))).1 = None →
   let w1 := mkWorld (with_cache (Cache.getMarketData symbol clock (cacheService (svc w))).2
                                 (svc w)) (sent w) (notified w) in
   getMarketData symbol clock env w = fetchAlpacaData symbol env w1 ∧
   ∀ t, (Cache.getMarketData symbol t
           (cacheService (svc (getMarketData symbol clock env w).2))).1 = None).
Proof.
  assert (Hmiss :
    (Cache.getMarketData symbol clock (cacheService (svc w))).1 = None →
    getMarketData symbol clock env w =
    fetchAlpacaData symbol env
      (mkWorld (with_cache (Cache.getMarketData symbol clock (cacheService (svc w))).2
                           (svc w)) (sent w) (notified w))).
  { intros Hnone. unfold getMarketData, mbind, M_bind, bind, liftCache.
    destruct (Cache.getMarketData symbol clock (cacheService (svc w))) as [r c1].
    cbn in Hnone. subst r. cbn [snd]. unfold tryCatch.
    destruct (fetchAlpacaData_returns symbol env
                (mkWorld (with_cache c1 (svc w)) (sent w) (notified w))) as (r & Hr).
    destruct (fetchAlpacaData symbol env _) as [[a|e] w2]; [done | discriminate]. }
  assert (Hhit : ∀ d,
    (Cache.getMarketData symbol clock (cacheService (svc w))).1 = Some d →
    getMarketData symbol clock env w = (Returned (Some d), w)).
  { intros d Hd. unfold getMarketData, mbind, M_bind, bind, liftCache.
    revert Hd. unfold Cache.getMarketData. cbv zeta.
    destruct (Cache.memoryCache (cacheService (svc w)) !! Cache.marketKey symbol) as [e|];
      [| done].
    destruct (clock <? Cache.expiry e); [| done]. cbn. intros ->.
    destruct w as [[c subs q last cnt] snt ntf]. reflexivity. }
  split; [| split; [exact Hhit |]].
  - destruct (Cache.getMarketData symbol clock (cacheService (svc w))).1 as [d|] eqn:Hd.
    + rewrite (Hhit d eq_refl). by eexists.
    + rewrite (Hmiss eq_refl). apply fetchAlpacaData_returns.
  - intros Hnone. cbv zeta. split; [by apply Hmiss |].
    intros t. rewrite (Hmiss Hnone), CacheFacts.getMarketData_fst,
      fetchAlpacaData_market_slots. cbn.
    rewrite CacheFacts.getMarketData_snd_lookup, decide_True by done.
    rewrite CacheFacts.getMarketData_fst in Hnone.
    destruct (Cache.liveOnly clock _) as [e|] eqn:He; [| done].
    cbn in Hnone. cbn. by destruct (t <? Cache.expiry e).
Qed.

(** The on-demand read never throws.  On a cache hit it returns the cached
    quote and leaves the service as it was: nothing is sent.  On a miss it
    returns what one upstream fetch returns, and does not cache it: a read
    of the symbol's quote slot still misses afterwards, at any time, so the
    next on-demand read of the symbol goes upstream again. *)
Theorem on_demand_read_effect (symbol : string) (clock : Z) (env : FetchEnv) (w : World) :
  (∃ r, (getMarketData symbol clock env w).1 = Returned r) ∧
  (∀ d, (Cache.getMarketData symbol clock (cacheService (svc w))).1 = Some d →
        getMarketData symbol clock env w = (Returned (Some d), w)) ∧
  ((Cache.getMarketData symbol clock (cacheService (svc w))).1 = None →
   let w1 := mkWorld (with_cache (Cache.getMarketData symbol clock (cacheService (svc w))).2
                                 (svc w)) (sent w) (notified w) in
   getMarketData symbol clock env w = fetchAlpacaData symbol env w1 ∧
   ∀ t, (Cache.getMarketData symbol t
           (cacheService (svc (getMarketData symbol clock env w).2))).1 = None).
Proof. apply on_demand_read_cases. Qed.

Lemma on_demand_read_effect_witness :
  getMarketData "AAPL" 5000 (Examples.answeringEnv 5000)
    (mkWorld (with_cache Examples.oneSlot initial) [] [])
  = (Returned (Some Examples.older), mkWorld (with_cache Examples.oneSlot initial) [] []) ∧
  (Cache.getMarketData "COIN" 6000
     (cacheService (svc (getMarketData "COIN" 5000 (Examples.answeringEnv 5000)
                           Examples.freshWorld).2))).1 = None.
Proof.
  split.
  - apply (on_demand_read_effect "AAPL" 5000 (Examples.answeringEnv 5000)
             (mkWorld (with_cache Examples.oneSlot initial) [] [])).
    reflexivity.
  - apply (on_demand_read_effect "COIN" 5000 (Examples.answeringEnv 5000)
             Examples.freshWorld).
    reflexivity.
Defined.


(** *** Simulated quotes *)

Lemma defaultBasePrice_ge_1 (symbol : string) (r : Q) :
  (0 <= r)%Q → (1 <= defaultBasePrice symbol r)%Q.
Proof.
  intros Hr. unfold defaultBasePrice.
  repeat match goal with |- context [if ?b then _ else _] => destruct b end; lra.
Qed.

Lemma scaled_volume_range (r : Q) :
  inUnit r →
  (100000 <= inject_Z (Qfloor (r * 1000000)) + 100000)%Q ∧
  (inject_Z (Qfloor (r * 1000000)) + 100000 <= 1100000)%Q.
Proof.
  intros [H0 H1].
  assert (Hlo : (0 <= Qfloor (r * 1000000))%Z).
  { change 0%Z with (Qfloor 0). apply Qfloor_resp_le. lra. }
  assert (Hhi : (Qfloor (r * 1000000) <= Qfloor (inject_Z 1000000))%Z).
  { apply Qfloor_resp_le. change (inject_Z 1000000) with 1000000%Q. lra. }
  rewrite Qfloor_Z in Hhi.
  rewrite Zle_Qle in Hlo, Hhi.
  change (inject_Z 0) with 0%Q in Hlo. change (inject_Z 1000000) with 1000000%Q in Hhi.
  split; lra.
Qed.

(** With every value of [Math.random()] in the unit interval, the generator
    returns a quote for the symbol, stamped with the clock, whose price is
    positive, lies between its low and its high (each within 2 % of the
    price), whose change is at most 2 % either way and whose volume is
    between 100 000 and 1 100 000. *)
Theorem simulated_quote_is_plausible (symbol : string) (clock : Z) (d : Draws) (w : World) :
  unitDraws d →
  ∃ q,
    (generateSimulatedData symbol clock d w).1 = Returned q ∧
    MD.symbol q = symbol ∧ timestamp q = clock ∧
    (0 < price q)%Q ∧
    (price q * 0.98 <= low q)%Q ∧ (low q <= price q)%Q ∧
    (price q <= high q)%Q ∧ (high q <= price q * 1.02)%Q ∧
    (-2 <= changePercent q)%Q ∧ (changePercent q <= 2)%Q ∧
    (100000 <= volume q)%Q ∧ (volume q <= 1100000)%Q.
Proof.
  intros ([Hb0 Hb1] & [Hc0 Hc1] & Hv & [Hh0 Hh1] & [Hl0 Hl1]).
  rewrite generateSimulatedData_eq. cbv zeta. eexists. split; [reflexivity |].
  set (base := defaultBasePrice symbol (rBase d)).
  pose proof (defaultBasePrice_ge_1 symbol (rBase d) Hb0) as Hbase. fold base in Hbase.
  destruct (simulated_step_within_two_percent symbol base clock d) as [Hp0 Hp1];
    [lra | done | done |].
  destruct (scaled_volume_range (rVolume d) Hv) as [Hv0 Hv1].
  unfold simulatedQuote in *. cbn [price MD.symbol timestamp low high changePercent volume] in *.
  set (p := (base + base * ((rChange d - 0.5) * 4 / 100))%Q) in *.
  assert (Hp : (0 < p)%Q) by lra.
  assert (Hph : (0 <= p * rHigh d)%Q) by (apply Qmult_le_0_compat; lra).
  assert (Hph1 : (p * rHigh d <= p * 1)%Q) by (apply Qmult_le_l; lra).
  assert (Hpl : (0 <= p * rLow d)%Q) by (apply Qmult_le_0_compat; lra).
  assert (Hpl1 : (p * rLow d <= p * 1)%Q) by (apply Qmult_le_l; lra).
  assert (Eh : (p * (1 + rHigh d * 0.02) == p + p * rHigh d * 0.02)%Q) by ring.
  assert (El : (p * (1 - rLow d * 0.02) == p - p * rLow d * 0.02)%Q) by ring.
  rewrite Eh, El.
  repeat split; try done; lra.
Qed.

Lemma simulated_quote_is_plausible_witness :
  ∃ q, (generateSimulatedData "EUR/USD" 1000 Examples.midDraws Examples.freshWorld).1
       = Returned q ∧ (0 < price q)%Q.
Proof.
  destruct (simulated_quote_is_plausible "EUR/USD" 1000 Examples.midDraws Examples.freshWorld)
    as (q & Hq & _ & _ & Hp & _).
  - unfold unitDraws, inUnit, Examples.midDraws. cbn. repeat split; lra.
  - by exists q.
Defined.


(** *** Chart data *)

Lemma budgetInv_lookup_sent (w : World) (req : Request) (clock : Z) :
  isFetch req = false →
  budgetInv w →
  budgetInv (mkWorld (svc w) (sent w ++ [mkSent req clock (lastRequestTime (svc w))])
                     (notified w)).
Proof.
  intros Hreq (Hcount & Heq & Hstart & Hall & Hqueue).
  assert (Hsame : ∀ start,
    fetchesOfWindow start (sent w ++ [mkSent req clock (lastRequestTime (svc w))])
    = fetchesOfWindow start (sent w)).
  { intros start. unfold fetchesOfWindow. rewrite countIf_app. cbn. rewrite Hreq. cbn. lia. }
  unfold budgetInv. cbn [svc sent]. rewrite Hsame.
  repeat split; try done; try lia.
  - intros e [He | He%list_elem_of_singleton]%elem_of_app Hf; [by apply Hstart |].
    subst e. cbn in Hf. congruence.
  - intros start. rewrite Hsame. apply Hall.
Qed.

(** A chart request never throws, and it never consults or counts against
    the rate limiter: the service state is left as it was, also when the
    request budget is used up.  When its start date is invalid ([limit] is
    not a finite number, or the date falls out of range) it answers [null]
    and sends nothing.  Otherwise it sends one request, to the stock bars
    endpoint whatever the symbol's asset class; it answers [null] when the
    provider's call fails, and otherwise one candle per bar received, for
    the symbol and timeframe asked. *)
Theorem chart_request_bypasses_limiter
    (symbol timeframe : string) (limit : Number) (clock : Z)
    (reply : Axios (option (list TimedBar))) (w : World) :
  let r := getCandlestickData symbol timeframe limit clock reply w in
  (∃ res, r.1 = Returned res) ∧
  svc r.2 = svc w ∧ notified r.2 = notified w ∧
  (budgetInv w → budgetInv r.2) ∧
  match startTimeValue limit timeframe clock with
  | None => r = (Returned None, w)
  | Some _ =>
      sent r.2 = (sent w ++ [mkSent (StockBars symbol) clock (lastRequestTime (svc w))])%list ∧
      match reply with
      | Rejected _ => r.1 = Returned None
      | Resolved bars =>
          r.1 = Returned (Some (mkCandlestickData symbol timeframe
                                  (toCandle <$> default [] bars)))
      end
  end.
Proof.
  cbv zeta. unfold getCandlestickData, fetchAlpacaCandlestickData.
  destruct (startTimeValue limit timeframe clock) as [tv|].
  - assert (H2 : (tryCatch
                    (tryCatch
                       (bars ← axios_get (StockBars symbol) clock reply;
                        mret (Some (mkCandlestickData symbol timeframe
                                      (toCandle <$> default [] bars))))
                       (λ _, mret None)) (λ _, mret None) w).2
                 = mkWorld (svc w)
                     (sent w ++ [mkSent (StockBars symbol) clock (lastRequestTime (svc w))])
                     (notified w)).
    { unfold_M. by destruct reply. }
    rewrite H2. cbn [svc sent notified].
    split; [unfold_M; destruct reply; by eexists |].
    split; [done |]. split; [done |]. split.
    + intros Hinv. by apply budgetInv_lookup_sent.
    + split; [done |]. unfold_M. by destruct reply.
  - unfold_M. cbn. split; [by eexists |]. split; [done |]. split; [done |].
    split; [| by destruct w].
    intros Hinv. by destruct w.
Qed.

Lemma chart_request_bypasses_limiter_witness :
  budgetInv (getCandlestickData "BTC/USD" "1day" (Finite 100) 5000
               (Rejected "Network Error") Examples.freshWorld).2.
Proof.
  exact (proj1 (proj2 (proj2 (proj2
           (chart_request_bypasses_limiter "BTC/USD" "1day" (Finite 100) 5000
              (Rejected "Network Error") Examples.freshWorld))))
         budgetInv_fresh).
Defined.

(** *** Sample bars *)



Lemma generateSampleBars_eq (symbol timeframe : string) (limit now : Z)
    (sin : Z → Q) (draws : Z → BarDraws) (w : World) :
  generateSampleBars symbol timeframe limit now sin draws w =
  (Returned (sampleLoop (Z.to_nat limit) now (sampleIntervalMs timeframe)
               (sampleBasePrice symbol
                  (Cache.get (sampleKey symbol) now (cacheService (svc w))).1)
               sin draws),
   mkWorld (with_cache (Cache.get (sampleKey symbol) now (cacheService (svc w))).2 (svc w))
           (sent w) (notified w)).
Proof.
  unfold generateSampleBars. unfold_M.
  by destruct (Cache.get (sampleKey symbol) now (cacheService (svc w))).
Qed.



(** A sample bar built on a positive base price, with every value of
    [Math.random()] in the unit interval and the sine between -1 and 1, is a
    well-formed candle: its low is positive and not above its open and
    close, its high is not below them, and its volume is between 100 000
    and 1 100 000. *)
Theorem sample_bar_is_well_formed (now iv : Z) (base : Q) (sin : Z → Q)
    (draws : Z → BarDraws) (i : Z) :
  (0 < base)%Q → unitBarDraws (draws i) → (-1 <= sin i)%Q → (sin i <= 1)%Q →
  let b := sampleBar now iv base sin draws i in
  (0 < sb_low b)%Q ∧
  (sb_low b <= sb_open b)%Q ∧ (sb_low b <= sb_close b)%Q ∧
  (sb_open b <= sb_high b)%Q ∧ (sb_close b <= sb_high b)%Q ∧
  (100000 <= sb_volume b)%Q ∧ (sb_volume b <= 1100000)%Q.
Proof.
  intros Hbase ([Ho0 Ho1] & [Hc0 Hc1] & [Hh0 Hh1] & [Hl0 Hl1] & Hv) Hs0 Hs1.
  destruct (scaled_volume_range _ Hv) as [Hv0 Hv1].
  cbv zeta. unfold sampleBar. cbn [sb_low sb_open sb_close sb_high sb_volume].
  set (f := (1 + (rOpen (draws i) - 0.5) * 0.02 + sin i * 0.005)%Q).
  set (o := (base * f)%Q).
  assert (Hf : (0.985 <= f)%Q) by (unfold f; lra).
  assert (Ho : (0 < o)%Q).
  { assert (base * 0.985 <= base * f)%Q by (apply Qmult_le_l; lra).
    unfold o. lra. }
  set (g := (1 + (rClose (draws i) - 0.5) * 0.02)%Q).
  set (c := (o * g)%Q).
  assert (Hg : (0.99 <= g)%Q) by (unfold g; lra).
  assert (Hc : (0 < c)%Q).
  { assert (o * 0.99 <= o * g)%Q by (apply Qmult_le_l; lra).
    unfold c. lra. }
  pose proof (Q.le_max_l o c) as HM1. pose proof (Q.le_max_r o c) as HM2.
  pose proof (Q.le_min_l o c) as Hm1. pose proof (Q.le_min_r o c) as Hm2.
  assert (Hm : (0 < Qmin o c)%Q).
  { destruct (Q.min_spec o c) as [[_ E] | [_ E]]; rewrite E; done. }
  set (M := Qmax o c) in *. set (m := Qmin o c) in *.
  assert (HMh : (0 <= M * rHi (draws i))%Q) by (apply Qmult_le_0_compat; lra).
  assert (Hml : (0 <= m * rLo (draws i))%Q) by (apply Qmult_le_0_compat; lra).
  assert (Hml1 : (m * rLo (draws i) <= m * 1)%Q) by (apply Qmult_le_l; lra).
  assert (Eh : (M * (1 + rHi (draws i) * 0.02 * 0.5) == M + M * rHi (draws i) * 0.01)%Q)
    by ring.
  assert (El : (m * (1 - rLo (draws i) * 0.02 * 0.5) == m - m * rLo (draws i) * 0.01)%Q)
    by ring.
  rewrite Eh, El. repeat split; try done; lra.
Qed.

Lemma sample_bar_is_well_formed_witness :
  (0 < sb_low (sampleBar 1000 60000 150 (λ _, 0%Q)
                 (λ _, mkBarDraws (1#2) (1#2) (1#2) (1#2) (1#2)) 3))%Q.
Proof.
  apply (sample_bar_is_well_formed 1000 60000 150 (λ _, 0%Q)
           (λ _, mkBarDraws (1#2) (1#2) (1#2) (1#2) (1#2)) 3).
  - lra.
  - unfold unitBarDraws, inUnit. cbn. repeat split; lra.
  - lra.
  - lra.
Defined.


(** *** The keys of the cache *)

Lemma keysOk_shrink (c c' : Cache.CacheService) :
  (∀ k e, Cache.memoryCache c' !! k = Some e → Cache.memoryCache c !! k = Some e) →
  keysOk c → keysOk c'.
Proof. intros Hsub Hc k [e He]. apply Hc. exists e. by apply Hsub. Qed.

Lemma keysOk_getMarketData (s : string) (t : Z) (c : Cache.CacheService) :
  keysOk c → keysOk (Cache.getMarketData s t c).2.
Proof.
  apply keysOk_shrink. intros k e. rewrite CacheFacts.getMarketData_snd_lookup.
  case_decide; [apply CacheFacts.liveOnly_Some | done].
Qed.

Lemma keysOk_get (key : string) (t : Z) (c : Cache.CacheService) :
  keysOk c → keysOk (Cache.get key t c).2.
Proof.
  apply keysOk_shrink. intros k e. rewrite CacheFacts.get_snd_lookup.
  case_decide; [apply CacheFacts.liveOnly_Some | done].
Qed.

Lemma keysOk_setMarketData (s : string) (d : MarketData) (t : Z) (c : Cache.CacheService) :
  keysOk c → keysOk (Cache.setMarketData s d t c).
Proof.
  intros Hc k. rewrite CacheFacts.lookup_setMarketData.
  case_decide as Hk; [intros _; left; by exists s | apply Hc].
Qed.

Lemma keysOk_fetchCacheStep (symbol : string) (c c' : Cache.CacheService) :
  fetchCacheStep symbol c c' → keysOk c → keysOk c'.
Proof.
  intros [-> | (v & t & ->)] Hc; [done |].
  intros k. unfold Cache.set. cbn.
  destruct (decide (k = simulatedKey symbol)) as [-> | Hne].
  - intros _. right. by exists symbol.
  - rewrite lookup_insert_ne by done. by apply keysOk_get.
Qed.

Lemma keysInv_liftCache {A} (f : Cache.CacheService → A * Cache.CacheService) :
  (∀ c, keysOk c → keysOk (f c).2) → preserves keysInv (liftCache f).
Proof.
  intros Hf w Hw. unfold liftCache.
  pose proof (Hf (cacheService (svc w)) Hw) as H.
  by destruct (f (cacheService (svc w))).
Qed.

Lemma keysInv_read (s : string) (t : Z) :
  preserves keysInv (liftCache (Cache.getMarketData s t)).
Proof. apply keysInv_liftCache. intros c. apply keysOk_getMarketData. Qed.

Lemma keysInv_write (s : string) (d : MarketData) (t : Z) :
  preserves keysInv (liftCache_ (Cache.setMarketData s d t)).
Proof. apply keysInv_liftCache. intros c. apply keysOk_setMarketData. Qed.

Lemma keysInv_fetch (symbol : string) (env : FetchEnv) :
  preserves keysInv (fetchAlpacaData symbol env).
Proof.
  intros w Hw. apply (keysOk_fetchCacheStep symbol (cacheService (svc w))); [| done].
  apply fetchAlpacaData_cache_step.
Qed.

Lemma keysInv_processMarketData (d : MarketData) (t : Z) :
  preserves keysInv (processMarketData d t).
Proof.
  apply preserves_bind; [apply keysInv_write |]. intros _ w Hw. exact Hw.
Qed.

Lemma keysInv_updateOne (envOf : string → FetchEnv) (symbol : string) :
  preserves keysInv (updateOne envOf symbol).
Proof.
  apply preserves_tryCatch; [| intros; apply preserves_ret].
  apply preserves_bind; [apply keysInv_fetch |]. intros [d|]; [| apply preserves_ret].
  apply preserves_bind; [apply keysInv_write | intros; apply preserves_ret].
Qed.

Lemma keysInv_initialFetchOne (envOf : string → FetchEnv) (symbol : string) :
  preserves keysInv (initialFetchOne envOf symbol).
Proof.
  apply preserves_tryCatch; [| intros; apply preserves_ret].
  apply preserves_bind; [apply keysInv_fetch |]. intros [d|]; [| apply preserves_ret].
  apply preserves_bind; [apply keysInv_write |]. intros _.
  apply preserves_bind; [apply keysInv_processMarketData | intros; apply preserves_ret].
Qed.

Lemma keysInv_symbolsNeedingUpdate (symbols : list string) (clock th : Z) :
  preserves keysInv (symbolsNeedingUpdate symbols clock th).
Proof.
  induction symbols as [|s l IH]; [apply preserves_ret |]. cbn [symbolsNeedingUpdate].
  apply preserves_bind; [apply keysInv_read |]. intros cached.
  apply preserves_bind; [apply IH | intros; apply preserves_ret].
Qed.

Lemma keysInv_readCached (symbols : list string) (clock : Z) :
  preserves keysInv (readCached symbols clock).
Proof.
  induction symbols as [|s l IH]; [apply preserves_ret |]. cbn [readCached].
  apply preserves_bind; [apply keysInv_read |]. intros cached.
  apply preserves_bind; [apply IH | intros; apply preserves_ret].
Qed.

Lemma keysInv_perform (a : Action) : preserves keysInv (perform a).
Proof.
  destruct a as [envOf | clock envOf | p clock envOf | clock | d clock | symbol clock env];
    cbn [perform].
  - apply preserves_bind; [| intros; apply preserves_ret].
    apply preserves_forEachM. intros b. apply preserves_forEachM. intros s.
    apply keysInv_initialFetchOne.
  - apply preserves_bind; [| intros; apply preserves_ret].
    apply preserves_forEachM. intros s.
    apply preserves_bind; [apply keysInv_read |].
    intros [d|]; [apply preserves_ret | apply keysInv_initialFetchOne].
  - apply preserves_bind; [| intros; apply preserves_ret].
    apply preserves_bind; [apply keysInv_symbolsNeedingUpdate |].
    intros [|s l]; [apply preserves_ret |].
    apply preserves_forEachM. intros b. apply preserves_forEachM. intros s'.
    apply keysInv_updateOne.
  - apply preserves_bind; [apply keysInv_readCached |]. intros found.
    apply preserves_bind; [| intros; apply preserves_ret].
    apply preserves_forEachM. intros d. apply keysInv_processMarketData.
  - apply keysInv_processMarketData.
  - apply preserves_bind; [| intros; apply preserves_ret].
    apply preserves_bind; [apply keysInv_read |].
    intros [d|]; [apply preserves_ret |].
    apply preserves_tryCatch; [apply keysInv_fetch | intros; apply preserves_ret].
Qed.

Lemma keysInv_execute (actions : list Action) :
  keysInv (execute actions (mkWorld initial [] [])).
Proof.
  unfold execute. induction actions as [|a l IH] using rev_ind.
  - intros k [e He]. cbn in He. by rewrite lookup_empty in He.
  - rewrite foldl_app. cbn [foldl]. by apply keysInv_perform.
Qed.

Lemma sampleKey_not_serviceKey (symbol : string) : ¬ serviceKey (sampleKey symbol).
Proof.
  unfold serviceKey, sampleKey, Cache.marketKey, simulatedKey.
  intros [[s H] | [s H]]; by simplify_eq/=.
Qed.

(** Whatever the service has done since it was constructed, the sample
    series is built on the default base price of the symbol (100 000 for a
    symbol containing BTC, 4 000 for ETH, 150 otherwise): the key it looks
    up, [market_data_<symbol>], is written by no operation of the service,
    so a cached quote of the symbol is never used. *)
Theorem sample_bars_never_use_cached_quote
    (actions : list Action) (symbol timeframe : string) (limit now : Z)
    (sin : Z → Q) (draws : Z → BarDraws) :
  let w := execute actions (mkWorld initial [] []) in
  Cache.memoryCache (cacheService (svc w)) !! sampleKey symbol = None ∧
  generateSampleBars symbol timeframe limit now sin draws w =
  (Returned (sampleLoop (Z.to_nat limit) now (sampleIntervalMs timeframe)
                        (sampleDefault symbol) sin draws), w).
Proof.
  cbv zeta. set (w := execute actions _).
  assert (Hnone : Cache.memoryCache (cacheService (svc w)) !! sampleKey symbol = None).
  { apply eq_None_not_Some. intros Hsome.
    apply (sampleKey_not_serviceKey symbol), (keysInv_execute actions _ Hsome). }
  split; [exact Hnone |].
  rewrite generateSampleBars_eq. unfold Cache.get. rewrite Hnone. cbn.
  by destruct w as [[c subs q last cnt] snt ntf].
Qed.


(** *** Trades from the provider streams *)

Lemma handleStreamMessages_eq (socket : StreamSocket) (symbols : list string)
    (messages : list StreamMessage) (clock : Z) (w : World) :
  ∃ frames,
    forEachM (handleStreamMessage socket symbols clock) messages w =
    (Returned frames,
     mkWorld (with_cache (writeAll clock (cacheService (svc w)) (omap tradeOf messages))
                         (svc w))
             (sent w) (notified w ++ omap tradeOf messages)) ∧
    concat frames = replicate (authenticatedIn messages) (SubscribeTrades socket symbols).
Proof.
  revert w. induction messages as [|m l IH]; intros w.
  - exists []. destruct w as [[c subs q last cnt] snt ntf]. cbn. by rewrite app_nil_r.
  - cbn [forEachM]. unfold mbind at 1, M_bind, bind.
    destruct m as [| sym p sz t |]; cbn [handleStreamMessage omap tradeOf].
    + unfold mret at 1, M_ret, ret. unfold mbind at 1, M_bind, bind.
      destruct (IH w) as (frames & -> & Hframes).
      exists ([SubscribeTrades socket symbols] :: frames). split; [done |].
      cbn [concat app]. rewrite Hframes. unfold authenticatedIn.
      by rewrite filter_cons_True.
    + unfold mbind at 1, M_bind, bind. rewrite processMarketData_eq.
      unfold mret at 1, M_ret, ret. unfold mbind at 1, M_bind, bind.
      destruct (IH (mkWorld
                      (with_cache (Cache.setMarketData sym (tradeQuote sym p sz t) clock
                                     (cacheService (svc w))) (svc w))
                      (sent w) (notified w ++ [tradeQuote sym p sz t])))
        as (frames & Heq & Hframes).
      cbn [MD.symbol tradeQuote] in *. rewrite Heq.
      exists ([] :: frames). cbn -[authenticatedIn]. rewrite <- app_assoc. split; [done |].
      rewrite Hframes. unfold authenticatedIn. by rewrite filter_cons_False.
    + unfold mret at 1, M_ret, ret. unfold mbind at 1, M_bind, bind.
      destruct (IH w) as (frames & -> & Hframes).
      exists ([] :: frames). split; [done |].
      cbn [concat app]. rewrite Hframes. unfold authenticatedIn.
      by rewrite filter_cons_False.
Qed.

Lemma handleAlpacaStockMessage_eq (messages : list StreamMessage) (clock : Z) (w : World) :
  handleAlpacaStockMessage messages clock w =
  (Returned (replicate (authenticatedIn messages) (SubscribeTrades StockWs stockStreamSymbols)),
   mkWorld (with_cache (writeAll clock (cacheService (svc w)) (omap tradeOf messages)) (svc w))
           (sent w) (notified w ++ omap tradeOf messages)).
Proof.
  unfold handleAlpacaStockMessage. unfold mbind, M_bind, bind.
  destruct (handleStreamMessages_eq StockWs stockStreamSymbols messages clock w)
    as (frames & -> & <-). reflexivity.
Qed.

Lemma handleAlpacaCryptoMessage_eq (messages : list StreamMessage) (clock : Z) (w : World) :
  handleAlpacaCryptoMessage messages clock w =
  (Returned (replicate (authenticatedIn messages)
               (SubscribeTrades CryptoWs cryptoStreamSymbols)),
   mkWorld (with_cache (writeAll clock (cacheService (svc w)) (omap tradeOf messages)) (svc w))
           (sent w) (notified w ++ omap tradeOf messages)).
Proof.
  unfold handleAlpacaCryptoMessage. unfold mbind, M_bind, bind.
  destruct (handleStreamMessages_eq CryptoWs cryptoStreamSymbols messages clock w)
    as (frames & -> & <-). reflexivity.
Qed.

Lemma writeAll_snoc (clock : Z) (c : Cache.CacheService) (ds : list MarketData)
    (d : MarketData) :
  writeAll clock c (ds ++ [d]) = Cache.setMarketData (symbol d) d clock (writeAll clock c ds).
Proof. unfold writeAll. by rewrite foldl_app. Qed.

(** A frame of stream messages never throws.  What the handler sends is
    one subscribe frame for each ['authenticated'] message of the frame, on
    its own provider socket and with its own symbol list (the stock
    handler its 30 stock and fund symbols, the crypto handler its 10
    pairs), and nothing else: no request goes to the REST endpoints and the
    rate counter is not touched.  The trades of the frame, in order, are
    written to the quote cache and handed to the price-update callbacks,
    and in this the two handlers do the same.  The quote written for a
    trade carries the trade's price, size and time and zero for change,
    change percent, high, low, open and previous close: until something
    else writes the slot or it expires, that is what a read of the symbol
    returns, whatever was cached for it before. *)
Theorem stream_trade_replaces_cached_quote
    (before : list StreamMessage) (sym : string) (p sz : Q) (t clock : Z) (w : World) :
  let frame := (before ++ [TradeMessage sym p sz t])%list in
  let w' := (handleAlpacaStockMessage frame clock w).2 in
  (handleAlpacaStockMessage frame clock w).1
    = Returned (replicate (authenticatedIn before)
                  (SubscribeTrades StockWs stockStreamSymbols)) ∧
  (handleAlpacaCryptoMessage frame clock w).1
    = Returned (replicate (authenticatedIn before)
                  (SubscribeTrades CryptoWs cryptoStreamSymbols)) ∧
  (handleAlpacaCryptoMessage frame clock w).2 = w' ∧
  sent w' = sent w ∧
  svc w' = with_cache (cacheService (svc w')) (svc w) ∧
  notified w' = (notified w ++ omap tradeOf before ++ [tradeQuote sym p sz t])%list ∧
  ∀ t', t' < clock + 60000 →
        (Cache.getMarketData sym t' (cacheService (svc w'))).1
        = Some {| symbol := sym; price := p; change := 0; changePercent := 0;
                  volume := sz; high := 0; low := 0; open := 0; previousClose := 0;
                  marketCap := None; timestamp := t |}.
Proof.
  cbv zeta.
  rewrite handleAlpacaStockMessage_eq, handleAlpacaCryptoMessage_eq.
  cbn [svc sent notified fst snd].
  assert (authenticatedIn (before ++ [TradeMessage sym p sz t]) = authenticatedIn before) as ->.
  { unfold authenticatedIn. rewrite filter_app, length_app.
    rewrite filter_cons_False by done. cbn. lia. }
  assert (omap tradeOf (before ++ [TradeMessage sym p sz t])%list
          = (omap tradeOf before ++ [tradeQuote sym p sz t])%list) as ->
    by (by rewrite omap_app).
  rewrite writeAll_snoc.
  repeat split.
  intros t' Ht'. cbn [MD.symbol tradeQuote].
  by apply CacheFacts.getMarketData_setMarketData.
Qed.

Lemma stream_trade_replaces_cached_quote_witness :
  price <$> (Cache.getMarketData "AAPL" 3500
     (cacheService (svc (handleAlpacaStockMessage
        ([Authenticated] ++ [TradeMessage "AAPL" 187 10 2999]) 3000
        (mkWorld (with_cache Examples.oneSlot initial) [] [])).2))).1 = Some 187%Q.
Proof.
  rewrite (proj2 (proj2 (proj2 (proj2 (proj2 (proj2
    (stream_trade_replaces_cached_quote [Authenticated] "AAPL" 187 10 2999 3000
       (mkWorld (with_cache Examples.oneSlot initial) [] [])))))))).
  - reflexivity.
  - lia.
Defined.


(** *** The initial load *)

Lemma fetch_with_budget (symbol : string) (env : FetchEnv) (n : Z) (w : World) :
  0 < n → budgetLeft n w →
  ∃ q, (fetchAlpacaData symbol env w).1 = Returned (Some q) ∧
       MD.symbol q = symbol ∧
       budgetLeft (n - 1) (fetchAlpacaData symbol env w).2.
Proof.
  intros Hn [H0 Hmax].
  destruct (isForexSymbol symbol) eqn:Hfx.
  - destruct (fetchAlpacaData_forex symbol env w Hfx) as (q & Hgen & Hret).
    rewrite generateSimulatedData_eq in Hgen. cbv zeta in Hgen.
    injection Hgen as <- <-. exists (simulatedQuote symbol
      (defaultBasePrice symbol (rBase (draws env))) (now env) (draws env)).
    split; [done |]. split; [done |]. unfold budgetLeft. cbn. lia.
  - assert (Hreset : 0 ≤ requestCount (resetIfWindowPassed (now env) (svc w))
                         ≤ requestCount (svc w)).
    { unfold resetIfWindowPassed. destruct (_ <? _); cbn; lia. }
    destruct (fetchAlpacaData_admitted_call symbol env w Hfx)
      as (q & c' & extra & -> & _ & Hq & _); [lia |].
    exists q. split; [done |]. split; [done |]. unfold budgetLeft. cbn. lia.
Qed.

Lemma initialFetchOne_with_budget (envOf : string → FetchEnv) (symbol : string) (n : Z)
    (w : World) :
  0 < n → budgetLeft n w →
  (initialFetchOne envOf symbol w).1 = Returned true ∧
  budgetLeft (n - 1) (initialFetchOne envOf symbol w).2 ∧
  (∀ l, hasQuotes l w → hasQuotes (l ++ [symbol]) (initialFetchOne envOf symbol w).2).
Proof.
  intros Hn Hb.
  destruct (fetch_with_budget symbol (envOf symbol) n w Hn Hb) as (q & Hret & Hq & Hleft).
  pose proof (fetchAlpacaData_market_slots symbol) as Hslots.
  specialize (Hslots) with (env := envOf symbol) (w := w).
  unfold initialFetchOne, processMarketData. unfold_M.
  destruct (fetchAlpacaData symbol (envOf symbol) w) as [[r|e] w1]; [| done].
  cbn [fst snd] in *. injection Hret as ->. cbn.
  split; [done |]. split; [exact Hleft |].
  intros l Hl s [Hs | ->%list_elem_of_singleton]%elem_of_app.
  - cbn. rewrite Hq.
    destruct (decide (Cache.marketKey symbol = Cache.marketKey s)) as [-> | Hne].
    + rewrite lookup_insert_eq. by eexists.
    + rewrite !lookup_insert_ne by done. rewrite Hslots. by apply Hl.
  - cbn. rewrite Hq, lookup_insert_eq. by eexists.
Qed.

Lemma initial_batch_with_budget (envOf : string → FetchEnv) (l : list string) :
  ∀ (n : Z) (loaded : list string) (w : World),
    0 ≤ n → budgetLeft (Z.of_nat (length l) + n) w → hasQuotes loaded w →
    ∃ w', forEachM (initialFetchOne envOf) l w = (Returned (replicate (length l) true), w') ∧
          budgetLeft n w' ∧ hasQuotes (loaded ++ l) w'.
Proof.
  induction l as [|s l IH]; intros n loaded w Hn Hb Hl.
  - exists w. rewrite app_nil_r. split; [done |]. split; [| done].
    cbn [length] in Hb. by replace n with (Z.of_nat 0 + n) by lia.
  - destruct (initialFetchOne_with_budget envOf s (Z.of_nat (length (s :: l)) + n) w)
      as (Hret & Hleft & Hquotes); [cbn [length]; lia | done |].
    cbn [forEachM]. unfold mbind at 1, M_bind, bind.
    destruct (initialFetchOne envOf s w) as [[b|e] w1]; [| done].
    cbn [fst snd] in *. injection Hret as ->.
    destruct (IH n (loaded ++ [s])%list w1) as (w' & Heq & Hb' & Hl'); [done | | by apply Hquotes |].
    { replace (Z.of_nat (length l) + n) with (Z.of_nat (length (s :: l)) + n - 1)
        by (cbn [length]; lia). done. }
    exists w'. unfold mbind at 1, M_bind, bind. rewrite Heq. cbn.
    split; [done |]. split; [done |]. by rewrite <- app_assoc in Hl'.
Qed.

Lemma initial_batches_with_budget (envOf : string → FetchEnv) (batches : list (list string)) :
  ∀ (loaded : list string) (w : World),
    budgetLeft (Z.of_nat (length (concat batches))) w → hasQuotes loaded w →
    ∃ w', forEachM (forEachM (initialFetchOne envOf)) batches w
          = (Returned ((λ b, replicate (length b) true) <$> batches), w') ∧
          hasQuotes (loaded ++ concat batches) w'.
Proof.
  induction batches as [|b bs IH]; intros loaded w Hb Hl.
  - exists w. cbn. by rewrite app_nil_r.
  - cbn [concat] in Hb. rewrite length_app, Nat2Z.inj_add in Hb.
    destruct (initial_batch_with_budget envOf b (Z.of_nat (length (concat bs))) loaded w)
      as (w1 & Heq1 & Hb1 & Hl1); [lia | done | done |].
    destruct (IH (loaded ++ b)%list w1 Hb1 Hl1) as (w' & Heq & Hl').
    exists w'. cbn [forEachM]. unfold mbind at 1, M_bind, bind. rewrite Heq1.
    unfold mbind at 1, M_bind, bind. rewrite Heq. cbn.
    split; [done |]. by rewrite <- app_assoc in Hl'.
Qed.

(** With room in the counting window for one fetch per symbol, as on a
    newly constructed service, the initial load never throws and succeeds
    for every symbol of the universe whatever the provider answers: every
    flag is [true], so [totalFetched] equals the number of symbols and the
    delayed retry is not scheduled, and every symbol has a quote slot
    afterwards. *)
Theorem initial_load_reaches_every_symbol (envOf : string → FetchEnv) (w : World) :
  0 ≤ requestCount (svc w) →
  requestCount (svc w) + Z.of_nat (length allSymbols) ≤ maxRequestsPerWindow →
  ∃ flags,
    (initialFetch envOf w).1 = Returned flags ∧
    Forall (Forall (λ b, b = true)) flags ∧
    length (concat flags) = length allSymbols ∧
    ∀ s, s ∈ allSymbols →
         is_Some (Cache.memoryCache (cacheService (svc (initialFetch envOf w).2))
                    !! Cache.marketKey s).
Proof.
  intros H0 Hmax. unfold initialFetch.
  destruct (batchesOf_cut (length allSymbols) 8 allSymbols) as (Hcat & _); [lia | done |].
  set (batches := batchesOf (length allSymbols) 8 allSymbols) in *.
  destruct (initial_batches_with_budget envOf batches [] w) as (w' & -> & Hl).
  - rewrite Hcat. by split.
  - by intros s Hs%elem_of_nil.
  - eexists. split; [reflexivity |]. cbn [fst snd]. split; [| split].
    + apply Forall_fmap, Forall_forall. intros b _. cbn.
      apply Forall_forall. by intros x [-> _]%elem_of_replicate.
    + transitivity (length (concat batches)); [| by rewrite Hcat].
      clearbody batches. clear. induction batches as [|b bs IH]; [done |].
      cbn. rewrite !length_app, IH, length_replicate. done.
    + intros s Hs. apply Hl. rewrite Hcat. exact Hs.
Qed.

Lemma initial_load_reaches_every_symbol_witness :
  is_Some (Cache.memoryCache
             (cacheService (svc (initialFetch (λ _, Examples.failingEnv 1000 "Network Error")
                                   Examples.freshWorld).2))
             !! Cache.marketKey "DOGE/USD").
Proof.
  destruct (initial_load_reaches_every_symbol (λ _, Examples.failingEnv 1000 "Network Error")
              Examples.freshWorld) as (flags & _ & _ & _ & H).
  - cbn. lia.
  - vm_compute. discriminate.
  - apply H. vm_compute. set_solver.
Defined.


(** *** Who is notified *)

Lemma fetchAlpacaData_notified (symbol : string) (env : FetchEnv) (w : World) :
  notified (fetchAlpacaData symbol env w).2 = notified w.
Proof.
  destruct (isForexSymbol symbol) eqn:Hfx.
  - destruct (fetchAlpacaData_forex symbol env w Hfx) as (q & Hgen & _).
    rewrite generateSimulatedData_eq in Hgen. cbv zeta in Hgen. by injection Hgen as _ <-.
  - destruct (Z_lt_le_dec (requestCount (resetIfWindowPassed (now env) (svc w)))
                          maxRequestsPerWindow) as [Hlt | Hle].
    + by destruct (fetchAlpacaData_admitted_call symbol env w Hfx Hlt)
        as (q & c' & extra & -> & _).
    + by rewrite (fetchAlpacaData_exhausted symbol env w Hfx Hle).
Qed.

(** The pollers and the on-demand read never call the price-update
    callbacks: a quote they fetch reaches the subscribers only with a later
    broadcast tick. *)
Theorem polls_and_reads_notify_nobody
    (p : Priority) (clock : Z) (envOf : string → FetchEnv)
    (symbol : string) (env : FetchEnv) (w : World) :
  notified (pollTier p clock envOf w).2 = notified w ∧
  notified (getMarketData symbol clock env w).2 = notified w.
Proof.
  set (P := λ w' : World, notified w' = notified w).
  assert (P_cache : ∀ w' c, P w' →
            P (mkWorld (with_cache c (svc w')) (sent w') (notified w'))) by done.
  assert (P_fetch : ∀ s e, preserves P (fetchAlpacaData s e)).
  { intros s e w' Hw'. unfold P in *. by rewrite fetchAlpacaData_notified. }
  split.
  - apply (preserves_bind P); [| | done].
    + by apply preserves_symbolsNeedingUpdate.
    + intros [|s l]; [apply preserves_ret |].
      apply preserves_forEachM. intros b. apply preserves_forEachM. intros s'.
      by apply preserves_updateOne.
  - apply (preserves_bind P); [| | done].
    + by apply preserves_liftCache.
    + intros [d|]; [apply preserves_ret |].
      apply preserves_tryCatch; [apply P_fetch | intros; apply preserves_ret].
Qed.


End MarketMoreFacts.


(** ** The registry over whole executions, broadcast and statistics *)

Module RegistryMoreFacts.
Import Registry RegistryMore.
Import RegistryFacts.

(** *** One operation *)

Lemma size_zero_empty (X : gset string) : size X = 0%nat ↔ X = ∅.
Proof. rewrite size_empty_iff. by unfold_leibniz. Qed.

Lemma subscribers_unsubscribe (c s k : string) (ws : WebSocketService) :
  is_Some (clients ws !! c) →
  subscribers (unsubscribeClientFromSymbol c s ws) k =
  if decide (k = s) then subscribers ws s ∖ {[c]} else subscribers ws k.
Proof.
  intros Hc. unfold subscribers at 1. rewrite unsubscribe_lookup by done.
  case_decide as Hk; [| done]. unfold subscribers.
  destruct (symbolSubscriptions ws !! s) as [subs|]; cbn; [| set_solver].
  case_bool_decide as Hsize; [| done]. cbn. apply size_zero_empty in Hsize. by rewrite Hsize.
Qed.

Lemma subscribers_subscribe (c s k : string) (ws : WebSocketService) :
  is_Some (clients ws !! c) →
  subscribers (subscribeClientToSymbol c s ws) k =
  if decide (k = s) then {[c]} ∪ subscribers ws s else subscribers ws k.
Proof.
  intros [client Hc]. unfold subscribeClientToSymbol. rewrite Hc.
  destruct (symbolSubscriptions ws !! s) as [subs|] eqn:Hs.
  - rewrite subscribers_insert. repeat case_decide; try congruence.
    by rewrite (subscribers_Some ws s subs).
  - rewrite subscribers_insert. repeat case_decide; try congruence.
    rewrite (subscribers_None ws s Hs). set_solver.
Qed.

Lemma subscribe_clients_lookup (c s c' : string) (ws : WebSocketService) :
  clients (subscribeClientToSymbol c s ws) !! c' =
  if decide (c' = c)
  then withSymbols (λ X, {[s]} ∪ X) <$> clients ws !! c
  else clients ws !! c'.
Proof.
  unfold subscribeClientToSymbol.
  destruct (clients ws !! c) as [client|] eqn:Hc.
  - destruct (symbolSubscriptions ws !! s); cbn;
      (case_decide as Hk; [subst; by rewrite lookup_insert_eq | by rewrite lookup_insert_ne]).
  - case_decide; [by subst | done].
Qed.

Lemma unsubscribe_clients_lookup (c s c' : string) (ws : WebSocketService) :
  clients (unsubscribeClientFromSymbol c s ws) !! c' =
  if decide (c' = c)
  then withSymbols (λ X, X ∖ {[s]}) <$> clients ws !! c
  else clients ws !! c'.
Proof.
  destruct (clients ws !! c) as [client|] eqn:Hc.
  - rewrite (unsubscribe_clients c s ws client Hc).
    case_decide as Hk; [subst; by rewrite lookup_insert_eq | by rewrite lookup_insert_ne].
  - unfold unsubscribeClientFromSymbol. rewrite Hc. case_decide; [by subst | done].
Qed.

Lemma subscribe_connected (c s c' : string) (ws : WebSocketService) :
  is_Some (clients (subscribeClientToSymbol c s ws) !! c') ↔ is_Some (clients ws !! c').
Proof.
  rewrite subscribe_clients_lookup. case_decide; [subst; apply fmap_is_Some | done].
Qed.

Lemma unsubscribe_connected (c s c' : string) (ws : WebSocketService) :
  is_Some (clients (unsubscribeClientFromSymbol c s ws) !! c') ↔ is_Some (clients ws !! c').
Proof.
  rewrite unsubscribe_clients_lookup. case_decide; [subst; apply fmap_is_Some | done].
Qed.





(** *** Disconnection *)

Lemma unsubscribeAll_connected (c c' : string) (l : list string) (ws : WebSocketService) :
  is_Some (clients (unsubscribeAll c l ws) !! c') ↔ is_Some (clients ws !! c').
Proof.
  unfold unsubscribeAll. revert ws. induction l as [|s l IH]; intros ws; [done |].
  cbn [foldl]. rewrite IH. apply unsubscribe_connected.
Qed.

Lemma unsubscribeAll_other_client (c c' : string) (l : list string) (ws : WebSocketService) :
  c' ≠ c → clients (unsubscribeAll c l ws) !! c' = clients ws !! c'.
Proof.
  intros Hne. unfold unsubscribeAll. revert ws.
  induction l as [|s l IH]; intros ws; [done |].
  cbn [foldl]. rewrite IH, unsubscribe_clients_lookup. by rewrite decide_False.
Qed.

Lemma subscribers_unsubscribeAll (c k : string) (l : list string) (ws : WebSocketService) :
  is_Some (clients ws !! c) →
  subscribers (unsubscribeAll c l ws) k =
  if decide (k ∈ l) then subscribers ws k ∖ {[c]} else subscribers ws k.
Proof.
  unfold unsubscribeAll. revert ws. induction l as [|s l IH]; intros ws Hc.
  - cbn. rewrite decide_False; [done | apply not_elem_of_nil].
  - cbn [foldl]. rewrite IH by (by apply unsubscribe_connected).
    rewrite subscribers_unsubscribe by done.
    destruct (decide (k = s)) as [-> | Hne].
    + rewrite (decide_True (P := s ∈ s :: l)) by constructor.
      case_decide; set_solver.
    + case_decide as Hin.
      * rewrite decide_True; [done | by constructor].
      * rewrite decide_False; [done |]. intros [? | ?]%elem_of_cons; done.
Qed.

Lemma disconnection_lookup (c : string) (client : SocketClient) (ws : WebSocketService) :
  consistent ws →
  clients ws !! c = Some client →
  clients (handleClientDisconnection c ws) !! c = None ∧
  (∀ c', c' ≠ c → clients (handleClientDisconnection c ws) !! c' = clients ws !! c') ∧
  (∀ s, subscribers (handleClientDisconnection c ws) s = subscribers ws s ∖ {[c]}).
Proof.
  intros [Hagree _] Hc. unfold handleClientDisconnection. rewrite Hc. cbn [clients].
  split; [apply lookup_delete_eq |]. split.
  - intros c' Hne. rewrite lookup_delete_ne by done. by apply unsubscribeAll_other_client.
  - intros s. rewrite subscribers_same, subscribers_unsubscribeAll by (by eexists).
    case_decide as Hin; [done |].
    assert (c ∉ subscribers ws s); [| set_solver].
    rewrite (Hagree c client s Hc). by rewrite elem_of_elements in Hin.
Qed.

(** Disconnecting a client of a consistent registry removes it from the
    client table and from the subscriber set of every symbol, and changes
    nothing else in either: every other client keeps its record and every
    symbol keeps its other subscribers. *)
Theorem disconnection_removes_the_client_everywhere
    (c : string) (client : SocketClient) (ws : WebSocketService) :
  consistent ws →
  clients ws !! c = Some client →
  clients (handleClientDisconnection c ws) !! c = None ∧
  (∀ c', c' ≠ c → clients (handleClientDisconnection c ws) !! c' = clients ws !! c') ∧
  (∀ s, subscribers (handleClientDisconnection c ws) s = subscribers ws s ∖ {[c]}).
Proof. apply disconnection_lookup. Qed.

Lemma disconnection_removes_the_client_everywhere_witness :
  subscribers (handleClientDisconnection "c1" (onConnection "c1" initial)) "AAPL"
  = subscribers (onConnection "c1" initial) "AAPL" ∖ {["c1"]}.
Proof.
  apply (disconnection_removes_the_client_everywhere "c1"
           (mkClient "c1" None (list_to_set popularSymbols) ∅) (onConnection "c1" initial)).
  - apply connection_consistent; [done | set_solver | apply initial_consistent].
  - vm_compute. reflexivity.
Defined.


(** *** Whole executions *)

Lemma onUnsubscribe_unsubscribeAll (c : string) (l : list string) (ws : WebSocketService) :
  onUnsubscribe c l ws = unsubscribeAll c l ws.
Proof. reflexivity. Qed.



Lemma run_snoc (events : list Event) (e : Event) :
  run (events ++ [e]) = step (run events) e.
Proof. unfold run. by rewrite foldl_app. Qed.





(** *** Broadcast *)

Lemma recipients_eq (data : MarketData) (sockets : gset string) (ws : WebSocketService) :
  recipients data sockets ws
  = filter (λ c, c ∈ sockets) (elements (subscribers ws (symbol data))).
Proof.
  unfold recipients, broadcastPriceUpdate. rewrite <- list_fmap_compose.
  apply list_fmap_id.
Qed.

(** A price update is emitted once to every subscriber of the quote's
    symbol that has an open socket, to nobody else, and carries the quote
    unchanged.  In a consistent registry, a connected client with an open
    socket therefore receives the update exactly when the symbol is among
    its own subscriptions. *)
Theorem broadcast_reaches_exactly_the_subscribers
    (data : MarketData) (sockets : gset string) (ws : WebSocketService) :
  NoDup (recipients data sockets ws) ∧
  (∀ c, c ∈ recipients data sockets ws ↔ c ∈ subscribers ws (symbol data) ∧ c ∈ sockets) ∧
  (∀ c d, (c, d) ∈ broadcastPriceUpdate data sockets ws → d = data) ∧
  (consistent ws →
   ∀ c client, clients ws !! c = Some client → c ∈ sockets →
     (c ∈ recipients data sockets ws ↔ symbol data ∈ subscribedSymbols client)).
Proof.
  assert (Hin : ∀ c, c ∈ recipients data sockets ws
                     ↔ c ∈ subscribers ws (symbol data) ∧ c ∈ sockets).
  { intros c. rewrite recipients_eq, list_elem_of_filter, elem_of_elements. tauto. }
  split; [| split; [exact Hin | split]].
  - rewrite recipients_eq. apply NoDup_filter, NoDup_elements.
  - intros c d. unfold broadcastPriceUpdate. rewrite list_elem_of_fmap.
    by intros (c' & [= _ ->] & _).
  - intros [Hagree _] c client Hc Hsock. rewrite Hin, (Hagree c client _ Hc). tauto.
Qed.

Lemma broadcast_reaches_exactly_the_subscribers_witness :
  "c1" ∈ recipients (Examples.quote "AAPL" 100 1000) {["c1"]} (run [Connect "c1"]).
Proof.
  apply (proj2 (proj2 (proj2 (broadcast_reaches_exactly_the_subscribers
           (Examples.quote "AAPL" 100 1000) {["c1"]} (run [Connect "c1"]))))
         (connection_consistent "c1" initial eq_refl
            (λ s, not_elem_of_empty "c1") initial_consistent)
         "c1" (mkClient "c1" None (list_to_set popularSymbols) ∅)).
  - vm_compute. reflexivity.
  - set_solver.
  - vm_compute. set_solver.
Defined.

(** *** Statistics *)

(** In a consistent registry the subscription statistics list exactly the
    symbols other than ['__proto__'] that have a subscriber, each with the
    number of its subscribers, which is at least one.  The symbol
    ['__proto__'] is never listed, subscribers or not. *)
Theorem subscription_stats_count_subscribers (ws : WebSocketService) (s : string) :
  getSubscriptionStats ws !! "__proto__" = None ∧
  (consistent ws →
   (s ≠ "__proto__" →
    (getSubscriptionStats ws !! s = None ↔ subscribers ws s = ∅)) ∧
   (∀ n, getSubscriptionStats ws !! s = Some n →
         s ≠ "__proto__" ∧ n = size (subscribers ws s) ∧ (1 ≤ n)%nat)).
Proof.
  unfold getSubscriptionStats. split; [apply lookup_delete_eq |].
  intros [_ Hne]. unfold subscribers. split.
  - intros Hs. rewrite lookup_delete_ne by done. rewrite lookup_fmap.
    destruct (symbolSubscriptions ws !! s) as [subs|] eqn:Hsubs; cbn; [| done].
    specialize (Hne s subs Hsubs). split; [done | by intros ->].
  - intros n Hn. destruct (decide (s = "__proto__")) as [-> | Hs];
      [by rewrite lookup_delete_eq in Hn |].
    rewrite lookup_delete_ne, lookup_fmap in Hn by done.
    destruct (symbolSubscriptions ws !! s) as [subs|] eqn:Hsubs; cbn in *; [| done].
    injection Hn as <-. specialize (Hne s subs Hsubs). split; [done |]. split; [done |].
    destruct (size subs) eqn:Hsz; [| lia]. by apply size_zero_empty in Hsz.
Qed.

Lemma subscription_stats_count_subscribers_witness :
  (getSubscriptionStats (run [Connect "c1"]) !! "NVDA" = None
   ↔ subscribers (run [Connect "c1"]) "NVDA" = ∅) ∧
  subscribers (run [Connect "c1"; Subscribe "c1" ["__proto__"]]) "__proto__" = {["c1"]} ∧
  getSubscriptionStats (run [Connect "c1"; Subscribe "c1" ["__proto__"]]) !! "__proto__" = None.
Proof.
  split; [| split; [vm_compute; reflexivity |]].
  - apply (proj1 (proj2 (subscription_stats_count_subscribers (run [Connect "c1"]) "NVDA")
                    (connection_consistent "c1" initial eq_refl
                       (λ s, not_elem_of_empty "c1") initial_consistent))).
    done.
  - exact (proj1 (subscription_stats_count_subscribers
                    (run [Connect "c1"; Subscribe "c1" ["__proto__"]]) "NVDA")).
Defined.

(** *** Connection *)

Lemma withSymbols_compose (f g : gset string → gset string) (c : SocketClient) :
  withSymbols f (withSymbols g c) = withSymbols (f ∘ g) c.
Proof. reflexivity. Qed.

Lemma withSymbols_ext (f g : gset string → gset string) (c : SocketClient) :
  f (subscribedSymbols c) = g (subscribedSymbols c) → withSymbols f c = withSymbols g c.
Proof. unfold withSymbols. by intros ->. Qed.

Lemma onSubscribe_clients_lookup (c c' : string) (l : list string) (ws : WebSocketService) :
  clients (onSubscribe c l ws) !! c' =
  if decide (c' = c)
  then withSymbols (λ X, list_to_set l ∪ X) <$> clients ws !! c
  else clients ws !! c'.
Proof.
  unfold onSubscribe. revert ws. induction l as [|s l IH]; intros ws.
  - cbn [foldl]. case_decide; [subst c' | done].
    destruct (clients ws !! c) as [[i u X r]|]; [| done]. cbn. unfold withSymbols. cbn.
    do 2 f_equal. set_solver.
  - cbn [foldl]. rewrite IH, !subscribe_clients_lookup.
    case_decide; [| done]. rewrite decide_True by done.
    destruct (clients ws !! c) as [cl|]; [| done]. cbn. f_equal.
    rewrite withSymbols_compose. apply withSymbols_ext. cbn. set_solver.
Qed.

Lemma subscribers_onSubscribe (c k : string) (l : list string) (ws : WebSocketService) :
  is_Some (clients ws !! c) →
  subscribers (onSubscribe c l ws) k =
  if decide (k ∈ l) then {[c]} ∪ subscribers ws k else subscribers ws k.
Proof.
  unfold onSubscribe. revert ws. induction l as [|s l IH]; intros ws Hc.
  - cbn. rewrite decide_False; [done | apply not_elem_of_nil].
  - cbn [foldl]. rewrite IH by (by apply subscribe_connected).
    rewrite subscribers_subscribe by done.
    destruct (decide (k = s)) as [-> | Hne].
    + rewrite (decide_True (P := s ∈ s :: l)) by constructor.
      case_decide; set_solver.
    + case_decide as Hin.
      * rewrite decide_True; [done | by constructor].
      * rewrite decide_False; [done |]. intros [? | ?]%elem_of_cons; done.
Qed.

Lemma onSubscribe_size (c : string) (l : list string) (ws : WebSocketService) :
  size (clients (onSubscribe c l ws)) = size (clients ws).
Proof.
  unfold onSubscribe. revert ws. induction l as [|s l IH]; intros ws; [done |].
  cbn [foldl]. rewrite IH. unfold subscribeClientToSymbol.
  destruct (clients ws !! c) as [cl|] eqn:Hc; [| done].
  destruct (symbolSubscriptions ws !! s); cbn; by rewrite map_size_insert_Some.
Qed.

(** A connection under an id that is not in use adds one client, whose
    subscriptions are exactly the six popular symbols; the new client joins
    the subscriber set of each of them and of no other symbol, and no other
    client's record changes. *)
Theorem new_connection_subscribes_popular_symbols (c : string) (ws : WebSocketService) :
  clients ws !! c = None →
  clients (onConnection c ws) !! c
    = Some (mkClient c None (list_to_set popularSymbols) ∅) ∧
  (∀ c', c' ≠ c → clients (onConnection c ws) !! c' = clients ws !! c') ∧
  (∀ s, subscribers (onConnection c ws) s =
        if decide (s ∈ popularSymbols) then {[c]} ∪ subscribers ws s else subscribers ws s) ∧
  getConnectedClientsCount (onConnection c ws) = S (getConnectedClientsCount ws).
Proof.
  intros Hfresh. unfold onConnection, getConnectedClientsCount.
  split; [| split; [| split]].
  - rewrite onSubscribe_clients_lookup, decide_True by done. cbn [clients].
    rewrite lookup_insert_eq. cbn. unfold withSymbols. cbn.
    by rewrite (right_id_L ∅ (∪)).
  - intros c' Hne. rewrite onSubscribe_clients_lookup, decide_False by done.
    cbn [clients]. by rewrite lookup_insert_ne.
  - intros s. rewrite subscribers_onSubscribe; [done |].
    cbn [clients]. rewrite lookup_insert_eq. by eexists.
  - rewrite onSubscribe_size. cbn [clients]. by apply map_size_insert_None.
Qed.

Lemma new_connection_subscribes_popular_symbols_witness :
  getConnectedClientsCount (onConnection "c1" initial) = 1%nat.
Proof.
  apply (new_connection_subscribes_popular_symbols "c1" initial). reflexivity.
Defined.


(** *** From a provider trade to the subscribers *)

Lemma elem_of_broadcastPriceUpdate (c : string) (d d' : MarketData) (sockets : gset string)
    (ws : WebSocketService) :
  (c, d') ∈ broadcastPriceUpdate d sockets ws
  ↔ d' = d ∧ c ∈ subscribers ws (symbol d) ∧ c ∈ sockets.
Proof.
  unfold broadcastPriceUpdate. rewrite list_elem_of_fmap. split.
  - intros (c' & [= -> ->] & Hin).
    apply list_elem_of_filter in Hin as [Hs Hin]. apply elem_of_elements in Hin. done.
  - intros (-> & Hsub & Hsock). exists c. split; [done |].
    apply list_elem_of_filter. split; [done | by apply elem_of_elements].
Qed.

(** With the registry's callback installed, the events emitted for a frame
    of stream messages go to subscribers only, each carrying a trade of the
    frame for the symbol subscribed; and in a consistent registry every
    connected client with an open socket that has the traded symbol among
    its subscriptions is sent the trade's quote. *)
Theorem stream_trade_reaches_its_subscribers
    (before : list MarketMore.StreamMessage) (sym : string) (p sz : Q) (t clock : Z)
    (w : Market.World) (sockets : gset string) (ws : WebSocketService) :
  let frame := (before ++ [MarketMore.TradeMessage sym p sz t])%list in
  let w' := (MarketMore.handleAlpacaStockMessage frame clock w).2 in
  let emitted :=
    onPriceUpdates (drop (length (Market.notified w)) (Market.notified w')) sockets ws in
  (∀ c d, (c, d) ∈ emitted →
          c ∈ subscribers ws (symbol d) ∧ c ∈ sockets ∧
          ∃ m, m ∈ frame ∧ MarketMore.tradeOf m = Some d) ∧
  (consistent ws →
   ∀ c client, clients ws !! c = Some client → c ∈ sockets →
               sym ∈ subscribedSymbols client →
               (c, MarketMore.tradeQuote sym p sz t) ∈ emitted).
Proof.
  cbv zeta. rewrite MarketMoreFacts.handleAlpacaStockMessage_eq. cbn [Market.notified snd].
  rewrite drop_app_length. unfold onPriceUpdates. split.
  - intros c d (d0 & Hem & Hd0)%list_elem_of_bind.
    apply elem_of_broadcastPriceUpdate in Hem as (-> & Hsub & Hsock).
    split; [done |]. split; [done |].
    apply list_elem_of_omap in Hd0 as (m & Hm & Hd). by exists m.
  - intros [Hagree _] c client Hc Hsock Hsym.
    apply list_elem_of_bind. exists (MarketMore.tradeQuote sym p sz t). split.
    + apply elem_of_broadcastPriceUpdate. split; [done |]. split; [| done].
      cbn [symbol MarketMore.tradeQuote]. by apply (Hagree c client sym Hc).
    + rewrite omap_app. apply elem_of_app. right. cbn. by left.
Qed.

Lemma stream_trade_reaches_its_subscribers_witness :
  ("c1", MarketMore.tradeQuote "AAPL" 187 10 2999) ∈
  onPriceUpdates
    (drop (length (Market.notified Examples.freshWorld))
       (Market.notified
          (MarketMore.handleAlpacaStockMessage
             ([] ++ [MarketMore.TradeMessage "AAPL" 187 10 2999]) 3000
             Examples.freshWorld).2))
    {["c1"]} (run [Connect "c1"]).
Proof.
  apply (proj2 (stream_trade_reaches_its_subscribers [] "AAPL" 187 10 2999 3000
                  Examples.freshWorld {["c1"]} (run [Connect "c1"]))
         (connection_consistent "c1" initial eq_refl
            (λ s, not_elem_of_empty "c1") initial_consistent)
         "c1" (mkClient "c1" None (list_to_set popularSymbols) ∅)).
  - vm_compute. reflexivity.
  - set_solver.
  - vm_compute. set_solver.
Defined.


End RegistryMoreFacts.


(** ** The market-data routes *)

Module RoutesFacts.
Import Market Routes.
Import MarketFacts.

(** The status route compares the whole hour of the Eastern clock with 9.5:
    it reports the market open on Monday to Friday from 10:00 up to, not
    including, 16:00, and closed for every minute of the hour that starts at
    9:00, the half hour after the 9:30 of its comment included. *)
Theorem status_opens_at_ten (day hour : Z) :
  (isMarketOpen day hour = true ↔ 1 ≤ day ≤ 5 ∧ 10 ≤ hour ≤ 15) ∧
  isMarketOpen day 9 = false.
Proof.
  split; [| unfold isMarketOpen; by rewrite !andb_false_r].
  unfold isMarketOpen. rewrite !andb_true_iff, !Z.leb_le, Z.ltb_lt, Qle_bool_iff.
  unfold Qle. cbn. lia.
Qed.

(** The quote route never answers 500.  It answers 200 with the cached
    quote on a cache hit and with a generated quote for a forex pair; it
    answers 404 exactly when the on-demand read returns [null], which on a
    cache miss of a symbol that is not a forex pair happens exactly when the
    request budget of the counting window is used up. *)
Theorem quote_route_answers (symbol : string) (clock : Z) (env : FetchEnv) (w : World) :
  (quoteRoute symbol clock env w).1 ≠ Returned ServerError ∧
  (∃ r, (quoteRoute symbol clock env w).1 = Returned r) ∧
  (∀ d, (Cache.getMarketData symbol clock (cacheService (svc w))).1 = Some d →
        (quoteRoute symbol clock env w).1 = Returned (Ok d)) ∧
  ((Cache.getMarketData symbol clock (cacheService (svc w))).1 = None →
   isForexSymbol symbol = true →
   ∃ d, (quoteRoute symbol clock env w).1 = Returned (Ok d)) ∧
  ((Cache.getMarketData symbol clock (cacheService (svc w))).1 = None →
   isForexSymbol symbol = false →
   ((quoteRoute symbol clock env w).1 = Returned NotFound
    ↔ maxRequestsPerWindow ≤ requestCount (resetIfWindowPassed (now env) (svc w)))).
Proof.
  assert (Hroute : ∀ r w', getMarketData symbol clock env w = (Returned r, w') →
            (quoteRoute symbol clock env w).1
            = Returned (match r with Some d => Ok d | None => NotFound end)).
  { intros r w' Hr. unfold quoteRoute. unfold_M. rewrite Hr. by destruct r. }
  destruct (MarketMoreFacts.on_demand_read_cases symbol clock env w)
    as ((r & Hret) & Hhit & Hmiss).
  destruct (getMarketData symbol clock env w) as [o w'] eqn:Hrun.
  cbn [fst] in Hret. subst o. rewrite (Hroute r w' eq_refl).
  split; [by destruct r |]. split; [by eexists |]. split; [| split].
  - intros d Hd. specialize (Hhit d Hd). by injection Hhit as -> _.
  - intros Hnone Hfx. destruct (Hmiss Hnone) as [Hrun' _]. clear Hmiss.
    destruct (fetchAlpacaData_forex symbol env
                (mkWorld (with_cache (Cache.getMarketData symbol clock
                                        (cacheService (svc w))).2 (svc w))
                         (sent w) (notified w)) Hfx) as (q & _ & Hq).
    rewrite <- Hrun' in Hq. cbn in Hq. injection Hq as ->. by exists q.
  - intros Hnone Hfx. destruct (Hmiss Hnone) as [Hrun' _]. clear Hmiss.
    set (w1 := mkWorld (with_cache (Cache.getMarketData symbol clock
                                      (cacheService (svc w))).2 (svc w))
                       (sent w) (notified w)) in *.
    assert (Hsame : resetIfWindowPassed (now env) (svc w1)
                    = with_cache (Cache.getMarketData symbol clock
                                    (cacheService (svc w))).2
                                 (resetIfWindowPassed (now env) (svc w))).
    { unfold resetIfWindowPassed. cbn. by destruct (_ <? _). }
    assert (Hcount : requestCount (resetIfWindowPassed (now env) (svc w1))
                     = requestCount (resetIfWindowPassed (now env) (svc w)))
      by (by rewrite Hsame).
    destruct (Z_lt_le_dec (requestCount (resetIfWindowPassed (now env) (svc w)))
                          maxRequestsPerWindow) as [Hlt | Hle].
    + destruct (fetchAlpacaData_admitted_call symbol env w1 Hfx) as (q & c' & extra & Hq & _);
        [by rewrite Hcount |].
      rewrite <- Hrun' in Hq. injection Hq as -> _. split; [done | lia].
    + pose proof (fetchAlpacaData_exhausted symbol env w1 Hfx) as Hq.
      rewrite Hcount in Hq. specialize (Hq Hle). rewrite <- Hrun' in Hq.
      injection Hq as -> _. done.
Qed.

Lemma quote_route_answers_witness :
  (quoteRoute "AAPL" 2000 (Examples.failingEnv 2000 "Network Error")
              Examples.exhaustedWorld).1 = Returned NotFound.
Proof.
  apply (proj2 (proj2 (proj2 (proj2
           (quote_route_answers "AAPL" 2000 (Examples.failingEnv 2000 "Network Error")
              Examples.exhaustedWorld))))).
  - reflexivity.
  - reflexivity.
  - vm_compute. discriminate.
Defined.

End RoutesFacts.
